(** * Metabolomics hypothesis generator: the parsing and summarising core

    A shallow embedding of the functions of [src/App.jsx]: the table
    functions [parseCSV], [detectColumns] and [summarizeData], the extractor
    [parseJSONSafely], the upload handler [processFile], the prompt context
    [buildContext] and the three request workflows ([generateHypotheses],
    [generateExperimentalDesign], [generateLiteratureAnalysis]), with the
    properties the specification states about them and further properties
    that the code shows.

    JavaScript strings are sequences of UTF-16 code units; they are modelled
    as lists of code units ([N]).  Exceptions are explicit: a computation
    that may throw returns a [completion]. *)

From Stdlib Require Import String Ascii.
From Stdlib Require Import List NArith ZArith Bool Lia.
From Stdlib Require Import QArith Qabs Lqa Sorting.Sorted Sorting.Permutation.
From Stdlib Require Import DecimalString.
Import ListNotations.

Local Open Scope N_scope.

(* ================================================================== *)
(** ** Strings of code units *)
(* ================================================================== *)

Definition char := N.
Definition jsstring := list char.

Definition ch (a : ascii) : char := N_of_ascii a.
Arguments ch : simpl never.

Definition dquote : char := 34.
Definition apostrophe : char := 39.

(** [js s] is the text [s] in which an apostrophe stands for the double
    quote character (so that JSON texts can be written down as they are). *)
Definition js (s : string) : jsstring :=
  map (fun a => let c := N_of_ascii a in if c =? apostrophe then dquote else c)
      (list_ascii_of_string s).

(** [lit s] is the text [s], character for character. *)
Definition lit (s : string) : jsstring :=
  map N_of_ascii (list_ascii_of_string s).

Fixpoint str_eqb (a b : jsstring) : bool :=
  match a, b with
  | [], [] => true
  | x :: a', y :: b' => (x =? y) && str_eqb a' b'
  | _, _ => false
  end.

Fixpoint starts_with (needle s : jsstring) : bool :=
  match needle, s with
  | [], _ => true
  | x :: needle', y :: s' => (x =? y) && starts_with needle' s'
  | _ :: _, [] => false
  end.

(** [s.substring(a, b)] for [0 <= a <= b]. *)
Definition substring (s : jsstring) (a b : nat) : jsstring :=
  firstn (b - a) (skipn a s).

(** [s.lastIndexOf(needle)]: the greatest index at which [needle] occurs,
    or [-1]. *)
Fixpoint lastIndexOf_from (needle s : jsstring) (i : Z) (found : Z) : Z :=
  match s with
  | [] => if starts_with needle [] then i else found
  | _ :: s' =>
      lastIndexOf_from needle s' (i + 1)
                       (if starts_with needle s then i else found)
  end.

Definition lastIndexOf (s needle : jsstring) : Z :=
  lastIndexOf_from needle s 0 (-1).

(* ================================================================== *)
(** ** Exceptions *)
(* ================================================================== *)

Inductive error :=
| SyntaxError
| TypeError
| Error (message : jsstring).

Inductive completion (A : Type) :=
| Normal (a : A)
| Throw (e : error).
Arguments Normal {A} a.
Arguments Throw {A} e.

(** [try { body } catch (e) { handler }] *)
Definition try_catch {A} (body : completion A) (handler : error -> completion A)
  : completion A :=
  match body with
  | Normal a => Normal a
  | Throw e => handler e
  end.

Definition bind {A B} (c : completion A) (k : A -> completion B) : completion B :=
  match c with
  | Normal a => k a
  | Throw e => Throw e
  end.

Notation "x <- c ;; k" := (bind c (fun x => k))
  (at level 61, c at next level, right associativity).

(* ================================================================== *)
(** ** The regular expressions of the source

    Every regular expression of [parseJSONSafely] is a sequence of single
    characters, starred character classes and the end anchor.  [match_here]
    is the backtracking matcher of the language at one start position
    (a starred class is greedy: it first takes as much as it can and gives
    characters back one at a time); [exec] tries the start positions from
    left to right, as [RegExp.prototype.exec] does. *)
(* ================================================================== *)

Definition cset := char -> bool.

Inductive atom :=
| One (c : cset)     (* one character of the class *)
| Many (c : cset)    (* class*  *)
| Eos.               (* $ *)

Definition pattern := list atom.

(** A greedy starred class followed by the rest of the pattern [k]. *)
Fixpoint many_loop (c : cset) (k : jsstring -> option jsstring) (s : jsstring)
  : option jsstring :=
  match s with
  | x :: s' =>
      if c x then
        match many_loop c k s' with
        | Some r => Some r
        | None => k s
        end
      else k s
  | [] => k []
  end.

(** [match_here p s]: the text left after the first way (in backtracking
    order) to match [p] at the start of [s]. *)
Fixpoint match_here (p : pattern) (s : jsstring) : option jsstring :=
  match p with
  | [] => Some s
  | One c :: p' =>
      match s with
      | x :: s' => if c x then match_here p' s' else None
      | [] => None
      end
  | Many c :: p' => many_loop c (match_here p') s
  | Eos :: p' =>
      match s with
      | [] => match_here p' []
      | _ :: _ => None
      end
  end.

(** The result of a successful [exec]: the text before the match, the
    match, and the text after it. *)
Fixpoint exec (p : pattern) (s : jsstring)
  : option (jsstring * jsstring * jsstring) :=
  match match_here p s with
  | Some r => Some ([], firstn (length s - length r) s, r)
  | None =>
      match s with
      | [] => None
      | x :: s' =>
          match exec p s' with
          | Some (b, m, a) => Some (x :: b, m, a)
          | None => None
          end
      end
  end.

(** [s.match(re)?.[0]] for a regular expression without the [g] flag. *)
Definition str_match (s : jsstring) (p : pattern) : option jsstring :=
  match exec p s with
  | Some (_, m, _) => Some m
  | None => None
  end.

(** [s.replace(re, '')] for a regular expression without the [g] flag. *)
Definition replace_empty (s : jsstring) (p : pattern) : jsstring :=
  match exec p s with
  | Some (b, _, a) => b ++ a
  | None => s
  end.

Definition only (a : ascii) : cset := fun c => c =? ch a.
Definition only_dquote : cset := fun c => c =? dquote.
Definition non (f : cset) : cset := fun c => negb (f c).
Definition any : cset := fun _ => true.

(** [\s]: the WhiteSpace and LineTerminator code units of ECMAScript. *)
Definition re_space : cset := fun c =>
  ((9 <=? c) && (c <=? 13)) || (c =? 32) || (c =? 160) || (c =? 5760)
  || ((8192 <=? c) && (c <=? 8202)) || (c =? 8232) || (c =? 8233)
  || (c =? 8239) || (c =? 8287) || (c =? 12288) || (c =? 65279).

(** In the comments below [Q] stands for the double quote character. *)

(** [/\[[\s\S]*\]/] and [/\{[\s\S]*\}/] *)
Definition re_array : pattern := [One (only "["); Many any; One (only "]")].
Definition re_object : pattern := [One (only "{"); Many any; One (only "}")].
(** [/\[[\s\S]*/] and [/\{[\s\S]*/] *)
Definition re_array_open : pattern := [One (only "["); Many any].
Definition re_object_open : pattern := [One (only "{"); Many any].

(** [/,\s*Q[^Q]*$/] *)
Definition re_trim_string : pattern :=
  [One (only ","); Many re_space; One only_dquote; Many (non only_dquote); Eos].
(** [/,\s*Q[^Q]*Q:\s*Q[^Q]*$/] *)
Definition re_trim_pair_string : pattern :=
  [One (only ","); Many re_space; One only_dquote; Many (non only_dquote);
   One only_dquote; One (only ":"); Many re_space; One only_dquote;
   Many (non only_dquote); Eos].
(** [/,\s*Q[^Q]*Q:\s*\[[^\]]*$/] *)
Definition re_trim_pair_array : pattern :=
  [One (only ","); Many re_space; One only_dquote; Many (non only_dquote);
   One only_dquote; One (only ":"); Many re_space; One (only "[");
   Many (non (only "]")); Eos].
(** [/,\s*Q[^Q]*Q:\s*$/] *)
Definition re_trim_key : pattern :=
  [One (only ","); Many re_space; One only_dquote; Many (non only_dquote);
   One only_dquote; One (only ":"); Many re_space; Eos].
(** [/,\s*$/] *)
Definition re_trim_comma : pattern :=
  [One (only ","); Many re_space; Eos].
(** [/,\s*\{[^}]*$/] *)
Definition re_trim_object : pattern :=
  [One (only ","); Many re_space; One (only "{"); Many (non (only "}")); Eos].

(* ================================================================== *)
(** ** [JSON.parse]

    The JSON grammar of ECMA-404, as [JSON.parse] accepts it: a value
    between optional white space, nothing else.  A number is kept as its
    literal (the characters that denote it); an object is the list of its
    members in the order of first definition, a repeated key replacing the
    earlier value. *)
(* ================================================================== *)

#[warnings="-register-all"]
Inductive json :=
| JNull
| JBool (b : bool)
| JNumber (literal : jsstring)
| JString (s : jsstring)
| JArray (elements : list json)
| JObject (members : list (jsstring * json)).

Fixpoint obj_set (k : jsstring) (v : json) (ms : list (jsstring * json))
  : list (jsstring * json) :=
  match ms with
  | [] => [(k, v)]
  | (k', v') :: ms' =>
      if str_eqb k' k then (k', v) :: ms' else (k', v') :: obj_set k v ms'
  end.

Definition json_ws : cset := fun c =>
  (c =? 32) || (c =? 9) || (c =? 10) || (c =? 13).

Fixpoint skip_ws (s : jsstring) : jsstring :=
  match s with
  | c :: r => if json_ws c then skip_ws r else s
  | [] => []
  end.

Definition is_digit : cset := fun c => (48 <=? c) && (c <=? 57).

Definition hex_value (c : char) : option N :=
  if (48 <=? c) && (c <=? 57) then Some (c - 48)
  else if (65 <=? c) && (c <=? 70) then Some (c - 55)
  else if (97 <=? c) && (c <=? 102) then Some (c - 87)
  else None.

(** The character denoted by a one-letter escape. *)
Definition unescape (e : char) : option char :=
  if e =? dquote then Some dquote
  else if e =? ch "\" then Some (ch "\")
  else if e =? ch "/" then Some (ch "/")
  else if e =? ch "b" then Some 8
  else if e =? ch "f" then Some 12
  else if e =? ch "n" then Some 10
  else if e =? ch "r" then Some 13
  else if e =? ch "t" then Some 9
  else None.

(** The rest of a string literal, after its opening quote: the string it
    denotes and the text after the closing quote. *)
Fixpoint parse_string (s : jsstring) (acc : jsstring)
  : option (jsstring * jsstring) :=
  match s with
  | [] => None
  | c :: r =>
      if c =? dquote then Some (rev acc, r)
      else if c =? ch "\" then
        match r with
        | [] => None
        | e :: r1 =>
            if e =? ch "u" then
              match r1 with
              | h1 :: h2 :: h3 :: h4 :: r2 =>
                  match hex_value h1, hex_value h2, hex_value h3, hex_value h4 with
                  | Some a, Some b, Some c', Some d =>
                      parse_string r2 ((((a * 16 + b) * 16 + c') * 16 + d) :: acc)
                  | _, _, _, _ => None
                  end
              | _ => None
              end
            else
              match unescape e with
              | Some x => parse_string r1 (x :: acc)
              | None => None
              end
        end
      else if c <? 32 then None
      else parse_string r (c :: acc)
  end.

Fixpoint span (f : cset) (s : jsstring) : jsstring * jsstring :=
  match s with
  | c :: r => if f c then let (a, b) := span f r in (c :: a, b) else ([], s)
  | [] => ([], [])
  end.

(** [0 | [1-9][0-9]*] *)
Definition parse_int (s : jsstring) : option (jsstring * jsstring) :=
  match s with
  | c :: r =>
      if c =? ch "0" then Some ([c], r)
      else if is_digit c then let (ds, r') := span is_digit r in Some (c :: ds, r')
      else None
  | [] => None
  end.

(** [(\.[0-9]+)?] *)
Definition parse_frac (s : jsstring) : option (jsstring * jsstring) :=
  match s with
  | c :: r =>
      if c =? ch "." then
        match span is_digit r with
        | ([], _) => None
        | (ds, r') => Some (c :: ds, r')
        end
      else Some ([], s)
  | [] => Some ([], [])
  end.

(** [([eE][+-]?[0-9]+)?] *)
Definition parse_exp (s : jsstring) : option (jsstring * jsstring) :=
  match s with
  | c :: r =>
      if (c =? ch "e") || (c =? ch "E") then
        let (sg, r1) :=
          match r with
          | x :: r' => if (x =? ch "+") || (x =? ch "-") then ([x], r') else ([], r)
          | [] => ([], [])
          end in
        match span is_digit r1 with
        | ([], _) => None
        | (ds, r2) => Some (c :: sg ++ ds, r2)
        end
      else Some ([], s)
  | [] => Some ([], [])
  end.

(** [int frac? exp?] *)
Definition parse_unsigned (s : jsstring) : option (jsstring * jsstring) :=
  match parse_int s with
  | None => None
  | Some (i, s1) =>
      match parse_frac s1 with
      | None => None
      | Some (f, s2) =>
          match parse_exp s2 with
          | None => None
          | Some (e, s3) => Some (i ++ f ++ e, s3)
          end
      end
  end.

(** A number literal: the literal and the text after it. *)
Definition parse_number (s : jsstring) : option (jsstring * jsstring) :=
  match s with
  | c :: r =>
      if c =? ch "-" then
        match parse_unsigned r with
        | Some (n, r') => Some (c :: n, r')
        | None => None
        end
      else parse_unsigned s
  | [] => None
  end.

(** The outcome of a parser: a value and the text left, a syntax error, or
    recursion budget exhausted (which [JSON_parse] never meets, see
    [parse_value_fuel]). *)
Inductive presult :=
| POk (v : json) (rest : jsstring)
| PErr
| PFuel.

Fixpoint parse_value (fuel : nat) (s : jsstring) : presult :=
  match fuel with
  | O => PFuel
  | S fuel =>
      match s with
      | [] => PErr
      | c :: r =>
          if c =? ch "[" then
            match skip_ws r with
            | [] => PErr
            | c' :: r' =>
                if c' =? ch "]" then POk (JArray []) r'
                else parse_elements fuel (c' :: r') []
            end
          else if c =? ch "{" then
            match skip_ws r with
            | [] => PErr
            | c' :: r' =>
                if c' =? ch "}" then POk (JObject []) r'
                else parse_members fuel (c' :: r') []
            end
          else if c =? dquote then
            match parse_string r [] with
            | Some (str, r') => POk (JString str) r'
            | None => PErr
            end
          else if c =? ch "t" then
            if starts_with (lit "rue") r then POk (JBool true) (skipn 3 r) else PErr
          else if c =? ch "f" then
            if starts_with (lit "alse") r then POk (JBool false) (skipn 4 r) else PErr
          else if c =? ch "n" then
            if starts_with (lit "ull") r then POk JNull (skipn 3 r) else PErr
          else
            match parse_number s with
            | Some (n, r') => POk (JNumber n) r'
            | None => PErr
            end
      end
  end

(** The elements of an array from the first character of an element on,
    [acc] holding the elements read so far, last first. *)
with parse_elements (fuel : nat) (s : jsstring) (acc : list json) : presult :=
  match fuel with
  | O => PFuel
  | S fuel =>
      match parse_value fuel s with
      | POk v r =>
          match skip_ws r with
          | [] => PErr
          | c :: r' =>
              if c =? ch "," then parse_elements fuel (skip_ws r') (v :: acc)
              else if c =? ch "]" then POk (JArray (rev (v :: acc))) r'
              else PErr
          end
      | PErr => PErr
      | PFuel => PFuel
      end
  end

(** The members of an object from the opening quote of a key on. *)
with parse_members (fuel : nat) (s : jsstring) (acc : list (jsstring * json))
  : presult :=
  match fuel with
  | O => PFuel
  | S fuel =>
      match s with
      | [] => PErr
      | q :: r0 =>
          if q =? dquote then
            match parse_string r0 [] with
            | None => PErr
            | Some (k, r1) =>
                match skip_ws r1 with
                | [] => PErr
                | c :: r2 =>
                    if c =? ch ":" then
                      match parse_value fuel (skip_ws r2) with
                      | POk v r3 =>
                          match skip_ws r3 with
                          | [] => PErr
                          | c' :: r4 =>
                              if c' =? ch "," then
                                parse_members fuel (skip_ws r4) (obj_set k v acc)
                              else if c' =? ch "}" then
                                POk (JObject (obj_set k v acc)) r4
                              else PErr
                          end
                      | PErr => PErr
                      | PFuel => PFuel
                      end
                    else PErr
                end
            end
          else PErr
      end
  end.

Definition parse_fuel (text : jsstring) : nat := 2 * length text + 1.

(** [JSON.parse(text)]: the value, or a [SyntaxError]. *)
Definition JSON_parse (text : jsstring) : completion json :=
  match parse_value (parse_fuel text) (skip_ws text) with
  | POk v r =>
      match skip_ws r with
      | [] => Normal v
      | _ :: _ => Throw SyntaxError
      end
  | PErr => Throw SyntaxError
  | PFuel => Throw SyntaxError
  end.

(* ================================================================== *)
(** ** [parseJSONSafely] (App.jsx, lines 107-221) *)
(* ================================================================== *)

(** The six replacements that remove trailing incomplete content, in the
    order of the source. *)
Definition trim_patterns : list pattern :=
  [re_trim_string; re_trim_pair_string; re_trim_pair_array; re_trim_key;
   re_trim_comma; re_trim_object].

Definition trim_tail (jsonStr : jsstring) : jsstring :=
  fold_left replace_empty trim_patterns jsonStr.

(** The variables of the counting loop. *)
Record counter := mkCounter {
  inString : bool;
  escape : bool;
  brackets : Z;
  braces : Z
}.

Definition counter0 : counter := mkCounter false false 0 0.

(** One turn of the loop [for (let i = 0; i < jsonStr.length; i++)]. *)
Definition count_step (st : counter) (c : char) : counter :=
  if escape st then mkCounter (inString st) false (brackets st) (braces st)
  else if c =? ch "\" then mkCounter (inString st) true (brackets st) (braces st)
  else if c =? dquote then
    mkCounter (negb (inString st)) (escape st) (brackets st) (braces st)
  else if negb (inString st) then
    if c =? ch "[" then
      mkCounter (inString st) (escape st) (brackets st + 1) (braces st)
    else if c =? ch "]" then
      mkCounter (inString st) (escape st) (brackets st - 1) (braces st)
    else if c =? ch "{" then
      mkCounter (inString st) (escape st) (brackets st) (braces st + 1)
    else if c =? ch "}" then
      mkCounter (inString st) (escape st) (brackets st) (braces st - 1)
    else st
  else st.

Definition count_from (st : counter) (s : jsstring) : counter :=
  fold_left count_step s st.

Definition count_open (jsonStr : jsstring) : counter :=
  count_from counter0 jsonStr.

(** "Close any open structures": braces first, then brackets; a count that
    is not positive adds nothing. *)
Definition close_open (jsonStr : jsstring) : jsstring :=
  let st := count_open jsonStr in
  jsonStr ++ repeat (ch "}") (Z.to_nat (braces st))
          ++ repeat (ch "]") (Z.to_nat (brackets st)).

(** The text [parseJSONSafely] tries to parse after repair: from the first
    opening bracket to the end of the text, trimmed and closed.  [None] when
    the text has no opening bracket. *)
Definition repaired (text : jsstring) (isArray : bool) : option jsstring :=
  match str_match text (if isArray then re_array_open else re_object_open) with
  | Some jsonStr => Some (close_open (trim_tail jsonStr))
  | None => None
  end.

(** The variables of the loop that collects complete top level objects. *)
Record collector := mkCollector {
  depth : Z;
  start : Z;
  objects : list json
}.

Definition collect_step (jsonStr : jsstring) (st : collector) (i : nat) (c : char)
  : collector :=
  let start1 :=
    if (c =? ch "{") && (depth st =? 0)%Z then Z.of_nat i else start st in
  let depth1 := if c =? ch "{" then (depth st + 1)%Z else depth st in
  let depth2 := if c =? ch "}" then (depth1 - 1)%Z else depth1 in
  if (c =? ch "}") && (depth2 =? 0)%Z && negb (start1 =? -1)%Z then
    let objStr := substring jsonStr (Z.to_nat start1) (i + 1) in
    mkCollector depth2 (-1)
      (match JSON_parse objStr with
       | Normal v => objects st ++ [v]
       | Throw _ => objects st            (* skip malformed object *)
       end)
  else mkCollector depth2 start1 (objects st).

Fixpoint collect_loop (jsonStr rest : jsstring) (i : nat) (st : collector)
  : collector :=
  match rest with
  | [] => st
  | c :: rest' => collect_loop jsonStr rest' (S i) (collect_step jsonStr st i c)
  end.

Definition collect_objects (jsonStr : jsstring) : list json :=
  objects (collect_loop jsonStr jsonStr 0%nat (mkCollector 0 (-1) [])).

(** What a block of statements does: [Return v] when it executed
    [return v], [Continue] when control reached its end. *)
Inductive outcome :=
| Return (v : json)
| Continue.

(** First [try] block (lines 111-115). *)
Definition direct_block (text : jsstring) (isArray : bool) : completion outcome :=
  match str_match text (if isArray then re_array else re_object) with
  | Some m => v <- JSON_parse m ;; Normal (Return v)
  | None => Normal Continue
  end.

(** The [try] block of lines 177-183. *)
Definition last_complete_block (jsonStr : jsstring) : completion outcome :=
  let lastCompleteIdx := lastIndexOf jsonStr (lit "},") in
  if (0 <? lastCompleteIdx)%Z then
    let truncated :=
      substring jsonStr 0 (Z.to_nat (lastCompleteIdx + 1)) ++ [ch "]"] in
    v <- JSON_parse truncated ;; Normal (Return v)
  else Normal Continue.

(** The [try] block of lines 190-215. *)
Definition salvage_block (jsonStr : jsstring) (isArray : bool) : completion outcome :=
  if isArray then
    let objs := collect_objects jsonStr in
    if (0 <? length objs)%nat then Normal (Return (JArray objs))
    else Normal Continue
  else Normal Continue.

(** The handler of the [catch (e)] of line 174. *)
Definition repair_handler (jsonStr : jsstring) (isArray : bool) : completion json :=
  match
    (if isArray then
       try_catch (last_complete_block jsonStr) (fun _ => Normal Continue)
     else Normal Continue)
  with
  | Throw e => Throw e
  | Normal (Return v) => Normal v
  | Normal Continue =>
      match try_catch (salvage_block jsonStr isArray) (fun _ => Normal Continue) with
      | Throw e => Throw e
      | Normal (Return v) => Normal v
      | Normal Continue => Normal JNull
      end
  end.

(** [parseJSONSafely(text, isArray)]; [JNull] is JavaScript's [null]. *)
Definition parseJSONSafely (text : jsstring) (isArray : bool) : completion json :=
  match text with
  | [] => Normal JNull                                   (* if (!text) *)
  | _ :: _ =>
      match try_catch (direct_block text isArray) (fun _ => Normal Continue) with
      | Throw e => Throw e
      | Normal (Return v) => Normal v
      | Normal Continue =>
          match repaired text isArray with
          | None => Normal JNull                         (* if (!jsonStr) *)
          | Some jsonStr =>
              try_catch (JSON_parse jsonStr)
                        (fun _ => repair_handler jsonStr isArray)
          end
      end
  end.

(* ================================================================== *)
(** ** Numbers and values

    A JavaScript number is an IEEE 754 double.  The functions below only
    compare numbers, take absolute values and look at the sign of a
    difference, so a finite number is modelled by its exact value (a
    rational): comparison is exact, and the difference of two doubles has
    the sign of the exact difference.  The two zeros are not told apart
    (no operation used here does). *)
(* ================================================================== *)

Inductive number :=
| NaN
| PosInf
| NegInf
| Fin (q : Q).

Definition Qltb (a b : Q) : bool := negb (Qle_bool b a).

(** [a < b] on numbers. *)
Definition num_ltb (a b : number) : bool :=
  match a, b with
  | NaN, _ | _, NaN => false
  | PosInf, _ => false
  | _, NegInf => false
  | NegInf, _ => true
  | Fin _, PosInf => true
  | Fin x, Fin y => Qltb x y
  end.

(** [a > b] on numbers. *)
Definition num_gtb (a b : number) : bool := num_ltb b a.

(** [Math.abs] *)
Definition num_abs (a : number) : number :=
  match a with
  | NaN => NaN
  | PosInf | NegInf => PosInf
  | Fin x => Fin (Qabs x)
  end.

(** [a - b] on numbers. *)
Definition num_sub (a b : number) : number :=
  match a, b with
  | NaN, _ | _, NaN => NaN
  | PosInf, PosInf => NaN
  | NegInf, NegInf => NaN
  | PosInf, _ => PosInf
  | NegInf, _ => NegInf
  | Fin _, PosInf => NegInf
  | Fin _, NegInf => PosInf
  | Fin x, Fin y => Fin (x - y)
  end.

Definition is_nan (a : number) : bool :=
  match a with NaN => true | _ => false end.

(** The number literals of the source. *)
Definition num_0 : number := Fin 0.
Definition num_1 : number := Fin 1.
Definition num_0_5 : number := Fin (1 # 2).
(** [0.05] denotes the double nearest to 1/20. *)
Definition num_0_05 : number := Fin (3602879701896397 # 72057594037927936).

(** The values a cell of a parsed table can hold. *)
Inductive value :=
| VUndefined
| VNumber (n : number)
| VString (s : jsstring).

(** ToBoolean *)
Definition truthy (v : value) : bool :=
  match v with
  | VUndefined => false
  | VNumber NaN => false
  | VNumber (Fin q) => negb (Qeq_bool q 0)
  | VNumber _ => true
  | VString [] => false
  | VString (_ :: _) => true
  end.

(** [a || b] *)
Definition or_else (a b : value) : value := if truthy a then a else b.

(** An object with string keys: its properties in the order of creation. *)
Definition row := list (jsstring * value).

(** [row[key]] *)
Fixpoint get_prop (r : row) (key : jsstring) : value :=
  match r with
  | [] => VUndefined
  | (k, v) :: r' => if str_eqb k key then v else get_prop r' key
  end.

(** [row[key] = v] *)
Fixpoint set_prop (r : row) (key : jsstring) (v : value) : row :=
  match r with
  | [] => [(key, v)]
  | (k, v') :: r' =>
      if str_eqb k key then (k, v) :: r' else (k, v') :: set_prop r' key v
  end.

(** The roles [detectColumns] assigns; a role without column is
    [undefined]. *)
Record columns := mkColumns {
  metabolite : option jsstring;
  foldChange : option jsstring;
  pValue : option jsstring;
  pathway : option jsstring
}.

(** The property key a column name denotes in [row[col]]: the name, or
    the text of [undefined]. *)
Definition key_of (col : option jsstring) : jsstring :=
  match col with
  | Some name => name
  | None => lit "undefined"
  end.

(** [Array.prototype.slice(0, n)] *)
Definition slice0 {A} (n : nat) (l : list A) : list A := firstn n l.

(** [Array.prototype.sort(comparefn)]: the stable sort (ECMA-262,
    23.1.3.30).  Of a call [comparefn(x, y)] only the sign is used, [NaN]
    counting as zero; [x], which comes first in the array, goes after [y]
    only when [comparefn(x, y) > 0]. *)
Fixpoint insert_sorted {A} (comparefn : A -> A -> number) (x : A) (l : list A)
  : list A :=
  match l with
  | [] => [x]
  | y :: l' =>
      if num_gtb (comparefn x y) num_0 then y :: insert_sorted comparefn x l'
      else x :: l
  end.

Definition sort {A} (comparefn : A -> A -> number) (l : list A) : list A :=
  fold_right (insert_sorted comparefn) [] l.

Record summary := mkSummary {
  total : nat;
  significant : nat;
  increased : nat;
  decreased : nat;
  topIncreased : list row;
  topDecreased : list row;
  summary_columns : columns
}.

(** The string functions [parseCSV] uses. *)

(** [s.split(sep)] for a separator of one character. *)
Fixpoint split (sep : char) (s : jsstring) : list jsstring :=
  match s with
  | [] => [[]]
  | c :: s' =>
      if c =? sep then [] :: split sep s'
      else
        match split sep s' with
        | piece :: pieces => (c :: piece) :: pieces
        | [] => [[c]]
        end
  end.

Fixpoint trim_start (s : jsstring) : jsstring :=
  match s with
  | c :: s' => if re_space c then trim_start s' else s
  | [] => []
  end.

(** [s.trim()] *)
Definition trim (s : jsstring) : jsstring :=
  rev (trim_start (rev (trim_start s))).

(** [s.replace(/Q/g, '')], [Q] the double quote *)
Definition remove_quotes (s : jsstring) : jsstring :=
  filter (non only_dquote) s.

Section Host.

(** The conversions of the host the source relies on: ToNumber on a
    string (ECMA-262, 7.1.4.1.1) and [parseFloat] (19.2.4). *)
Variable StringToNumber : jsstring -> number.
Variable parseFloat : jsstring -> number.

(** ToNumber *)
Definition ToNumber (v : value) : number :=
  match v with
  | VUndefined => NaN
  | VNumber n => n
  | VString s => StringToNumber s
  end.

(** [isNaN(v)] *)
Definition isNaN (v : value) : bool := is_nan (ToNumber v).

(** [a < b] and [a > b] where one side is a number. *)
Definition lt (a b : value) : bool := num_ltb (ToNumber a) (ToNumber b).
Definition gt (a b : value) : bool := num_gtb (ToNumber a) (ToNumber b).

(** [Math.abs(v)] *)
Definition Math_abs (v : value) : number := num_abs (ToNumber v).

(** *** [parseCSV] (lines 73-85) *)

(** [isNaN(values[i]) ? values[i] : parseFloat(values[i])], where
    [values[i]] is a string, or [undefined] past the end of [values]
    (and [isNaN(undefined)] holds). *)
Definition coerce (cell : option jsstring) : value :=
  match cell with
  | None => VUndefined
  | Some s => if isNaN (VString s) then VString s else VNumber (parseFloat s)
  end.

(** [headers.forEach((h, i) => { row[h] = ... })] from index [i] on. *)
Fixpoint fill_row (headers : list jsstring) (values : list jsstring)
         (i : nat) (r : row) : row :=
  match headers with
  | [] => r
  | h :: headers' =>
      fill_row headers' values (S i) (set_prop r h (coerce (nth_error values i)))
  end.

Definition parse_cells (line : jsstring) : list jsstring :=
  map (fun v => remove_quotes (trim v)) (split (ch ",") line).

(** [String.prototype.split] returns a non-empty array, so [lines[0]] is
    a string; were it [undefined], [lines[0].split] would throw. *)
Definition parseCSV (text : jsstring)
  : completion (list jsstring * list row) :=
  let lines := split 10 (trim text) in
  match lines with
  | [] => Throw TypeError
  | line0 :: rest =>
      let headers := parse_cells line0 in
      let data := map (fun line => fill_row headers (parse_cells line) 0 []) rest in
      Normal (headers, data)
  end.

(** *** [summarizeData] (lines 223-251) *)

(** The callback of [data.filter] at lines 230-234. *)
Definition is_significant (cols : columns) (r : row) : bool :=
  let fc := Math_abs (or_else (get_prop r (key_of (foldChange cols))) (VNumber num_0)) in
  let p := or_else (get_prop r (key_of (pValue cols))) (VNumber num_1) in
  num_gtb fc num_0_5 && lt p (VNumber num_0_05).

Definition fc_of (cols : columns) (r : row) : value :=
  get_prop r (key_of (foldChange cols)).

(** [(a, b) => b[fcCol] - a[fcCol]] and [(a, b) => a[fcCol] - b[fcCol]] *)
Definition descending (cols : columns) (a b : row) : number :=
  num_sub (ToNumber (fc_of cols b)) (ToNumber (fc_of cols a)).
Definition ascending (cols : columns) (a b : row) : number :=
  num_sub (ToNumber (fc_of cols a)) (ToNumber (fc_of cols b)).

Definition summarizeData (data : list row) (cols : columns) : option summary :=
  match data with
  | [] => None
  | _ :: _ =>
      let significant := filter (is_significant cols) data in
      let increased :=
        filter (fun r => gt (fc_of cols r) (VNumber num_0)) significant in
      let decreased :=
        filter (fun r => lt (fc_of cols r) (VNumber num_0)) significant in
      let topIncreased := slice0 10 (sort (descending cols) increased) in
      let topDecreased := slice0 10 (sort (ascending cols) decreased) in
      Some (mkSummary (length data) (length significant) (length increased)
                      (length decreased) topIncreased topDecreased cols)
  end.

(** *** The rows [buildContext] lists under "FULL SIGNIFICANT METABOLITES
    DATA" (lines 354-355) *)

Definition context_filter (cols : columns) (r : row) : bool :=
  num_gtb (Math_abs (or_else (get_prop r (key_of (foldChange cols))) (VNumber num_0)))
          num_0_5
  && lt (or_else (get_prop r (key_of (pValue cols))) (VNumber num_1))
        (VNumber num_0_05).

Definition context_rows (data : list row) (cols : columns) : list row :=
  slice0 50 (filter (context_filter cols) data).

End Host.

(* ================================================================== *)
(** ** The three workflows (lines 395-563)

    The component state the workflows read and write.  A result slot
    holds [JNull] until a result is stored.  The stored experimental design
    is the object [{ hypothesis: hypothesis.title, ...parsed }]; it is kept
    as the pair of the title and [parsed].  The error slot holds
    [err.message]; it is kept as the error it is the message of. *)
(* ================================================================== *)

Inductive hypothesis_type :=
| Mechanisms | Disease | Biomarkers | Therapeutics | Pathways | Custom.

Inductive tab := TabUpload | TabAnalyze | TabGenerate | TabResults | TabSettings.

Record loading_flags := mkLoading {
  loading_hypotheses : bool;
  loading_experimental : bool;
  loading_literature : bool
}.

Record app_state := mkState {
  apiKey : jsstring;
  selectedType : option hypothesis_type;
  hypotheses : json;
  experimentalDesign : option (option json * json);
  literatureAnalysis : json;
  loading : loading_flags;
  error_message : option error;
  activeTab : tab
}.

Definition setHypotheses (v : json) (s : app_state) : app_state :=
  mkState (apiKey s) (selectedType s) v (experimentalDesign s)
          (literatureAnalysis s) (loading s) (error_message s) (activeTab s).
Definition setExperimentalDesign (v : option (option json * json)) (s : app_state)
  : app_state :=
  mkState (apiKey s) (selectedType s) (hypotheses s) v
          (literatureAnalysis s) (loading s) (error_message s) (activeTab s).
Definition setLiteratureAnalysis (v : json) (s : app_state) : app_state :=
  mkState (apiKey s) (selectedType s) (hypotheses s) (experimentalDesign s)
          v (loading s) (error_message s) (activeTab s).
Definition setLoading (f : loading_flags -> loading_flags) (s : app_state)
  : app_state :=
  mkState (apiKey s) (selectedType s) (hypotheses s) (experimentalDesign s)
          (literatureAnalysis s) (f (loading s)) (error_message s) (activeTab s).
Definition setError (v : option error) (s : app_state) : app_state :=
  mkState (apiKey s) (selectedType s) (hypotheses s) (experimentalDesign s)
          (literatureAnalysis s) (loading s) v (activeTab s).
Definition setActiveTab (v : tab) (s : app_state) : app_state :=
  mkState (apiKey s) (selectedType s) (hypotheses s) (experimentalDesign s)
          (literatureAnalysis s) (loading s) (error_message s) v.

(** [callClaudeAPI] (lines 363-392).  [http] is what the request does once
    the key is present: the text of the answer, or the exception thrown for
    a failed request or a response that is not ok. *)
Definition callClaudeAPI (key : jsstring) (http : completion jsstring)
  : completion jsstring :=
  match key with
  | [] => Throw (Error (lit "Please enter your Anthropic API key"))
  | _ :: _ => http
  end.

(** [parsed.length > 0] for the value [parseJSONSafely(response, true)]
    returns: [null] or an array (lemma [parseJSONSafely_array_shape]). *)
Definition has_elements (parsed : json) : bool :=
  match parsed with
  | JArray (_ :: _) => true
  | _ => false
  end.

(** A number literal denotes zero when its digits before the exponent are
    all zeros. *)
Definition denotes_zero (literal : jsstring) : bool :=
  forallb (fun c => negb (is_digit c) || (c =? ch "0"))
          (fst (span (fun c => negb ((c =? ch "e") || (c =? ch "E"))) literal)).

(** ToBoolean on a parsed value. *)
Definition json_truthy (parsed : json) : bool :=
  match parsed with
  | JNull => false
  | JBool b => b
  | JNumber literal => negb (denotes_zero literal)
  | JString [] => false
  | JString (_ :: _) => true
  | JArray _ => true
  | JObject _ => true
  end.

(** The [try] block of [generateHypotheses] (lines 405-439).  [context] is
    the outcome of [buildContext()] and of building the prompt. *)
Definition hypotheses_try (context http : completion jsstring) (s : app_state)
  : completion app_state :=
  _ <- context ;;
  response <- callClaudeAPI (apiKey s) http ;;
  parsed <- parseJSONSafely response true ;;
  if json_truthy parsed && has_elements parsed then
    Normal (setActiveTab TabResults (setHypotheses parsed s))
  else
    Throw (Error (lit "Could not parse hypotheses from response. Try reducing Max Tokens in Settings.")).

(** The state updates before the [try] block (lines 398-400): the loading
    flag is raised, the error cleared and the hypotheses slot reset. *)
Definition hypotheses_begin (s : app_state) : app_state :=
  setHypotheses JNull
    (setError None
       (setLoading (fun l => mkLoading true (loading_experimental l)
                                       (loading_literature l)) s)).

Definition generateHypotheses (context http : completion jsstring) (s : app_state)
  : app_state :=
  match selectedType s with
  | None => s                                          (* if (!selectedType) return *)
  | Some _ =>
      let s1 := hypotheses_begin s in
      let s2 :=
        match hypotheses_try context http s1 with
        | Normal s' => s'
        | Throw err => setError (Some err) s1
        end in
      setLoading (fun l => mkLoading false (loading_experimental l)
                                     (loading_literature l)) s2
  end.

(** The [try] block of [generateExperimentalDesign] (lines 452-504).
    [prompt] is the outcome of building the prompt from the hypothesis,
    [title] the value of [hypothesis.title] ([None] for [undefined]). *)
Definition experimental_try (prompt http : completion jsstring)
           (title : option json) (s : app_state) : completion app_state :=
  _ <- prompt ;;
  response <- callClaudeAPI (apiKey s) http ;;
  parsed <- parseJSONSafely response false ;;
  if json_truthy parsed then
    Normal (setExperimentalDesign (Some (title, parsed)) s)
  else
    Throw (Error (lit "Could not parse experimental design. Try reducing Max Tokens in Settings.")).

(** The state updates before the [try] block (lines 449-450). *)
Definition experimental_begin (s : app_state) : app_state :=
  setError None
    (setLoading (fun l => mkLoading (loading_hypotheses l) true
                                    (loading_literature l)) s).

Definition generateExperimentalDesign (prompt http : completion jsstring)
           (title : option json) (s : app_state) : app_state :=
  let s1 := experimental_begin s in
  let s2 :=
    match experimental_try prompt http title s1 with
    | Normal s' => s'
    | Throw err => setError (Some err) s1
    end in
  setLoading (fun l => mkLoading (loading_hypotheses l) false
                                 (loading_literature l)) s2.

(** The [try] block of [generateLiteratureAnalysis] (lines 517-557). *)
Definition literature_try (context http : completion jsstring) (s : app_state)
  : completion app_state :=
  _ <- context ;;
  response <- callClaudeAPI (apiKey s) http ;;
  parsed <- parseJSONSafely response false ;;
  if json_truthy parsed then
    Normal (setLiteratureAnalysis parsed s)
  else
    Throw (Error (lit "Could not parse literature analysis. Try reducing Max Tokens in Settings.")).

(** The state updates before the [try] block (lines 514-515). *)
Definition literature_begin (s : app_state) : app_state :=
  setError None
    (setLoading (fun l => mkLoading (loading_hypotheses l)
                                    (loading_experimental l) true) s).

Definition generateLiteratureAnalysis (context http : completion jsstring)
           (s : app_state) : app_state :=
  let s1 := literature_begin s in
  let s2 :=
    match literature_try context http s1 with
    | Normal s' => s'
    | Throw err => setError (Some err) s1
    end in
  setLoading (fun l => mkLoading (loading_hypotheses l)
                                 (loading_experimental l) false) s2.

(** The result slots of the three workflows. *)
Definition slots (s : app_state) : json * option (option json * json) * json :=
  (hypotheses s, experimentalDesign s, literatureAnalysis s).

(** ** The four recovery strategies of [parseJSONSafely]

    What each strategy yields on a text, read off the blocks above: the
    value it would return, or [None]. *)

(** The value of a call in a [try] block whose [catch] goes on. *)
Definition parsed_or_none (c : completion json) : option json :=
  match c with
  | Normal v => Some v
  | Throw _ => None
  end.

(** 1. Direct match (lines 111-118). *)
Definition direct_match (text : jsstring) (isArray : bool) : option json :=
  match str_match text (if isArray then re_array else re_object) with
  | Some m => parsed_or_none (JSON_parse m)
  | None => None
  end.

(** 2. Truncation repair (lines 120-173). *)
Definition truncation_repair (text : jsstring) (isArray : bool) : option json :=
  match repaired text isArray with
  | Some jsonStr => parsed_or_none (JSON_parse jsonStr)
  | None => None
  end.

(** 3. Last complete element, array shape only (lines 176-187). *)
Definition last_complete_element (text : jsstring) (isArray : bool) : option json :=
  match repaired text isArray with
  | Some jsonStr =>
      if isArray && (0 <? lastIndexOf jsonStr (lit "},"))%Z then
        parsed_or_none
          (JSON_parse (substring jsonStr 0 (Z.to_nat (lastIndexOf jsonStr (lit "},") + 1))
                       ++ [ch "]"]))
      else None
  | None => None
  end.

(** 4. Per element salvage, array shape only (lines 190-215). *)
Definition per_element_salvage (text : jsstring) (isArray : bool) : option json :=
  match repaired text isArray with
  | Some jsonStr =>
      if isArray then
        match collect_objects jsonStr with
        | [] => None
        | objs => Some (JArray objs)
        end
      else None
  | None => None
  end.



(** The conversion used in the examples: no text reads as a number (their
    rows hold numbers in the numeric columns, so none is consulted). *)
Definition text_is_not_a_number : jsstring -> number := fun _ => NaN.

(* ================================================================== *)
(** ** Notions the statements below are written with *)
(* ================================================================== *)

(** The first value that four attempts made in order yield, [null] when
    none yields one. *)
Definition first_some (a b c d : option json) : json :=
  match a, b, c, d with
  | Some v, _, _, _ => v
  | None, Some v, _, _ => v
  | None, None, Some v, _ => v
  | None, None, None, Some v => v
  | None, None, None, None => JNull
  end.

(** The value of the requested shape: an array, or an object. *)
Definition has_shape (isArray : bool) (v : json) : Prop :=
  if isArray then exists l, v = JArray l else exists ms, v = JObject ms.

(** The brackets of a shape. *)
Definition opener (isArray : bool) : ascii := if isArray then "["%char else "{"%char.
Definition closer (isArray : bool) : ascii := if isArray then "]"%char else "}"%char.

(** [a <= b] on numbers. *)
Definition num_leb (a b : number) : bool :=
  match a, b with
  | NaN, _ | _, NaN => false
  | _, _ => negb (num_ltb b a)
  end.

(** The significance predicate in the words of the specification: a
    missing effect size counts as 0, a missing significance as 1, and the
    row is significant when [abs(effectSize) > 0.5] and
    [significance < 0.05]. *)
Definition spec_significant (StringToNumber : jsstring -> number)
           (cols : columns) (r : row) : bool :=
  let effectSize :=
    match get_prop r (key_of (foldChange cols)) with
    | VUndefined => num_0
    | v => ToNumber StringToNumber v
    end in
  let significance :=
    match get_prop r (key_of (pValue cols)) with
    | VUndefined => num_1
    | v => ToNumber StringToNumber v
    end in
  num_gtb (num_abs effectSize) num_0_5 && num_ltb significance num_0_05.

(** The number a row is ranked by. *)
Definition rank_key (StringToNumber : jsstring -> number) (cols : columns) (r : row)
  : number :=
  ToNumber StringToNumber (fc_of cols r).

(** A list of rows sorted by effect size, largest first ... *)
Definition non_increasing (StringToNumber : jsstring -> number) (cols : columns)
           (l : list row) : Prop :=
  StronglySorted
    (fun a b => num_leb (rank_key StringToNumber cols b)
                        (rank_key StringToNumber cols a) = true) l.

(** ... and smallest first. *)
Definition non_decreasing (StringToNumber : jsstring -> number) (cols : columns)
           (l : list row) : Prop :=
  StronglySorted
    (fun a b => num_leb (rank_key StringToNumber cols a)
                        (rank_key StringToNumber cols b) = true) l.

(** The columns and rows of the examples. *)
Definition example_columns : columns :=
  mkColumns (Some (lit "metabolite")) (Some (lit "log2FC")) (Some (lit "pvalue")) None.

(** The row of a metabolite with its fold change and p-value. *)
Definition example_row (name : string) (fc p : Q) : row :=
  [(lit "metabolite", VString (lit name));
   (lit "log2FC", VNumber (Fin fc));
   (lit "pvalue", VNumber (Fin p))].

(** A state with stored results, a selected hypothesis type and no
    credential: every request fails before it is sent. *)
Definition state_with_results : app_state :=
  mkState [] (Some Mechanisms)
          (JArray [JObject [(lit "rank", JNumber (lit "1"))]])
          (Some (Some (JString (lit "A")), JObject [(lit "timeline", JNull)]))
          (JObject [(lit "knowledge_gaps", JNull)])
          (mkLoading false false false) None TabAnalyze.

(** The characters the counting loop reacts to. *)
Definition special : cset := fun c =>
  (c =? ch "\") || (c =? dquote) || (c =? ch "[") || (c =? ch "]")
  || (c =? ch "{") || (c =? ch "}").

(** The counter inside and outside a string literal, no escape pending,
    with [b] open brackets and [k] open braces. *)
Definition in_string (b k : Z) : counter := mkCounter true false b k.
Definition outside (b k : Z) : counter := mkCounter false false b k.

(** The first character of [t] is in the class. *)
Definition head_in (f : cset) (t : jsstring) : bool :=
  match t with
  | [] => false
  | x :: _ => f x
  end.

(** The characters that can continue a number literal. *)
Definition number_more : cset := fun c =>
  is_digit c || (c =? ch ".") || (c =? ch "e") || (c =? ch "E").

(** The characters of a number literal. *)
Definition number_char : cset := fun c =>
  number_more c || (c =? ch "-") || (c =? ch "+").

(** The condition under which an optional part keeps its extent when the
    text after it changes to [t]: an absent part must not start at [t], a
    present part must not go on into [t]. *)
Definition part_ends (opening : cset) (part t : jsstring) : bool :=
  match part with
  | [] => negb (head_in opening t)
  | _ :: _ => negb (head_in is_digit t)
  end.

(** The letters that open an exponent. *)
Definition exp_mark : cset := fun c => (c =? ch "e") || (c =? ch "E").

(** What follows a value is no obstacle: only a number can be continued
    by the next character. *)
Definition stops_after (v : json) (t : jsstring) : Prop :=
  match v with
  | JNumber _ => head_in number_more t = false
  | _ => True
  end.

(** What a successful run of [parse_value] tells: the text read is not
    empty, the counter is back where it was after it, and the same value is
    read, with any larger budget, when the text after it is replaced. *)
Definition value_ok (fuel : nat) (s : jsstring) (v : json) (r : jsstring) : Prop :=
  exists c, s = c ++ r /\ c <> [] /\
    (forall b k, count_from (outside b k) c = outside b k) /\
    (forall fuel' t, (fuel <= fuel')%nat -> stops_after v t ->
       parse_value fuel' (c ++ t) = POk v t).

(** The same for the elements of an array up to its closing bracket ... *)
Definition elements_ok (fuel : nat) (s : jsstring) (acc : list json)
           (v : json) (r : jsstring) : Prop :=
  exists c, s = c ++ r /\ c <> [] /\
    (forall b k, count_from (outside b k) c = outside (b - 1) k) /\
    (forall fuel' t, (fuel <= fuel')%nat ->
       parse_elements fuel' (c ++ t) acc = POk v t).

(** ... and for the members of an object up to its closing brace. *)
Definition members_ok (fuel : nat) (s : jsstring) (acc : list (jsstring * json))
           (v : json) (r : jsstring) : Prop :=
  exists c, s = c ++ r /\ c <> [] /\
    (forall b k, count_from (outside b k) c = outside b (k - 1)) /\
    (forall fuel' t, (fuel <= fuel')%nat ->
       parse_members fuel' (c ++ t) acc = POk v t).



(* ================================================================== *)
(** ** [detectColumns] (lines 87-104)

    The four regular expressions of [detectColumns] have the form
    [/^(a1|a2|...)/i]: a group of alternatives anchored at the start of the
    header, each alternative made of pattern characters, the optional
    wildcard [.?] and the end anchor [$]. *)
(* ================================================================== *)

Inductive item :=
| Chr (a : ascii)    (* a pattern character *)
| OptDot             (* .? *)
| AtEnd.             (* $ *)

Definition alternative := list item.

(** Under the [i] flag two code units match when Canonicalize maps them to
    the same code unit (ECMA-262, 22.2.5.6; no [u] flag).  Canonicalize
    takes a code unit to its upper case, but never one from 128 on to one
    below 128.  Every pattern character of the source is below 128, so
    whether a code unit matches one is decided by the upper case of the
    letters [a] to [z]; the code units from 128 on can be left as they are. *)
Definition canonicalize (c : char) : char :=
  if (97 <=? c) && (c <=? 122) then c - 32 else c.

(** [.] matches every code unit but the line terminators. *)
Definition line_terminator : cset := fun c =>
  (c =? 10) || (c =? 13) || (c =? 8232) || (c =? 8233).

(** Whether the alternative matches at the start of [s].  [.?] is greedy:
    it takes a character when it can and gives it back when the rest does
    not match. *)
Fixpoint match_alt (p : alternative) (s : jsstring) : bool :=
  match p with
  | [] => true
  | Chr a :: p' =>
      match s with
      | c :: s' => (canonicalize c =? canonicalize (ch a)) && match_alt p' s'
      | [] => false
      end
  | OptDot :: p' =>
      match s with
      | c :: s' => (negb (line_terminator c) && match_alt p' s') || match_alt p' s
      | [] => match_alt p' []
      end
  | AtEnd :: p' =>
      match s with
      | [] => match_alt p' []
      | _ :: _ => false
      end
  end.

(** [re.test(h)] for [re = /^(a1|a2|...)/i]: nothing follows the group, so
    the test succeeds when one of the alternatives matches at the start. *)
Definition regexp_test (re : list alternative) (h : jsstring) : bool :=
  existsb (fun a => match_alt a h) re.

Definition word (w : string) : alternative := map Chr (list_ascii_of_string w).

(** [/^(metabolite|compound|name|id|feature)/i] *)
Definition patterns_metabolite : list alternative :=
  [word "metabolite"; word "compound"; word "name"; word "id"; word "feature"].
(** [/^(fc|fold.?change|log2fc|logfc|ratio)/i] *)
Definition patterns_foldChange : list alternative :=
  [word "fc"; word "fold" ++ OptDot :: word "change"; word "log2fc";
   word "logfc"; word "ratio"].
(** [/^(p.?val|pvalue|p$|fdr|q.?val|adj)/i] *)
Definition patterns_pValue : list alternative :=
  [word "p" ++ OptDot :: word "val"; word "pvalue"; word "p" ++ [AtEnd];
   word "fdr"; word "q" ++ OptDot :: word "val"; word "adj"].
(** [/^(pathway|kegg|hmdb|class|category|super)/i] *)
Definition patterns_pathway : list alternative :=
  [word "pathway"; word "kegg"; word "hmdb"; word "class"; word "category";
   word "super"].

(** [!detected[key]]: the role has no column yet, or the empty string. *)
Definition not_detected (current : option jsstring) : bool :=
  match current with
  | None => true
  | Some [] => true
  | Some (_ :: _) => false
  end.

(** [if (pattern.test(h) && !detected[key]) detected[key] = h] *)
Definition detect_role (re : list alternative) (h : jsstring)
           (current : option jsstring) : option jsstring :=
  if regexp_test re h && not_detected current then Some h else current.

(** The body of [headers.forEach]: the four roles in the order of
    [patterns]. *)
Definition detect_step (detected : columns) (h : jsstring) : columns :=
  mkColumns (detect_role patterns_metabolite h (metabolite detected))
            (detect_role patterns_foldChange h (foldChange detected))
            (detect_role patterns_pValue h (pValue detected))
            (detect_role patterns_pathway h (pathway detected)).

Definition detectColumns (headers : list jsstring) : columns :=
  fold_left detect_step headers (mkColumns None None None None).

(* ================================================================== *)
(** ** The upload and the prompt context (lines 254-360)

    The part of the component state that holds the uploaded table, beside
    the state of the workflows: [data], [columns] and [summary]. *)
(* ================================================================== *)

Record workspace := mkWorkspace {
  ui : app_state;
  state_data : option (list row);
  state_columns : columns;
  state_summary : option summary
}.

(** [Array.prototype.join] on strings. *)
Fixpoint join (sep : jsstring) (parts : list jsstring) : jsstring :=
  match parts with
  | [] => []
  | [p] => p
  | p :: parts' => p ++ sep ++ join sep parts'
  end.

(** [array.map(f)] for a callback that may throw: the first exception
    ends the loop. *)
Fixpoint map_throwing {A B} (f : A -> completion B) (l : list A)
  : completion (list B) :=
  match l with
  | [] => Normal []
  | x :: l' => y <- f x ;; ys <- map_throwing f l' ;; Normal (y :: ys)
  end.

(** The decimal digits of a count (ToString on a non-negative integer). *)
Definition decimal (n : nat) : jsstring :=
  lit (NilEmpty.string_of_uint (Nat.to_uint n)).

Definition newline : jsstring := [10].

Section Upload.

(** The conversions of the host, as for [parseCSV], and its number
    formatting: ToString on a number, [Number.prototype.toFixed] and
    [Number.prototype.toExponential] (with their digit count), and the
    message of an exception the engine throws. *)
Variable StringToNumber : jsstring -> number.
Variable parseFloat : jsstring -> number.
Variable NumberToString : number -> jsstring.
Variable toFixed : nat -> number -> jsstring.
Variable toExponential : nat -> number -> jsstring.
Variable engine_message : error -> jsstring.

(** [err.message] *)
Definition message_of (err : error) : jsstring :=
  match err with
  | Error message => message
  | _ => engine_message err
  end.

(** *** [processFile] (lines 272-292)

    The handler [reader.onload] on the text of the file. *)
Definition onload (text : jsstring) (w : workspace) : workspace :=
  match parseCSV StringToNumber parseFloat text with
  | Normal (headers, parsedData) =>
      let detectedColumns := detectColumns headers in
      mkWorkspace (setActiveTab TabAnalyze (setError None (ui w)))
                  (Some parsedData) detectedColumns
                  (summarizeData StringToNumber parsedData detectedColumns)
  | Throw err =>
      mkWorkspace
        (setError (Some (Error (lit "Failed to parse file: " ++ message_of err)))
                  (ui w))
        (state_data w) (state_columns w) (state_summary w)
  end.

(** A file is given by the text that reading it yields; [None] is no file
    ([if (!file) return]). *)
Definition processFile (file : option jsstring) (w : workspace) : workspace :=
  match file with
  | None => w
  | Some text => onload text w
  end.

(** *** [buildContext] (lines 331-360) *)

(** [${v}] in a template literal: ToString. *)
Definition ToString (v : value) : jsstring :=
  match v with
  | VUndefined => lit "undefined"
  | VNumber n => NumberToString n
  | VString s => s
  end.

(** [${v?.method(digits)}] for a method of [Number.prototype]: on
    [undefined] the call is skipped and [undefined] is printed; a number
    has the method; a string has no such property, and calling [undefined]
    throws a [TypeError]. *)
Definition optional_call (method : number -> jsstring) (v : value)
  : completion jsstring :=
  match v with
  | VUndefined => Normal (lit "undefined")
  | VNumber n => Normal (method n)
  | VString _ => Throw TypeError
  end.

(** [pathCol ? ... : ''] *)
Definition column_given (col : option jsstring) : bool := negb (not_detected col).

(** The callback of the two [map] calls at lines 344-345 and 349-350. *)
Definition top_line (cols : columns) (r : row) : completion jsstring :=
  fc <- optional_call (toFixed 2) (get_prop r (key_of (foldChange cols))) ;;
  p <- optional_call (toExponential 2) (get_prop r (key_of (pValue cols))) ;;
  Normal (lit "- " ++ ToString (get_prop r (key_of (metabolite cols)))
          ++ lit ": FC=" ++ fc ++ lit ", p=" ++ p
          ++ (if column_given (pathway cols)
              then lit ", Pathway: " ++ ToString (get_prop r (key_of (pathway cols)))
              else [])).

(** The callback of the [map] call at line 356. *)
Definition full_line (cols : columns) (r : row) : completion jsstring :=
  fc <- optional_call (toFixed 3) (get_prop r (key_of (foldChange cols))) ;;
  p <- optional_call (toExponential 2) (get_prop r (key_of (pValue cols))) ;;
  Normal (ToString (get_prop r (key_of (metabolite cols)))
          ++ lit ": FC=" ++ fc ++ lit ", p=" ++ p).

Definition buildContext (w : workspace) : completion jsstring :=
  match state_data w, state_summary w with
  | Some data, Some s =>
      let cols := state_columns w in
      tops <- map_throwing (top_line cols) (topIncreased s) ;;
      downs <- map_throwing (top_line cols) (topDecreased s) ;;
      full <- map_throwing (full_line cols) (context_rows StringToNumber data cols) ;;
      Normal (lit "DIFFERENTIAL METABOLOMICS DATA SUMMARY" ++ newline
              ++ lit "=====================================" ++ newline
              ++ lit "Total metabolites: " ++ decimal (total s) ++ newline
              ++ lit "Significant changes (|FC| > 0.5, p < 0.05): "
              ++ decimal (significant s) ++ newline
              ++ lit "- Increased: " ++ decimal (increased s) ++ newline
              ++ lit "- Decreased: " ++ decimal (decreased s) ++ newline
              ++ newline
              ++ lit "TOP INCREASED METABOLITES:" ++ newline
              ++ join newline tops ++ newline
              ++ newline
              ++ lit "TOP DECREASED METABOLITES:" ++ newline
              ++ join newline downs ++ newline
              ++ newline
              ++ lit "FULL SIGNIFICANT METABOLITES DATA:" ++ newline
              ++ join newline full ++ newline)
  | _, _ => Normal []                       (* if (!data || !summary) return '' *)
  end.

End Upload.

(* ================================================================== *)
(** ** Notions for the properties of the upload *)
(* ================================================================== *)

(** The column assignment with every detected name rewritten by [f]. *)
Definition map_columns (f : jsstring -> jsstring) (c : columns) : columns :=
  mkColumns (option_map f (metabolite c)) (option_map f (foldChange c))
            (option_map f (pValue c)) (option_map f (pathway c)).

(** A cell as [parseCSV] leaves it: a text is kept as a text only when the
    host does not read it as a number. *)
Definition typed_cell (StringToNumber : jsstring -> number) (v : value) : bool :=
  match v with
  | VString s => is_nan (StringToNumber s)
  | _ => true
  end.

(** A row all of whose cells are such. *)
Definition typed_row (StringToNumber : jsstring -> number) (r : row) : Prop :=
  Forall (fun kv => typed_cell StringToNumber (snd kv) = true) r.

(** The rows of Scenario A. *)
Definition example_data : list row :=
  [example_row "Glucose" (-15 # 10) (1 # 1000);
   example_row "Lactate" (23 # 10) (1 # 10000)].

(** A workspace before any upload, with a key entered and a hypothesis
    type selected. *)
Definition example_workspace : workspace :=
  mkWorkspace
    (mkState (lit "key") (Some Mechanisms) JNull None JNull
             (mkLoading false false false) None TabUpload)
    None (mkColumns None None None None) None.

(** The text with every line feed preceded by a carriage return, as a
    file with CR LF line ends has it, and the lines of such a text. *)
Definition crlf (text : jsstring) : jsstring :=
  flat_map (fun c => if c =? 10 then [13; 10] else [c]) text.

Fixpoint add_cr (lines : list jsstring) : list jsstring :=
  match lines with
  | [] => []
  | [l] => [l]
  | l :: rest => (l ++ [13]) :: add_cr rest
  end.

(** A conversion that reads the empty text as 0, as ToNumber does, and
    no other text as a number. *)
Definition empty_text_is_zero : jsstring -> number :=
  fun s => match s with [] => num_0 | _ :: _ => NaN end.

(** What holds of the variables of the collecting loop before the
    character at index [i] is read: only objects have been collected, and
    when a start index is recorded it lies before [i], at an opening
    brace. *)
Definition collector_ok (jsonStr : jsstring) (i : nat) (st : collector) : Prop :=
  Forall (has_shape false) (objects st) /\
  (start st = (-1)%Z \/
   (0 <= start st < Z.of_nat i)%Z /\
   nth_error jsonStr (Z.to_nat (start st)) = Some (ch "{")).

(* ================================================================== *)
(** * Properties of the extractor *)
(* ================================================================== *)

(** C1 (Scenario C): on the array text cut inside the string of its third
    element, [parseJSONSafely] with array shape returns exactly the two
    complete objects, rank 1 and rank 2. *)
Theorem C1_scenario_truncated_third_element :
  parseJSONSafely
    (js "[{'rank':1,'title':'A'},{'rank':2,'title':'B'},{'rank':3,'title':'C")
    true
  = Normal (JArray
      [JObject [(lit "rank", JNumber (lit "1")); (lit "title", JString (lit "A"))];
       JObject [(lit "rank", JNumber (lit "2")); (lit "title", JString (lit "B"))]]).
Proof. vm_compute. reflexivity. Qed.

(** C2, as stated, fails: on the text of Scenario B the result is not
    [null]. *)
Lemma C2_scenario_single_element_not_null :
  parseJSONSafely (js "Here is the result: [{'rank':1,'title':'X'") true
  = Normal (JArray
      [JObject [(lit "rank", JNumber (lit "1")); (lit "title", JString (lit "X"))]])
  /\ JArray [JObject [(lit "rank", JNumber (lit "1")); (lit "title", JString (lit "X"))]]
     <> JNull.
Proof. split; [vm_compute; reflexivity | discriminate]. Qed.

(** C2, amended: on the text of Scenario B the truncation repair closes
    the open brace and bracket and the single element is returned; cut one
    character earlier, inside the string, the element is returned without
    its unfinished member.  Nothing is thrown in either case. *)
Theorem C2_scenario_single_element_salvaged :
  parseJSONSafely (js "Here is the result: [{'rank':1,'title':'X'") true
  = Normal (JArray
      [JObject [(lit "rank", JNumber (lit "1")); (lit "title", JString (lit "X"))]])
  /\ parseJSONSafely (js "Here is the result: [{'rank':1,'title':'X") true
     = Normal (JArray [JObject [(lit "rank", JNumber (lit "1"))]]).
Proof. split; vm_compute; reflexivity. Qed.

(** *** Unfolding equations of the parser *)

Lemma parse_value_eq fuel c r :
  parse_value (S fuel) (c :: r) =
  if c =? ch "[" then
    match skip_ws r with
    | [] => PErr
    | c' :: r' =>
        if c' =? ch "]" then POk (JArray []) r'
        else parse_elements fuel (c' :: r') []
    end
  else if c =? ch "{" then
    match skip_ws r with
    | [] => PErr
    | c' :: r' =>
        if c' =? ch "}" then POk (JObject []) r'
        else parse_members fuel (c' :: r') []
    end
  else if c =? dquote then
    match parse_string r [] with
    | Some (str, r') => POk (JString str) r'
    | None => PErr
    end
  else if c =? ch "t" then
    if starts_with (lit "rue") r then POk (JBool true) (skipn 3 r) else PErr
  else if c =? ch "f" then
    if starts_with (lit "alse") r then POk (JBool false) (skipn 4 r) else PErr
  else if c =? ch "n" then
    if starts_with (lit "ull") r then POk JNull (skipn 3 r) else PErr
  else
    match parse_number (c :: r) with
    | Some (n, r') => POk (JNumber n) r'
    | None => PErr
    end.
Proof. reflexivity. Qed.

Lemma parse_elements_eq fuel s acc :
  parse_elements (S fuel) s acc =
  match parse_value fuel s with
  | POk v r =>
      match skip_ws r with
      | [] => PErr
      | c :: r' =>
          if c =? ch "," then parse_elements fuel (skip_ws r') (v :: acc)
          else if c =? ch "]" then POk (JArray (rev (v :: acc))) r'
          else PErr
      end
  | PErr => PErr
  | PFuel => PFuel
  end.
Proof. reflexivity. Qed.

Lemma parse_members_eq fuel s acc :
  parse_members (S fuel) s acc =
  match s with
  | [] => PErr
  | q :: r0 =>
      if q =? dquote then
        match parse_string r0 [] with
        | None => PErr
        | Some (k, r1) =>
            match skip_ws r1 with
            | [] => PErr
            | c :: r2 =>
                if c =? ch ":" then
                  match parse_value fuel (skip_ws r2) with
                  | POk v r3 =>
                      match skip_ws r3 with
                      | [] => PErr
                      | c' :: r4 =>
                          if c' =? ch "," then
                            parse_members fuel (skip_ws r4) (obj_set k v acc)
                          else if c' =? ch "}" then
                            POk (JObject (obj_set k v acc)) r4
                          else PErr
                      end
                  | PErr => PErr
                  | PFuel => PFuel
                  end
                else PErr
            end
        end
      else PErr
  end.
Proof. reflexivity. Qed.

Lemma parse_value_nil fuel : parse_value (S fuel) [] = PErr.
Proof. reflexivity. Qed.

Lemma parse_value_O s : parse_value 0 s = PFuel.
Proof. reflexivity. Qed.

Lemma parse_elements_O s acc : parse_elements 0 s acc = PFuel.
Proof. reflexivity. Qed.

Lemma parse_members_O s acc : parse_members 0 s acc = PFuel.
Proof. reflexivity. Qed.

Global Opaque parse_value parse_elements parse_members.

(** *** The shape of a parsed text *)

Lemma parse_elements_shape fuel : forall s acc v r,
  parse_elements fuel s acc = POk v r -> exists l, v = JArray l.
Proof.
  induction fuel as [|fuel IH]; intros s acc v r H.
  - discriminate.
  - rewrite parse_elements_eq in H.
    destruct (parse_value fuel s) as [v0 r0| |]; try discriminate.
    destruct (skip_ws r0) as [|c r']; try discriminate.
    destruct (c =? ch ","); [eauto|].
    destruct (c =? ch "]"); [|discriminate].
    inversion H; eauto.
Qed.

Lemma parse_members_shape fuel : forall s acc v r,
  parse_members fuel s acc = POk v r -> exists ms, v = JObject ms.
Proof.
  induction fuel as [|fuel IH]; intros s acc v r H.
  - discriminate.
  - rewrite parse_members_eq in H.
    destruct s as [|q r0]; try discriminate.
    destruct (q =? dquote); try discriminate.
    destruct (parse_string r0 []) as [[k r1]|]; try discriminate.
    destruct (skip_ws r1) as [|c r2]; try discriminate.
    destruct (c =? ch ":"); try discriminate.
    destruct (parse_value fuel (skip_ws r2)) as [v0 r3| |]; try discriminate.
    destruct (skip_ws r3) as [|c' r4]; try discriminate.
    destruct (c' =? ch ","); [eauto|].
    destruct (c' =? ch "}"); [|discriminate].
    inversion H; eauto.
Qed.

Lemma parse_value_bracket_shape fuel r v rest :
  parse_value fuel (ch "[" :: r) = POk v rest -> exists l, v = JArray l.
Proof.
  destruct fuel as [|fuel]; [discriminate|].
  rewrite parse_value_eq. rewrite N.eqb_refl.
  destruct (skip_ws r) as [|c' r']; [discriminate|].
  destruct (c' =? ch "]").
  - intros H; inversion H; eauto.
  - apply parse_elements_shape.
Qed.

Lemma parse_value_brace_shape fuel r v rest :
  parse_value fuel (ch "{" :: r) = POk v rest -> exists ms, v = JObject ms.
Proof.
  destruct fuel as [|fuel]; [discriminate|].
  rewrite parse_value_eq.
  change (ch "{" =? ch "[") with false. rewrite N.eqb_refl. cbv iota.
  destruct (skip_ws r) as [|c' r']; [discriminate|].
  destruct (c' =? ch "}").
  - intros H; inversion H; eauto.
  - apply parse_members_shape.
Qed.

Lemma JSON_parse_bracket_shape r v :
  JSON_parse (ch "[" :: r) = Normal v -> exists l, v = JArray l.
Proof.
  unfold JSON_parse. change (skip_ws (ch "[" :: r)) with (ch "[" :: r).
  destruct (parse_value _ _) as [v0 r0| |] eqn:E; try discriminate.
  destruct (skip_ws r0); try discriminate.
  intros H; inversion H; subst. eapply parse_value_bracket_shape; eauto.
Qed.

Lemma JSON_parse_brace_shape r v :
  JSON_parse (ch "{" :: r) = Normal v -> exists ms, v = JObject ms.
Proof.
  unfold JSON_parse. change (skip_ws (ch "{" :: r)) with (ch "{" :: r).
  destruct (parse_value _ _) as [v0 r0| |] eqn:E; try discriminate.
  destruct (skip_ws r0); try discriminate.
  intros H; inversion H; subst. eapply parse_value_brace_shape; eauto.
Qed.

(** *** The regular expression matcher *)

Lemma many_loop_suffix c k :
  (forall s r, k s = Some r -> exists m, s = m ++ r) ->
  forall s r, many_loop c k s = Some r -> exists m, s = m ++ r.
Proof.
  intros Hk. induction s as [|x s IH]; intros r H; simpl in H.
  - apply Hk; assumption.
  - destruct (c x); [|apply Hk; assumption].
    destruct (many_loop c k s) as [r'|] eqn:E; [|apply Hk; assumption].
    inversion H; subst. destruct (IH r eq_refl) as [m ->].
    exists (x :: m); reflexivity.
Qed.

Lemma match_here_suffix p : forall s r,
  match_here p s = Some r -> exists m, s = m ++ r.
Proof.
  induction p as [|a p IH]; intros s r H; simpl in H.
  - inversion H; subst. exists []; reflexivity.
  - destruct a as [c|c|].
    + destruct s as [|x s]; [discriminate|].
      destruct (c x); [|discriminate].
      destruct (IH _ _ H) as [m ->]. exists (x :: m); reflexivity.
    + eapply many_loop_suffix; eauto.
    + destruct s; [|discriminate]. apply IH; assumption.
Qed.

Lemma firstn_consumed (m r : jsstring) :
  firstn (length (m ++ r) - length r) (m ++ r) = m.
Proof.
  rewrite length_app.
  replace (length m + length r - length r)%nat with (length m + 0)%nat by lia.
  rewrite firstn_app_2. simpl. apply app_nil_r.
Qed.

Lemma firstn_consumed_eq (s m r : jsstring) :
  s = m ++ r -> firstn (length s - length r) s = m.
Proof. intros ->. apply firstn_consumed. Qed.

Lemma exec_cons p x s :
  exec p (x :: s) =
  match match_here p (x :: s) with
  | Some r => Some ([], firstn (length (x :: s) - length r) (x :: s), r)
  | None =>
      match exec p s with
      | Some (b, m, a) => Some (x :: b, m, a)
      | None => None
      end
  end.
Proof. reflexivity. Qed.

Lemma exec_nil p :
  exec p [] =
  match match_here p [] with
  | Some r => Some ([], [], r)
  | None => None
  end.
Proof. simpl. destruct (match_here p []); reflexivity. Qed.

(** A successful [exec] splits the text. *)
Lemma exec_split p : forall s b m a,
  exec p s = Some (b, m, a) -> s = b ++ m ++ a.
Proof.
  induction s as [|x s IH]; intros b m a H.
  - rewrite exec_nil in H.
    destruct (match_here p []) as [r|] eqn:E; [|discriminate].
    injection H as <- <- <-. destruct (match_here_suffix _ _ _ E) as [m E'].
    destruct m; destruct r; try discriminate. reflexivity.
  - rewrite exec_cons in H.
    destruct (match_here p (x :: s)) as [r|] eqn:E.
    + destruct (match_here_suffix _ _ _ E) as [m' E'].
      rewrite (firstn_consumed_eq _ _ _ E') in H.
      injection H as <- <- <-. exact E'.
    + destruct (exec p s) as [[[b' m'] a']|] eqn:E'; [|discriminate].
      injection H as <- <- <-. rewrite (IH _ _ _ eq_refl). reflexivity.
Qed.

(** A match of a pattern that starts with one character starts with a
    character of that class. *)
Lemma exec_first_char f p : forall s b m a,
  exec (One f :: p) s = Some (b, m, a) ->
  exists x t, m = x :: t /\ f x = true.
Proof.
  induction s as [|x s IH]; intros b m a H.
  - simpl in H. discriminate.
  - rewrite exec_cons in H.
    destruct (match_here (One f :: p) (x :: s)) as [r|] eqn:E.
    + simpl in E.
      destruct (f x) eqn:Fx; [|discriminate].
      destruct (match_here_suffix _ _ _ E) as [m' E'].
      rewrite (firstn_consumed_eq (x :: s) (x :: m') r) in H
        by (rewrite E'; reflexivity).
      injection H as <- <- <-. eauto.
    + destruct (exec (One f :: p) s) as [[[b' m'] a']|] eqn:E'; [|discriminate].
      injection H as <- <- <-. eapply IH; eauto.
Qed.

Lemma only_true a x : only a x = true -> x = ch a.
Proof. unfold only. apply N.eqb_eq. Qed.

(** A replacement whose pattern starts with a comma keeps a first
    character that is not a comma. *)
Lemma replace_empty_head f p x t :
  f x = false ->
  exists t', replace_empty (x :: t) (One f :: p) = x :: t'.
Proof.
  intros Fx. unfold replace_empty. rewrite exec_cons. simpl match_here. rewrite Fx.
  destruct (exec (One f :: p) t) as [[[b m] a]|].
  - exists (b ++ a); reflexivity.
  - exists t; reflexivity.
Qed.

Lemma trim_tail_head x t :
  only "," x = false -> exists t', trim_tail (x :: t) = x :: t'.
Proof.
  intros Fx. unfold trim_tail, trim_patterns. cbn [fold_left].
  unfold re_trim_string, re_trim_pair_string, re_trim_pair_array, re_trim_key,
    re_trim_comma, re_trim_object.
  destruct (replace_empty_head (only ",") [Many re_space; One only_dquote; Many (non only_dquote); Eos] x t Fx) as [t1 ->].
  destruct (replace_empty_head (only ",") [Many re_space; One only_dquote; Many (non only_dquote);
   One only_dquote; One (only ":"); Many re_space; One only_dquote;
   Many (non only_dquote); Eos] x t1 Fx) as [t2 ->].
  destruct (replace_empty_head (only ",") [Many re_space; One only_dquote; Many (non only_dquote);
   One only_dquote; One (only ":"); Many re_space; One (only "[");
   Many (non (only "]")); Eos] x t2 Fx) as [t3 ->].
  destruct (replace_empty_head (only ",") [Many re_space; One only_dquote; Many (non only_dquote);
   One only_dquote; One (only ":"); Many re_space; Eos] x t3 Fx) as [t4 ->].
  destruct (replace_empty_head (only ",") [Many re_space; Eos] x t4 Fx) as [t5 ->].
  destruct (replace_empty_head (only ",") [Many re_space; One (only "{"); Many (non (only "}")); Eos] x t5 Fx) as [t6 ->].
  eauto.
Qed.

(** The repaired text starts with the opening bracket of the shape. *)
Lemma repaired_head text isArray jsonStr :
  repaired text isArray = Some jsonStr ->
  exists t, jsonStr = ch (if isArray then "[" else "{")%char :: t.
Proof.
  unfold repaired, str_match.
  destruct (exec _ text) as [[[b m] a]|] eqn:E; [|discriminate].
  intros H; inversion H; subst; clear H.
  assert (Hm : exists t, m = ch (if isArray then "[" else "{")%char :: t).
  { destruct isArray; unfold re_array_open, re_object_open in E;
      destruct (exec_first_char _ _ _ _ _ _ E) as (x & t & -> & Hx);
      apply only_true in Hx; subst; eauto. }
  destruct Hm as [t ->].
  destruct (trim_tail_head (ch (if isArray then "[" else "{")%char) t) as [t' Ht].
  { destruct isArray; reflexivity. }
  rewrite Ht. unfold close_open. simpl. eauto.
Qed.

(** *** [parseJSONSafely] as a cascade of the four strategies *)

Ltac cascade_tail :=
  simpl;
  repeat match goal with
  | |- context [match repaired ?t ?a with _ => _ end] =>
      destruct (repaired t a); simpl
  | |- context [match JSON_parse ?s with _ => _ end] =>
      destruct (JSON_parse s); simpl
  | |- context [if (0 <? ?i)%Z then _ else _] =>
      destruct (0 <? i)%Z; simpl
  | |- context [match collect_objects ?s with _ => _ end] =>
      destruct (collect_objects s); simpl
  end;
  try reflexivity.

Lemma parseJSONSafely_cascade text isArray :
  parseJSONSafely text isArray =
  Normal (first_some (direct_match text isArray)
                     (truncation_repair text isArray)
                     (last_complete_element text isArray)
                     (per_element_salvage text isArray)).
Proof.
  unfold parseJSONSafely, direct_match, truncation_repair,
    last_complete_element, per_element_salvage, first_some.
  destruct text as [|c t].
  - destruct isArray; reflexivity.
  - unfold direct_block, repair_handler, last_complete_block, salvage_block,
      parsed_or_none, try_catch, bind.
    destruct (str_match (c :: t) (if isArray then re_array else re_object)) as [m|].
    + destruct (JSON_parse m); [reflexivity|].
      destruct isArray; cascade_tail.
    + destruct isArray; cascade_tail.
Qed.


Lemma JSON_parse_shape (isArray : bool) t v :
  JSON_parse (ch (if isArray then "[" else "{")%char :: t) = Normal v ->
  has_shape isArray v.
Proof.
  destruct isArray; simpl.
  - apply JSON_parse_bracket_shape.
  - apply JSON_parse_brace_shape.
Qed.

Lemma parsed_or_none_shape (isArray : bool) t v :
  parsed_or_none (JSON_parse (ch (if isArray then "[" else "{")%char :: t)) = Some v ->
  has_shape isArray v.
Proof.
  destruct (JSON_parse _) as [v'|] eqn:E; simpl; [|discriminate].
  intros H; injection H as <-. eapply JSON_parse_shape; eauto.
Qed.

Lemma direct_match_shape text isArray v :
  direct_match text isArray = Some v -> has_shape isArray v.
Proof.
  unfold direct_match, str_match.
  destruct (exec _ text) as [[[b m] a]|] eqn:E; [|discriminate].
  assert (Hm : exists t, m = ch (if isArray then "[" else "{")%char :: t).
  { destruct isArray; unfold re_array, re_object in E;
      destruct (exec_first_char _ _ _ _ _ _ E) as (x & t & -> & Hx);
      apply only_true in Hx; subst; eauto. }
  destruct Hm as [t ->]. apply parsed_or_none_shape.
Qed.

Lemma truncation_repair_shape text isArray v :
  truncation_repair text isArray = Some v -> has_shape isArray v.
Proof.
  unfold truncation_repair.
  destruct (repaired text isArray) as [jsonStr|] eqn:E; [|discriminate].
  destruct (repaired_head _ _ _ E) as [t ->]. apply parsed_or_none_shape.
Qed.

Lemma last_complete_element_shape text isArray v :
  last_complete_element text isArray = Some v -> has_shape isArray v.
Proof.
  unfold last_complete_element.
  destruct (repaired text isArray) as [jsonStr|] eqn:E; [|discriminate].
  destruct (repaired_head _ _ _ E) as [t ->].
  destruct isArray; cbn [andb]; [|discriminate].
  remember (lastIndexOf (ch "[" :: t) (lit "},")) as idx.
  destruct (0 <? idx)%Z eqn:Hidx; [|discriminate].
  apply Z.ltb_lt in Hidx.
  unfold substring. rewrite Nat.sub_0_r.
  destruct (Z.to_nat (idx + 1)) as [|n] eqn:En; [lia|].
  simpl skipn. simpl firstn. simpl app.
  apply (parsed_or_none_shape true).
Qed.

Lemma per_element_salvage_shape text isArray v :
  per_element_salvage text isArray = Some v -> has_shape isArray v.
Proof.
  unfold per_element_salvage.
  destruct (repaired text isArray); [|discriminate].
  destruct isArray; [|discriminate].
  destruct (collect_objects _); [discriminate|].
  intros H; injection H as <-. simpl. eauto.
Qed.

(** What [parseJSONSafely] returns is [null] or of the requested shape. *)
Lemma parseJSONSafely_shape text isArray v :
  parseJSONSafely text isArray = Normal v -> v = JNull \/ has_shape isArray v.
Proof.
  rewrite parseJSONSafely_cascade. intros H; injection H as <-.
  unfold first_some.
  destruct (direct_match text isArray) eqn:E1;
    [right; eapply direct_match_shape; eauto|].
  destruct (truncation_repair text isArray) eqn:E2;
    [right; eapply truncation_repair_shape; eauto|].
  destruct (last_complete_element text isArray) eqn:E3;
    [right; eapply last_complete_element_shape; eauto|].
  destruct (per_element_salvage text isArray) eqn:E4;
    [right; eapply per_element_salvage_shape; eauto|].
  left; reflexivity.
Qed.

Lemma parseJSONSafely_array_shape text v :
  parseJSONSafely text true = Normal v -> v = JNull \/ exists l, v = JArray l.
Proof. apply parseJSONSafely_shape. Qed.


(** *** The direct match: from the first opening bracket to the last
    closing bracket *)

Lemma many_loop_cons c k x s :
  many_loop c k (x :: s) =
  if c x then
    match many_loop c k s with
    | Some r => Some r
    | None => k (x :: s)
    end
  else k (x :: s).
Proof. reflexivity. Qed.

Lemma match_one f x s :
  match_here [One f] (x :: s) = if f x then Some s else None.
Proof. reflexivity. Qed.

Lemma many_any_none b : forall post,
  forallb (non (only b)) post = true ->
  many_loop any (match_here [One (only b)]) post = None.
Proof.
  induction post as [|x post IH]; intros H.
  - reflexivity.
  - cbn [forallb] in H. apply andb_prop in H. destruct H as [Hx Hp].
    rewrite many_loop_cons, (IH Hp), match_one. unfold non in Hx.
    destruct (only b x); [discriminate|reflexivity].
Qed.

Lemma many_any_last b post :
  forallb (non (only b)) post = true ->
  forall mid,
  many_loop any (match_here [One (only b)]) (mid ++ ch b :: post) = Some post.
Proof.
  intros Hp. induction mid as [|x mid IH].
  - cbn [app]. rewrite many_loop_cons, (many_any_none b post Hp), match_one.
    unfold only. rewrite N.eqb_refl. reflexivity.
  - cbn [app]. rewrite many_loop_cons, IH. reflexivity.
Qed.

Lemma exec_bracketed a b post mid :
  forallb (non (only b)) post = true ->
  forall pre,
  forallb (non (only a)) pre = true ->
  exec [One (only a); Many any; One (only b)] (pre ++ ch a :: mid ++ ch b :: post)
  = Some (pre, ch a :: mid ++ [ch b], post).
Proof.
  intros Hpost. induction pre as [|x pre IH]; intros Hpre.
  - cbn [app]. rewrite exec_cons.
    assert (E : match_here [One (only a); Many any; One (only b)]
                  (ch a :: mid ++ ch b :: post) = Some post).
    { cbn [match_here]. unfold only at 1. rewrite N.eqb_refl.
      apply many_any_last; assumption. }
    rewrite E.
    rewrite (firstn_consumed_eq _ (ch a :: mid ++ [ch b]) post).
    + reflexivity.
    + cbn [app]. rewrite <- app_assoc. reflexivity.
  - cbn [forallb] in Hpre. apply andb_prop in Hpre. destruct Hpre as [Hx Hp].
    cbn [app]. rewrite exec_cons. cbn [match_here].
    unfold non in Hx. destruct (only a x); [discriminate|].
    rewrite (IH Hp). reflexivity.
Qed.

(** C4, as stated, fails: the JSON array [[1,2]] embedded after prose that
    itself contains brackets is not recovered ([null] is returned), although
    the embedded text parses. *)
Lemma C4_prose_with_brackets_defeats_extraction :
  JSON_parse (js "[1,2]") = Normal (JArray [JNumber (lit "1"); JNumber (lit "2")])
  /\ parseJSONSafely (js "[note] [1,2]") true = Normal JNull.
Proof. split; vm_compute; reflexivity. Qed.

(** C4, amended: a text that starts with the opening bracket of the shape,
    ends with its closing bracket and parses, embedded in prose that has no
    opening bracket of that kind before it and no closing bracket of that
    kind after it, is extracted to the value that parsing it gives. *)
Theorem C4_embedded_json_round_trip :
  forall (isArray : bool) (pre mid post : jsstring) (v : json),
  forallb (non (only (opener isArray))) pre = true ->
  forallb (non (only (closer isArray))) post = true ->
  JSON_parse (ch (opener isArray) :: mid ++ [ch (closer isArray)]) = Normal v ->
  parseJSONSafely (pre ++ (ch (opener isArray) :: mid ++ [ch (closer isArray)]) ++ post)
                  isArray
  = Normal v.
Proof.
  intros isArray pre mid post v Hpre Hpost Hv.
  rewrite parseJSONSafely_cascade.
  assert (D : direct_match
                (pre ++ (ch (opener isArray) :: mid ++ [ch (closer isArray)]) ++ post)
                isArray = Some v).
  { unfold direct_match, str_match.
    replace ((ch (opener isArray) :: mid ++ [ch (closer isArray)]) ++ post)
      with (ch (opener isArray) :: mid ++ ch (closer isArray) :: post)
      by (cbn [app]; rewrite <- app_assoc; reflexivity).
    replace (if isArray then re_array else re_object)
      with [One (only (opener isArray)); Many any; One (only (closer isArray))]
      by (destruct isArray; reflexivity).
    rewrite (exec_bracketed _ _ post mid Hpost pre Hpre).
    rewrite Hv. reflexivity. }
  rewrite D. reflexivity.
Qed.

(** A witness of C4: a hypothesis array between two sentences. *)
Lemma C4_embedded_json_round_trip_witness :
  parseJSONSafely
    (js "Here is the result: " ++
     (ch "[" :: js "{'rank':1,'title':'A'}" ++ [ch "]"]) ++
     js " Hope this helps.")
    true
  = Normal (JArray
      [JObject [(lit "rank", JNumber (lit "1")); (lit "title", JString (lit "A"))]]).
Proof.
  apply (C4_embedded_json_round_trip true
           (js "Here is the result: ") (js "{'rank':1,'title':'A'}")
           (js " Hope this helps.")).
  - vm_compute; reflexivity.
  - vm_compute; reflexivity.
  - vm_compute; reflexivity.
Defined.

(* ================================================================== *)
(** * Properties of the summarizer *)
(* ================================================================== *)

Lemma Qltb_lt x y : Qltb x y = true <-> (x < y)%Q.
Proof.
  unfold Qltb. rewrite negb_true_iff. split.
  - intros H. apply Qnot_le_lt. intros L. apply Qle_bool_iff in L. congruence.
  - intros H. destruct (Qle_bool y x) eqn:E; [|reflexivity].
    apply Qle_bool_iff in E. apply Qlt_not_le in H. contradiction.
Qed.

Lemma Qltb_ge x y : Qltb x y = false <-> (y <= x)%Q.
Proof.
  unfold Qltb. rewrite negb_false_iff. apply Qle_bool_iff.
Qed.

Section SummaryProperties.

Variable StringToNumber : jsstring -> number.

Local Abbreviation ToNumber := (ToNumber StringToNumber).
Local Abbreviation is_significant := (is_significant StringToNumber).
Local Abbreviation context_filter := (context_filter StringToNumber).
Local Abbreviation summarizeData := (summarizeData StringToNumber).
Local Abbreviation gt := (gt StringToNumber).
Local Abbreviation lt := (lt StringToNumber).
Local Abbreviation rank_key := (rank_key StringToNumber).
Local Abbreviation non_increasing := (non_increasing StringToNumber).
Local Abbreviation non_decreasing := (non_decreasing StringToNumber).



(** A significant row has a fold change whose absolute value exceeds 0.5. *)
Lemma significant_key cols r :
  is_significant cols r = true ->
  num_gtb (num_abs (rank_key cols r)) num_0_5 = true.
Proof.
  unfold is_significant, rank_key, fc_of, Math_abs. intros H.
  apply andb_prop in H. destruct H as [H _].
  unfold or_else in H.
  destruct (truthy (get_prop r (key_of (foldChange cols)))); [exact H|].
  vm_compute in H. discriminate.
Qed.

(** A number beyond 0.5 in absolute value is positive or negative, not both. *)
Lemma beyond_half_sign n :
  num_gtb (num_abs n) num_0_5 = true ->
  xorb (num_gtb n num_0) (num_ltb n num_0) = true.
Proof.
  destruct n as [| | |q]; simpl; try discriminate; try reflexivity.
  unfold num_gtb, num_0_5, num_0. simpl. intros H.
  apply Qltb_lt in H.
  destruct (Qlt_le_dec 0 q) as [Hp|Hn].
  - assert (E1 : Qltb 0 q = true) by (apply Qltb_lt; assumption).
    assert (E2 : Qltb q 0 = false) by (apply Qltb_ge; lra).
    rewrite E1, E2. reflexivity.
  - rewrite Qabs_neg in H by assumption.
    assert (E1 : Qltb 0 q = false) by (apply Qltb_ge; assumption).
    assert (E2 : Qltb q 0 = true) by (apply Qltb_lt; lra).
    rewrite E1, E2. reflexivity.
Qed.

Lemma filter_partition {A} (f g : A -> bool) : forall l,
  Forall (fun x => xorb (f x) (g x) = true) l ->
  (length (filter f l) + length (filter g l) = length l)%nat.
Proof.
  induction l as [|x l IH]; intros H; [reflexivity|].
  inversion H as [|? ? Hx Hl]; subst. specialize (IH Hl). simpl.
  destruct (f x), (g x); simpl in *; try discriminate; lia.
Qed.

Lemma filter_length_le {A} (f : A -> bool) l :
  (length (filter f l) <= length l)%nat.
Proof.
  induction l as [|x l IH]; simpl; [lia|]. destruct (f x); simpl; lia.
Qed.

(** *** The order of numbers *)

Lemma num_sub_gt a b :
  is_nan a = false -> is_nan b = false ->
  num_gtb (num_sub b a) num_0 = true -> num_leb a b = true.
Proof.
  destruct a as [| | |x], b as [| | |y]; simpl; try discriminate; try reflexivity.
  unfold num_gtb, num_leb, num_0; simpl. intros _ _ H.
  apply Qltb_lt in H. rewrite negb_true_iff. apply Qltb_ge. lra.
Qed.

Lemma num_sub_not_gt a b :
  is_nan a = false -> is_nan b = false ->
  num_gtb (num_sub b a) num_0 = false -> num_leb b a = true.
Proof.
  destruct a as [| | |x], b as [| | |y]; simpl; try discriminate; try reflexivity.
  unfold num_gtb, num_leb, num_0; simpl. intros _ _ H.
  apply Qltb_ge in H. rewrite negb_true_iff. apply Qltb_ge. lra.
Qed.

Lemma num_leb_trans a b c :
  num_leb a b = true -> num_leb b c = true -> num_leb a c = true.
Proof.
  destruct a as [| | |x], b as [| | |y], c as [| | |z]; simpl;
    try discriminate; try reflexivity.
  unfold num_leb; simpl. rewrite !negb_true_iff. intros H1 H2.
  apply Qltb_ge in H1, H2. apply Qltb_ge. lra.
Qed.

Lemma positive_not_nan n : num_gtb n num_0 = true -> is_nan n = false.
Proof. destruct n; simpl; try discriminate; reflexivity. Qed.

Lemma negative_not_nan n : num_ltb n num_0 = true -> is_nan n = false.
Proof. destruct n; simpl; try discriminate; reflexivity. Qed.

(** *** The stable insertion sort *)

Section Sorting.

Context {A : Type}.
Variable comparefn : A -> A -> number.
Variable ord : A -> A -> Prop.
Variable dom : A -> Prop.

Hypothesis ord_trans : forall a b c, ord a b -> ord b c -> ord a c.
Hypothesis compare_gt :
  forall a b, dom a -> dom b -> num_gtb (comparefn a b) num_0 = true -> ord b a.
Hypothesis compare_not_gt :
  forall a b, dom a -> dom b -> num_gtb (comparefn a b) num_0 = false -> ord a b.

Lemma insert_sorted_In x : forall l y,
  In y (insert_sorted comparefn x l) -> y = x \/ In y l.
Proof.
  induction l as [|z l IH]; intros y H; cbn [insert_sorted] in H.
  - destruct H as [<-|[]]; auto.
  - destruct (num_gtb (comparefn x z) num_0); simpl in H.
    + destruct H as [<-|H]; [right; left; reflexivity|].
      destruct (IH _ H); [auto|right; right; assumption].
    + destruct H as [<-|H]; auto.
Qed.

Lemma insert_sorted_dom x l :
  dom x -> Forall dom l -> Forall dom (insert_sorted comparefn x l).
Proof.
  intros Hx Hl. apply Forall_forall. intros y Hy.
  destruct (insert_sorted_In _ _ _ Hy) as [->|H]; [assumption|].
  rewrite Forall_forall in Hl. auto.
Qed.

Lemma insert_sorted_sorted x : forall l,
  dom x -> Forall dom l -> StronglySorted ord l ->
  StronglySorted ord (insert_sorted comparefn x l).
Proof.
  induction l as [|z l IH]; intros Hx Hl Hs; cbn [insert_sorted].
  - constructor; constructor.
  - inversion Hl as [|? ? Hz Hl']; subst.
    inversion Hs as [|? ? Hs' Hzl]; subst.
    destruct (num_gtb (comparefn x z) num_0) eqn:E.
    + constructor; [apply IH; assumption|].
      apply Forall_forall. intros y Hy.
      destruct (insert_sorted_In _ _ _ Hy) as [->|H].
      * apply compare_gt; assumption.
      * rewrite Forall_forall in Hzl. auto.
    + constructor; [assumption|].
      assert (Hxz : ord x z) by (apply compare_not_gt; assumption).
      constructor; [assumption|].
      rewrite Forall_forall in Hzl. apply Forall_forall. intros y Hy.
      eapply ord_trans; eauto.
Qed.

Lemma sort_sorted : forall l,
  Forall dom l ->
  StronglySorted ord (sort comparefn l) /\ Forall dom (sort comparefn l).
Proof.
  induction l as [|x l IH]; intros H; simpl.
  - split; constructor.
  - inversion H as [|? ? Hx Hl]; subst. destruct (IH Hl) as [Hs Hd].
    split.
    + apply insert_sorted_sorted; assumption.
    + apply insert_sorted_dom; assumption.
Qed.

Lemma firstn_In n (l : list A) y : In y (firstn n l) -> In y l.
Proof.
  intros H. rewrite <- (firstn_skipn n l). apply in_or_app. left; assumption.
Qed.

Lemma firstn_sorted n : forall l,
  StronglySorted ord l -> StronglySorted ord (firstn n l).
Proof.
  induction n as [|n IH]; intros l H; simpl.
  - constructor.
  - destruct l as [|x l]; [constructor|].
    inversion H as [|? ? Hs Hx]; subst. constructor; [auto|].
    apply Forall_forall. intros y Hy. rewrite Forall_forall in Hx.
    apply Hx. eapply firstn_In; eauto.
Qed.

End Sorting.

(** *** The summary *)

Lemma sort_descending cols l :
  Forall (fun r => is_nan (rank_key cols r) = false) l ->
  non_increasing cols (sort (descending StringToNumber cols) l).
Proof.
  intros H. unfold non_increasing.
  apply (sort_sorted (descending StringToNumber cols) _
           (fun r => is_nan (rank_key cols r) = false)); [| | |exact H].
  - intros a b c Hab Hbc. eapply num_leb_trans; eauto.
  - intros a b Ha Hb Hgt. apply num_sub_gt; assumption.
  - intros a b Ha Hb Hgt. apply num_sub_not_gt; assumption.
Qed.

Lemma sort_ascending cols l :
  Forall (fun r => is_nan (rank_key cols r) = false) l ->
  non_decreasing cols (sort (ascending StringToNumber cols) l).
Proof.
  intros H. unfold non_decreasing.
  apply (sort_sorted (ascending StringToNumber cols) _
           (fun r => is_nan (rank_key cols r) = false)); [| | |exact H].
  - intros a b c Hab Hbc. eapply num_leb_trans; eauto.
  - intros a b Ha Hb Hgt. apply num_sub_gt; assumption.
  - intros a b Ha Hb Hgt. apply num_sub_not_gt; assumption.
Qed.

(** C7: for every non-empty row set and every column assignment the
    summary exists; its increased and decreased counts add up to the
    significant count, which is at most the total; [topIncreased] is sorted
    non-increasing and [topDecreased] non-decreasing by effect size, and
    each holds at most 10 rows. *)
Theorem C7_summary_invariants :
  forall (data : list row) (cols : columns),
  data <> [] ->
  exists s, summarizeData data cols = Some s /\
    (increased s + decreased s = significant s)%nat /\
    (significant s <= total s)%nat /\
    non_increasing cols (topIncreased s) /\
    non_decreasing cols (topDecreased s) /\
    (length (topIncreased s) <= 10)%nat /\
    (length (topDecreased s) <= 10)%nat.
Proof.
  intros data cols Hne. destruct data as [|r0 data]; [congruence|].
  unfold summarizeData. eexists; split; [reflexivity|].
  cbn [increased decreased significant total topIncreased topDecreased].
  set (sig := filter (is_significant cols) (r0 :: data)).
  repeat split.
  - apply filter_partition. apply Forall_forall. intros r Hr.
    apply filter_In in Hr. destruct Hr as [_ Hr].
    apply significant_key, beyond_half_sign in Hr. exact Hr.
  - apply filter_length_le.
  - apply firstn_sorted. apply sort_descending.
    apply Forall_forall. intros r Hr. apply filter_In in Hr.
    destruct Hr as [_ Hr]. apply positive_not_nan. exact Hr.
  - apply firstn_sorted. apply sort_ascending.
    apply Forall_forall. intros r Hr. apply filter_In in Hr.
    destruct Hr as [_ Hr]. apply negative_not_nan. exact Hr.
  - apply firstn_le_length.
  - apply firstn_le_length.
Qed.

(** *** The significance predicate *)

(** Scenario A of the specification. *)
Example scenario_A_summary :
  summarizeData [example_row "Glucose" (-15 # 10) (1 # 1000);
                 example_row "Lactate" (23 # 10) (1 # 10000)] example_columns
  = Some (mkSummary 2 2 1 1
            [example_row "Lactate" (23 # 10) (1 # 10000)]
            [example_row "Glucose" (-15 # 10) (1 # 1000)]
            example_columns).
Proof. vm_compute. reflexivity. Qed.

(** The comparisons are strict: an effect size of exactly 0.5 (or -0.5), or a
    significance of exactly 0.05, does not make a row significant. *)
Lemma boundary_not_significant cols r :
  (get_prop r (key_of (foldChange cols)) = VNumber num_0_5 \/
   get_prop r (key_of (foldChange cols)) = VNumber (Fin (- (1 # 2))) \/
   get_prop r (key_of (pValue cols)) = VNumber num_0_05) ->
  is_significant cols r = false.
Proof.
  unfold is_significant. intros [H|[H|H]]; rewrite H.
  - reflexivity.
  - reflexivity.
  - apply andb_false_iff. right. reflexivity.
Qed.

(** Where no present cell is coalesced (the significance is not a zero, and
    no cell is the empty string), the filter of [summarizeData] is the
    predicate of the specification. *)
Lemma is_significant_spec cols r :
  (forall q, get_prop r (key_of (pValue cols)) = VNumber (Fin q) -> ~ (q == 0)%Q) ->
  get_prop r (key_of (pValue cols)) <> VString [] ->
  get_prop r (key_of (foldChange cols)) <> VString [] ->
  is_significant cols r = spec_significant StringToNumber cols r.
Proof.
  unfold is_significant, spec_significant, Math_abs, lt.
  intros Hp Hps Hfs. f_equal.
  - destruct (get_prop r (key_of (foldChange cols))) as [|[| | |q]|[|c s]];
      try reflexivity; try congruence.
    unfold or_else, truthy. destruct (Qeq_bool q 0) eqn:E; [|reflexivity].
    apply Qeq_bool_iff in E. simpl.
    unfold num_gtb, num_0_5, num_0, num_ltb, num_abs.
    transitivity false; [reflexivity|].
    symmetry. apply Qltb_ge. rewrite E. vm_compute. discriminate.
  - destruct (get_prop r (key_of (pValue cols))) as [|[| | |q]|[|c s]] eqn:C;
      try reflexivity; try congruence.
    unfold or_else, truthy. destruct (Qeq_bool q 0) eqn:E; [|reflexivity].
    apply Qeq_bool_iff in E. exfalso. apply (Hp q); auto.
Qed.

(** C6 fails on a row whose significance is exactly 0: the row satisfies
    the predicate of the specification ([abs(2) > 0.5] and [0 < 0.05], both
    cells present), and [summarizeData] does not count it. *)
Theorem C6_zero_significance_is_not_counted :
  spec_significant StringToNumber example_columns (example_row "Citrate" 2 0) = true /\
  is_significant example_columns (example_row "Citrate" 2 0) = false /\
  summarizeData [example_row "Citrate" 2 0] example_columns
  = Some (mkSummary 1 0 0 0 [] [] example_columns).
Proof. repeat split; vm_compute; reflexivity. Qed.


End SummaryProperties.

(** A witness of C7: the rows of Scenario A. *)
Lemma C7_summary_invariants_witness :
  exists s,
    summarizeData text_is_not_a_number
      [example_row "Glucose" (-15 # 10) (1 # 1000);
       example_row "Lactate" (23 # 10) (1 # 10000)] example_columns = Some s /\
    (increased s + decreased s = significant s)%nat /\
    (significant s <= total s)%nat /\
    non_increasing text_is_not_a_number example_columns (topIncreased s) /\
    non_decreasing text_is_not_a_number example_columns (topDecreased s) /\
    (length (topIncreased s) <= 10)%nat /\
    (length (topDecreased s) <= 10)%nat.
Proof.
  apply (C7_summary_invariants text_is_not_a_number
           [example_row "Glucose" (-15 # 10) (1 # 1000);
            example_row "Lactate" (23 # 10) (1 # 10000)] example_columns).
  discriminate.
Defined.


(* ================================================================== *)
(** * Properties of the table parser *)
(* ================================================================== *)

Lemma split_not_nil sep s : split sep s <> [].
Proof.
  destruct s as [|c s]; simpl; [discriminate|].
  destruct (c =? sep); [discriminate|].
  destruct (split sep s); discriminate.
Qed.

(** C8, as stated, fails: on the empty text [parseCSV] does not fail; it
    returns one header, the empty string, and no rows. *)
Lemma C8_empty_text_is_parsed :
  parseCSV text_is_not_a_number text_is_not_a_number []
  = Normal ([[]], []).
Proof. reflexivity. Qed.

(** C8, amended: [parseCSV] has no failing path.  For every text, and
    whatever the numeric conversions of the host, it returns headers and
    rows; there is at least one header, and one row for each line after the
    first of the trimmed text.  On the empty text the result is the single
    empty header and no rows. *)
Theorem C8_parseCSV_never_fails :
  forall (StringToNumber parseFloat : jsstring -> number) (text : jsstring),
  exists header headers data,
    parseCSV StringToNumber parseFloat text = Normal (header :: headers, data) /\
    S (length data) = length (split 10 (trim text)) /\
    (text = [] -> header = [] /\ headers = [] /\ data = []).
Proof.
  intros S2N pF text. unfold parseCSV.
  destruct (split 10 (trim text)) as [|line0 rest] eqn:E.
  - exfalso. exact (split_not_nil _ _ E).
  - unfold parse_cells at 1.
    destruct (split (ch ",") line0) as [|cell cells] eqn:E0.
    + exfalso. exact (split_not_nil _ _ E0).
    + cbn [map]. do 3 eexists. split; [reflexivity|]. split.
      * cbn [length]. rewrite length_map. reflexivity.
      * intros ->. cbv in E. injection E as <- <-.
        cbv in E0. injection E0 as <- <-. repeat split; reflexivity.
Qed.

(* ================================================================== *)
(** * Properties of the workflows *)
(* ================================================================== *)

(** C9, as stated, fails for hypothesis generation: an invocation that
    ends in an error (here: no credential) leaves the hypotheses slot empty,
    not as it was. *)
Lemma C9_failed_generation_discards_hypotheses :
  hypotheses_try (Normal []) (Normal []) (hypotheses_begin state_with_results)
  = Throw (Error (lit "Please enter your Anthropic API key"))
  /\ hypotheses state_with_results = JArray [JObject [(lit "rank", JNumber (lit "1"))]]
  /\ hypotheses (generateHypotheses (Normal []) (Normal []) state_with_results) = JNull.
Proof. repeat split; reflexivity. Qed.

Lemma setLoading_slots f s : slots (setLoading f s) = slots s.
Proof. reflexivity. Qed.

Lemma setError_slots e s : slots (setError e s) = slots s.
Proof. reflexivity. Qed.

(** C9, amended.  Whatever the outcome of building the prompt and of the
    request: an invocation of experimental design or of literature analysis
    whose [try] block ends in an error leaves the three result slots as they
    were; an invocation of hypothesis generation (with a type selected)
    whose [try] block ends in an error leaves the hypotheses slot empty,
    because the slot is reset when the invocation starts, and leaves the
    other two slots as they were.  In each case the error is what is
    recorded. *)
Theorem C9_failed_workflow_stores_no_result :
  forall (s : app_state) (built http : completion jsstring)
         (title : option json) (e : error),
  (experimental_try built http title (experimental_begin s) = Throw e ->
     slots (generateExperimentalDesign built http title s) = slots s /\
     error_message (generateExperimentalDesign built http title s) = Some e)
  /\
  (literature_try built http (literature_begin s) = Throw e ->
     slots (generateLiteratureAnalysis built http s) = slots s /\
     error_message (generateLiteratureAnalysis built http s) = Some e)
  /\
  (selectedType s <> None ->
   hypotheses_try built http (hypotheses_begin s) = Throw e ->
     slots (generateHypotheses built http s)
     = (JNull, experimentalDesign s, literatureAnalysis s) /\
     error_message (generateHypotheses built http s) = Some e).
Proof.
  intros s built http title e. split; [|split].
  - intros Hthrow. unfold generateExperimentalDesign. rewrite Hthrow.
    split; reflexivity.
  - intros Hthrow. unfold generateLiteratureAnalysis. rewrite Hthrow.
    split; reflexivity.
  - intros Hsel Hthrow. unfold generateHypotheses.
    destruct (selectedType s); [|congruence]. rewrite Hthrow.
    split; reflexivity.
Qed.

(** A witness of C9: the three workflows started without a credential. *)
Lemma C9_failed_workflow_stores_no_result_witness :
  slots (generateExperimentalDesign (Normal []) (Normal []) None state_with_results)
  = slots state_with_results
  /\ slots (generateLiteratureAnalysis (Normal []) (Normal []) state_with_results)
     = slots state_with_results
  /\ slots (generateHypotheses (Normal []) (Normal []) state_with_results)
     = (JNull, experimentalDesign state_with_results,
        literatureAnalysis state_with_results).
Proof.
  destruct (C9_failed_workflow_stores_no_result state_with_results
              (Normal []) (Normal []) None
              (Error (lit "Please enter your Anthropic API key")))
    as (Hexp & Hlit & Hhyp).
  split; [|split].
  - apply Hexp. reflexivity.
  - apply Hlit. reflexivity.
  - apply Hhyp; [discriminate|reflexivity].
Defined.

(* ================================================================== *)
(** * The parser and the bracket counter on well formed texts *)
(* ================================================================== *)

(** Characters as numbers, boolean tests as propositions. *)
Ltac norm_ch :=
  unfold only, only_dquote, non, dquote, apostrophe in *;
  repeat match goal with
  | |- context [ch ?a] =>
      let v := eval vm_compute in (ch a) in change (ch a) with v
  | H : context [ch ?a] |- _ =>
      let v := eval vm_compute in (ch a) in change (ch a) with v in H
  end.

Ltac bool_to_prop :=
  repeat (rewrite ?orb_true_iff, ?andb_true_iff, ?negb_true_iff,
            ?orb_false_iff, ?andb_false_iff, ?negb_false_iff,
            ?N.eqb_eq, ?N.eqb_neq, ?N.leb_le, ?N.leb_gt, ?N.ltb_lt, ?N.ltb_ge in * ).

Ltac char_solve := norm_ch; bool_to_prop; lia.

Lemma count_step_plain st c :
  escape st = false -> special c = false -> count_step st c = st.
Proof.
  unfold count_step, special. intros He Hs. rewrite He.
  repeat (apply orb_false_iff in Hs; destruct Hs as [Hs ?]).
  repeat match goal with H : (_ =? _) = false |- _ => rewrite H; clear H end.
  destruct st; destruct (negb _); reflexivity.
Qed.

Lemma count_from_plain : forall s st,
  escape st = false -> forallb (non special) s = true -> count_from st s = st.
Proof.
  unfold count_from.
  induction s as [|c s IH]; intros st He Hs; [reflexivity|].
  cbn [forallb] in Hs. apply andb_prop in Hs. destruct Hs as [Hc Hs].
  cbn [fold_left]. rewrite count_step_plain; auto.
  unfold non in Hc. apply negb_true_iff. assumption.
Qed.

Lemma count_from_app st a b :
  count_from st (a ++ b) = count_from (count_from st a) b.
Proof. unfold count_from. apply fold_left_app. Qed.

Lemma count_from_cons st c s :
  count_from st (c :: s) = count_from (count_step st c) s.
Proof. reflexivity. Qed.

Lemma forallb_weaken (f g : cset) s :
  (forall c, f c = true -> g c = true) ->
  forallb f s = true -> forallb g s = true.
Proof.
  intros Hfg. induction s as [|c s IH]; [reflexivity|].
  cbn [forallb]. intros H. apply andb_prop in H. destruct H as [Hc Hs].
  rewrite (Hfg _ Hc), (IH Hs). reflexivity.
Qed.

(** *** White space *)

Lemma ws_not_special c : json_ws c = true -> non special c = true.
Proof.
  unfold json_ws, non, special. intros H. norm_ch.
  repeat (apply orb_true_iff in H; destruct H as [H|H]);
    apply N.eqb_eq in H; subst; reflexivity.
Qed.

Lemma skip_ws_split : forall s,
  exists w, s = w ++ skip_ws s /\ forallb json_ws w = true.
Proof.
  induction s as [|c s IH].
  - exists []; split; reflexivity.
  - simpl. destruct (json_ws c) eqn:E.
    + destruct IH as (w & Hw & Hf). exists (c :: w). split.
      * simpl. rewrite <- Hw. reflexivity.
      * simpl. rewrite E, Hf. reflexivity.
    + exists []; split; reflexivity.
Qed.

Lemma skip_ws_app_ws : forall w s,
  forallb json_ws w = true -> skip_ws (w ++ s) = skip_ws s.
Proof.
  induction w as [|c w IH]; intros s H; [reflexivity|].
  cbn [forallb] in H. apply andb_prop in H. destruct H as [Hc Hw].
  simpl. rewrite Hc. apply IH; assumption.
Qed.

Lemma skip_ws_head s c r : skip_ws s = c :: r -> json_ws c = false.
Proof.
  induction s as [|x s IH]; simpl; [discriminate|].
  destruct (json_ws x) eqn:E; [assumption|].
  intros H; injection H as <- <-. assumption.
Qed.

Lemma skip_ws_stop c s : json_ws c = false -> skip_ws (c :: s) = c :: s.
Proof. intros H. simpl. rewrite H. reflexivity. Qed.


Lemma skip_ws_idem s : skip_ws (skip_ws s) = skip_ws s.
Proof.
  destruct (skip_ws s) as [|c r] eqn:E; [reflexivity|].
  apply skip_ws_stop. eapply skip_ws_head; eauto.
Qed.

(** White space before other text: [skip_ws] stops at the same place. *)
Lemma skip_ws_app s t c r :
  skip_ws s = c :: r -> skip_ws (s ++ t) = c :: r ++ t.
Proof.
  intros H. destruct (skip_ws_split s) as (w & Hs & Hw).
  rewrite H in Hs. rewrite Hs at 1. rewrite <- app_assoc.
  rewrite skip_ws_app_ws by assumption.
  cbn [app]. apply skip_ws_stop. eapply skip_ws_head; eauto.
Qed.

Lemma count_from_ws st w :
  escape st = false -> forallb json_ws w = true -> count_from st w = st.
Proof.
  intros He Hw. apply count_from_plain; [assumption|].
  eapply forallb_weaken; [|exact Hw]. apply ws_not_special.
Qed.

(** *** String literals *)

Lemma parse_string_cons c r acc :
  parse_string (c :: r) acc =
  if c =? dquote then Some (rev acc, r)
  else if c =? ch "\" then
    match r with
    | [] => None
    | e :: r1 =>
        if e =? ch "u" then
          match r1 with
          | h1 :: h2 :: h3 :: h4 :: r2 =>
              match hex_value h1, hex_value h2, hex_value h3, hex_value h4 with
              | Some a, Some b, Some c', Some d =>
                  parse_string r2 ((((a * 16 + b) * 16 + c') * 16 + d) :: acc)
              | _, _, _, _ => None
              end
          | _ => None
          end
        else
          match unescape e with
          | Some x => parse_string r1 (x :: acc)
          | None => None
          end
    end
  else if c <? 32 then None
  else parse_string r (c :: acc).
Proof. destruct r as [|e [|h1 [|h2 [|h3 [|h4 r2]]]]]; reflexivity. Qed.

Lemma hex_not_special h x : hex_value h = Some x -> special h = false.
Proof.
  unfold hex_value, special.
  destruct ((48 <=? h) && (h <=? 57)) eqn:E1;
    [|destruct ((65 <=? h) && (h <=? 70)) eqn:E2;
      [|destruct ((97 <=? h) && (h <=? 102)) eqn:E3; [|discriminate]]];
    intros _; char_solve.
Qed.

Lemma count_step_escaped i b k c :
  count_step (mkCounter i true b k) c = mkCounter i false b k.
Proof. reflexivity. Qed.

Lemma count_step_backslash i b k :
  count_step (mkCounter i false b k) (ch "\") = mkCounter i true b k.
Proof. reflexivity. Qed.

Lemma count_step_in_string b k c :
  (c =? ch "\") = false -> (c =? dquote) = false ->
  count_step (in_string b k) c = in_string b k.
Proof.
  intros Hb Hq. unfold count_step, in_string.
  cbn [escape inString brackets braces]. rewrite Hb, Hq. reflexivity.
Qed.

Lemma count_step_quote i b k :
  count_step (mkCounter i false b k) dquote = mkCounter (negb i) false b k.
Proof. reflexivity. Qed.

(** A string literal parsed from its opening quote on: the counter leaves
    the string at its closing quote, and the result does not depend on what
    follows the literal. *)
Lemma parse_string_spec : forall n s,
  (length s <= n)%nat ->
  forall acc str r,
  parse_string s acc = Some (str, r) ->
  exists c, s = c ++ r /\
    (forall b k, count_from (in_string b k) c = outside b k) /\
    (forall t, parse_string (c ++ t) acc = Some (str, t)).
Proof.
  induction n as [|n IH]; intros s Hlen acc str r H.
  - destruct s; [discriminate|simpl in Hlen; lia].
  - destruct s as [|c0 r0]; [discriminate|].
    rewrite parse_string_cons in H. simpl in Hlen.
    destruct (c0 =? dquote) eqn:Eq.
    { injection H as <- <-. exists [c0]. split; [reflexivity|]. split.
      - intros b k. apply N.eqb_eq in Eq. subst c0. reflexivity.
      - intros t. cbn [app]. rewrite parse_string_cons, Eq. reflexivity. }
    destruct (c0 =? ch "\") eqn:Eb.
    { destruct r0 as [|e r1]; [discriminate|].
      destruct (e =? ch "u") eqn:Eu.
      - destruct r1 as [|h1 [|h2 [|h3 [|h4 r2]]]]; try discriminate.
        destruct (hex_value h1) as [a1|] eqn:H1; [|discriminate].
        destruct (hex_value h2) as [a2|] eqn:H2; [|discriminate].
        destruct (hex_value h3) as [a3|] eqn:H3; [|discriminate].
        destruct (hex_value h4) as [a4|] eqn:H4; [|discriminate].
        destruct (IH r2 ltac:(simpl in Hlen; lia) _ _ _ H) as (c & Hc & Hcount & Hext).
        exists (c0 :: e :: h1 :: h2 :: h3 :: h4 :: c). split; [|split].
        + cbn [app]. rewrite <- Hc. reflexivity.
        + intros b k. rewrite !count_from_cons.
          replace (count_step (in_string b k) c0) with (mkCounter true true b k)
            by (apply N.eqb_eq in Eb; subst c0; reflexivity).
          rewrite count_step_escaped. fold (in_string b k).
          rewrite (count_step_plain _ h1), (count_step_plain _ h2),
            (count_step_plain _ h3), (count_step_plain _ h4);
            try reflexivity; try (eapply hex_not_special; eassumption).
          apply Hcount.
        + intros t. cbn [app]. rewrite parse_string_cons, Eq, Eb, Eu, H1, H2, H3, H4.
          apply Hext.
      - destruct (unescape e) as [x|] eqn:Ue; [|discriminate].
        destruct (IH r1 ltac:(simpl in Hlen; lia) _ _ _ H) as (c & Hc & Hcount & Hext).
        exists (c0 :: e :: c). split; [|split].
        + cbn [app]. rewrite <- Hc. reflexivity.
        + intros b k. rewrite !count_from_cons.
          replace (count_step (in_string b k) c0) with (mkCounter true true b k)
            by (apply N.eqb_eq in Eb; subst c0; reflexivity).
          rewrite count_step_escaped. fold (in_string b k).
          apply Hcount.
        + intros t. cbn [app]. rewrite parse_string_cons, Eq, Eb, Eu, Ue.
          apply Hext. }
    destruct (c0 <? 32) eqn:El; [discriminate|].
    destruct (IH r0 ltac:(lia) _ _ _ H) as (c & Hc & Hcount & Hext).
    exists (c0 :: c). split; [|split].
    + cbn [app]. rewrite <- Hc. reflexivity.
    + intros b k. rewrite count_from_cons.
      rewrite count_step_in_string by assumption. apply Hcount.
    + intros t. cbn [app]. rewrite parse_string_cons, Eq, Eb, El. apply Hext.
Qed.

(** *** Number literals *)

Lemma number_char_not_special c : number_char c = true -> non special c = true.
Proof.
  unfold number_char, number_more, is_digit, non, special. intros H.
  apply negb_true_iff. char_solve.
Qed.

Lemma forallb_cons (f : cset) x l : forallb f (x :: l) = f x && forallb f l.
Proof. reflexivity. Qed.

Lemma span_spec f : forall s a r,
  span f s = (a, r) ->
  s = a ++ r /\ forallb f a = true /\
  (forall t, head_in f t = false -> span f (a ++ t) = (a, t)).
Proof.
  induction s as [|c s IH]; intros a r H; simpl in H.
  - injection H as <- <-. repeat split.
    intros t Ht. destruct t as [|x t]; [reflexivity|].
    simpl in *. rewrite Ht. reflexivity.
  - destruct (f c) eqn:Fc.
    + destruct (span f s) as [a' r'] eqn:E. injection H as <- <-.
      destruct (IH _ _ eq_refl) as (Hs & Ha & Hext). repeat split.
      * simpl. rewrite <- Hs. reflexivity.
      * simpl. rewrite Fc, Ha. reflexivity.
      * intros t Ht. simpl. rewrite Fc, (Hext t Ht). reflexivity.
    + injection H as <- <-. repeat split.
      intros t Ht. destruct t as [|x t]; [reflexivity|].
      simpl in *. rewrite Ht. reflexivity.
Qed.

Lemma parse_int_spec s i r :
  parse_int s = Some (i, r) ->
  s = i ++ r /\ forallb is_digit i = true /\ head_in is_digit i = true /\
  (forall t, head_in is_digit t = false -> parse_int (i ++ t) = Some (i, t)).
Proof.
  unfold parse_int. destruct s as [|c s]; [discriminate|].
  destruct (c =? ch "0") eqn:E0.
  - intros H; injection H as <- <-.
    assert (Hd : is_digit c = true) by (unfold is_digit; char_solve).
    repeat split.
    + simpl. rewrite Hd. reflexivity.
    + exact Hd.
    + intros t _. simpl. rewrite E0. reflexivity.
  - destruct (is_digit c) eqn:Hd; [|discriminate].
    destruct (span is_digit s) as [ds r'] eqn:E. intros H; injection H as <- <-.
    destruct (span_spec _ _ _ _ E) as (Hs & Ha & Hext). repeat split.
    + simpl. rewrite <- Hs. reflexivity.
    + simpl. rewrite Hd, Ha. reflexivity.
    + exact Hd.
    + intros t Ht. simpl. rewrite E0, Hd, (Hext t Ht). reflexivity.
Qed.

Lemma parse_frac_spec s f r :
  parse_frac s = Some (f, r) ->
  s = f ++ r /\ forallb number_char f = true /\
  (f = [] \/ head_in (only ".") f = true) /\
  (forall t, part_ends (only ".") f t = true -> parse_frac (f ++ t) = Some (f, t)).
Proof.
  unfold parse_frac. destruct s as [|c s].
  - intros H; injection H as <- <-. repeat split; auto.
    intros t Ht. destruct t as [|x t]; [reflexivity|].
    simpl in *. apply negb_true_iff in Ht. unfold only in Ht. rewrite Ht. reflexivity.
  - destruct (c =? ch ".") eqn:Ed.
    + destruct (span is_digit s) as [ds r'] eqn:E.
      destruct ds as [|d ds]; [discriminate|].
      intros H; injection H as <- <-.
      destruct (span_spec _ _ _ _ E) as (Hs & Ha & Hext). repeat split.
      * simpl. rewrite Hs. reflexivity.
      * rewrite forallb_cons. apply andb_true_intro. split.
        { unfold number_char, number_more, is_digit. char_solve. }
        { eapply forallb_weaken; [|exact Ha].
          intros x Hx. unfold number_char, number_more. rewrite Hx. reflexivity. }
      * right. unfold only. simpl. exact Ed.
      * intros t Ht. simpl in Ht. apply negb_true_iff in Ht.
        cbn [app]. rewrite Ed.
        change (d :: ds ++ t) with ((d :: ds) ++ t).
        rewrite (Hext t Ht). reflexivity.
    + intros H; injection H as <- <-. repeat split; auto.
      intros t Ht. destruct t as [|x t]; [reflexivity|].
      simpl in *. apply negb_true_iff in Ht. unfold only in Ht. rewrite Ht. reflexivity.
Qed.

Lemma parse_exp_spec s e r :
  parse_exp s = Some (e, r) ->
  s = e ++ r /\ forallb number_char e = true /\
  (e = [] \/ head_in exp_mark e = true) /\
  (forall t, part_ends exp_mark e t = true -> parse_exp (e ++ t) = Some (e, t)).
Proof.
  unfold parse_exp. destruct s as [|c s].
  - intros H; injection H as <- <-. repeat split; auto.
    intros t Ht. destruct t as [|x t]; [reflexivity|].
    simpl in *. apply negb_true_iff in Ht. unfold exp_mark in Ht. rewrite Ht. reflexivity.
  - destruct ((c =? ch "e") || (c =? ch "E")) eqn:Ee.
    + assert (Hsign : exists sg r1,
                (match s with
                 | x :: r' => if (x =? ch "+") || (x =? ch "-") then ([x], r') else ([], s)
                 | [] => ([], [])
                 end) = (sg, r1) /\ s = sg ++ r1 /\
                forallb number_char sg = true /\
                (forall t, sg ++ r1 ++ t = (sg ++ r1) ++ t) /\
                (sg = [] -> head_in (fun x => (x =? ch "+") || (x =? ch "-")) r1 = false)).
      { destruct s as [|x r'].
        - exists [], []. repeat split; auto.
        - destruct ((x =? ch "+") || (x =? ch "-")) eqn:Es.
          + exists [x], r'. repeat split; auto.
            * simpl. rewrite andb_true_r.
              unfold number_char, number_more, is_digit. char_solve.
            * discriminate.
          + exists [], (x :: r'). repeat split; auto. }
      destruct Hsign as (sg & r1 & Esg & Hs & Hsg & _ & Hnosign).
      rewrite Esg.
      destruct (span is_digit r1) as [ds r2] eqn:E.
      destruct ds as [|d ds]; [discriminate|].
      intros H; injection H as <- <-.
      destruct (span_spec _ _ _ _ E) as (Hr1 & Ha & Hext). repeat split.
      * rewrite Hs, Hr1. cbn [app]. rewrite <- app_assoc. reflexivity.
      * rewrite forallb_cons. apply andb_true_intro. split.
        { unfold number_char, number_more, is_digit. char_solve. }
        { rewrite forallb_app. apply andb_true_intro. split; [exact Hsg|].
          eapply forallb_weaken; [|exact Ha].
          intros x Hx. unfold number_char, number_more. rewrite Hx. reflexivity. }
      * right. unfold exp_mark. simpl. exact Ee.
      * intros t Ht. simpl in Ht. apply negb_true_iff in Ht.
        cbn [app]. rewrite Ee. rewrite <- app_assoc.
        assert (Esg' : (match sg ++ (d :: ds) ++ t with
                 | x :: r' =>
                     if (x =? ch "+") || (x =? ch "-") then ([x], r')
                     else ([], sg ++ (d :: ds) ++ t)
                 | [] => ([], [])
                 end) = (sg, (d :: ds) ++ t)).
        { destruct sg as [|x sg'].
          - cbn [app].
            assert (Hd : (d =? ch "+") || (d =? ch "-") = false).
            { assert (Hdig : is_digit d = true).
              { cbn [forallb] in Ha. apply andb_prop in Ha. tauto. }
              unfold is_digit in Hdig. char_solve. }
            rewrite Hd. reflexivity.
          - destruct s as [|y r']; [discriminate|].
            destruct ((y =? ch "+") || (y =? ch "-")) eqn:Es.
            + injection Esg as <- <- <-. cbn [app]. rewrite Es. reflexivity.
            + discriminate. }
        rewrite Esg'. rewrite (Hext t Ht). reflexivity.
    + intros H; injection H as <- <-. repeat split; auto.
      intros t Ht. destruct t as [|x t]; [reflexivity|].
      simpl in *. apply negb_true_iff in Ht. unfold exp_mark in Ht. rewrite Ht. reflexivity.
Qed.

Lemma head_in_app g x t :
  head_in g (x ++ t) = match x with [] => head_in g t | c :: _ => g c end.
Proof. destruct x; reflexivity. Qed.

Lemma parse_unsigned_spec s n r :
  parse_unsigned s = Some (n, r) ->
  s = n ++ r /\ forallb number_char n = true /\ head_in is_digit n = true /\
  (forall t, head_in number_more t = false -> parse_unsigned (n ++ t) = Some (n, t)).
Proof.
  unfold parse_unsigned.
  destruct (parse_int s) as [[i s1]|] eqn:Ei; [|discriminate].
  destruct (parse_frac s1) as [[f s2]|] eqn:Ef; [|discriminate].
  destruct (parse_exp s2) as [[e s3]|] eqn:Ee; [|discriminate].
  intros H; injection H as <- <-.
  destruct (parse_int_spec _ _ _ Ei) as (Hs & Hi & Hih & Hiext).
  destruct (parse_frac_spec _ _ _ Ef) as (Hs1 & Hf & Hfh & Hfext).
  destruct (parse_exp_spec _ _ _ Ee) as (Hs2 & He & Heh & Heext).
  repeat split.
  - rewrite Hs, Hs1, Hs2. rewrite <- !app_assoc. reflexivity.
  - rewrite !forallb_app. rewrite Hf, He.
    rewrite (forallb_weaken is_digit number_char i); [reflexivity| |exact Hi].
    intros x Hx. unfold number_char, number_more. rewrite Hx. reflexivity.
  - rewrite head_in_app. destruct i; [discriminate|exact Hih].
  - intros t Ht.
    assert (Ht' : forall x, number_more x = false ->
              is_digit x = false /\ only "." x = false /\ exp_mark x = false).
    { intros x Hx. unfold number_more in Hx. unfold only, exp_mark.
      repeat (apply orb_false_iff in Hx; destruct Hx as [Hx ?]).
      repeat split; try assumption. apply orb_false_iff; split; assumption. }
    assert (Hdot : forall x, only "." x = true -> is_digit x = false).
    { intros x Hx. unfold is_digit. char_solve. }
    assert (Hmark : forall x, exp_mark x = true ->
              is_digit x = false /\ only "." x = false).
    { intros x Hx. unfold exp_mark in Hx. unfold is_digit. split; char_solve. }
    assert (Et : head_in is_digit t = false /\ head_in (only ".") t = false /\
                 head_in exp_mark t = false).
    { destruct t as [|x t]; [repeat split|]. apply Ht'. exact Ht. }
    destruct Et as (Et1 & Et2 & Et3).
    assert (Ee' : parse_exp (e ++ t) = Some (e, t)).
    { apply Heext. unfold part_ends. destruct e; [rewrite Et3|rewrite Et1]; reflexivity. }
    assert (Ef' : parse_frac (f ++ e ++ t) = Some (f, e ++ t)).
    { apply Hfext. unfold part_ends. rewrite !head_in_app.
      destruct f as [|cf f'].
      - destruct e as [|ce e']; [rewrite Et2; reflexivity|].
        destruct Heh as [Heh|Heh]; [discriminate|]. simpl in Heh.
        destruct (Hmark _ Heh) as [_ ->]. reflexivity.
      - destruct e as [|ce e']; [rewrite Et1; reflexivity|].
        destruct Heh as [Heh|Heh]; [discriminate|]. simpl in Heh.
        destruct (Hmark _ Heh) as [-> _]. reflexivity. }
    assert (Ei' : parse_int (i ++ f ++ e ++ t) = Some (i, f ++ e ++ t)).
    { apply Hiext. rewrite !head_in_app.
      destruct f as [|cf f'].
      - destruct e as [|ce e']; [exact Et1|].
        destruct Heh as [Heh|Heh]; [discriminate|]. simpl in Heh.
        destruct (Hmark _ Heh) as [-> _]. reflexivity.
      - destruct Hfh as [Hfh|Hfh]; [discriminate|]. simpl in Hfh.
        apply Hdot. exact Hfh. }
    rewrite <- !app_assoc. rewrite Ei', Ef', Ee'. reflexivity.
Qed.

(** A number literal is the text it was read from; it holds no character
    the counter reacts to; and it reads the same before any text that cannot
    continue a number. *)
Lemma parse_number_spec s n r :
  parse_number s = Some (n, r) ->
  s = n ++ r /\ n <> [] /\ forallb (non special) n = true /\
  (forall t, head_in number_more t = false -> parse_number (n ++ t) = Some (n, t)).
Proof.
  unfold parse_number. destruct s as [|c s]; [discriminate|].
  destruct (c =? ch "-") eqn:Em.
  - destruct (parse_unsigned s) as [[n' r']|] eqn:E; [|discriminate].
    intros H; injection H as <- <-.
    destruct (parse_unsigned_spec _ _ _ E) as (Hs & Hn & Hh & Hext).
    repeat split.
    + simpl. rewrite <- Hs. reflexivity.
    + discriminate.
    + rewrite forallb_cons. apply andb_true_intro. split.
      * apply number_char_not_special. unfold number_char. rewrite Em.
        rewrite orb_true_r. reflexivity.
      * eapply forallb_weaken; [|exact Hn]. apply number_char_not_special.
    + intros t Ht. cbn [app]. rewrite Em, (Hext t Ht). reflexivity.
  - intros E.
    destruct (parse_unsigned_spec _ _ _ E) as (Hs & Hn & Hh & Hext).
    repeat split.
    + exact Hs.
    + destruct n; [discriminate|discriminate].
    + eapply forallb_weaken; [|exact Hn]. apply number_char_not_special.
    + intros t Ht. destruct n as [|d n']; [discriminate|].
      assert (d = c) by (simpl in Hs; congruence). subst d.
      cbn [app]. rewrite Em. apply (Hext t Ht).
Qed.

(** *** Values *)

Lemma starts_with_split : forall p s,
  starts_with p s = true -> s = p ++ skipn (length p) s.
Proof.
  induction p as [|x p IH]; intros s H; [reflexivity|].
  destruct s as [|y s]; [discriminate|]. simpl in H.
  apply andb_prop in H. destruct H as [Hx Hp]. apply N.eqb_eq in Hx. subst y.
  simpl. rewrite <- (IH _ Hp). reflexivity.
Qed.

Lemma skip_ws_past w c t :
  forallb json_ws w = true -> json_ws c = false -> skip_ws (w ++ c :: t) = c :: t.
Proof.
  intros Hw Hc. rewrite skip_ws_app_ws by assumption. apply skip_ws_stop; assumption.
Qed.

Lemma skip_ws_found s c r :
  skip_ws s = c :: r ->
  exists w, s = w ++ c :: r /\ forallb json_ws w = true /\ json_ws c = false.
Proof.
  intros H. destruct (skip_ws_split s) as (w & Hs & Hw). rewrite H in Hs.
  exists w. repeat split; try assumption. eapply skip_ws_head; eauto.
Qed.

Lemma ws_not_number_more x : json_ws x = true -> number_more x = false.
Proof. unfold json_ws, number_more, is_digit. intros H. char_solve. Qed.

Lemma count_open_bracket b k : count_step (outside b k) (ch "[") = outside (b + 1) k.
Proof. reflexivity. Qed.
Lemma count_close_bracket b k : count_step (outside b k) (ch "]") = outside (b - 1) k.
Proof. reflexivity. Qed.
Lemma count_open_brace b k : count_step (outside b k) (ch "{") = outside b (k + 1).
Proof. reflexivity. Qed.
Lemma count_close_brace b k : count_step (outside b k) (ch "}") = outside b (k - 1).
Proof. reflexivity. Qed.
Lemma count_open_quote b k : count_step (outside b k) dquote = in_string b k.
Proof. reflexivity. Qed.

Lemma outside_eq b k b' k' : b = b' -> k = k' -> outside b k = outside b' k'.
Proof. intros -> ->. reflexivity. Qed.

Lemma count_ws_outside b k w :
  forallb json_ws w = true -> count_from (outside b k) w = outside b k.
Proof. intros H. apply count_from_ws; [reflexivity|assumption]. Qed.

(** Rewriting the counter along a text cut into known pieces. *)
Ltac count_pieces :=
  repeat first
    [ match goal with
      | H : forall b k, count_from (outside b k) ?c = _
        |- context [count_from (outside _ _) ?c] => rewrite H
      | H : forall b k, count_from (in_string b k) ?c = _
        |- context [count_from (in_string _ _) ?c] => rewrite H
      end
    | rewrite count_from_app
    | rewrite count_ws_outside by assumption
    | rewrite count_from_cons;
      first [ rewrite count_open_bracket | rewrite count_close_bracket
            | rewrite count_open_brace | rewrite count_close_brace
            | rewrite count_open_quote
            | rewrite count_step_plain by reflexivity ] ];
  try (apply outside_eq; lia); try reflexivity.

(** Texts cut into pieces, written in one way. *)
Ltac norm_app := repeat (rewrite <- app_assoc || rewrite <- app_comm_cons).

Section ParserSteps.

Variable fuel : nat.

Hypothesis IHv : forall s v r, parse_value fuel s = POk v r -> value_ok fuel s v r.
Hypothesis IHe : forall s acc v r,
  parse_elements fuel s acc = POk v r -> elements_ok fuel s acc v r.
Hypothesis IHm : forall s acc v r,
  parse_members fuel s acc = POk v r -> members_ok fuel s acc v r.

Lemma value_step s v r :
  parse_value (S fuel) s = POk v r -> value_ok (S fuel) s v r.
Proof.
  destruct s as [|c0 r0]; [rewrite parse_value_nil; discriminate|].
  rewrite parse_value_eq.
  destruct (c0 =? ch "[") eqn:E1.
  { apply N.eqb_eq in E1. subst c0.
    destruct (skip_ws r0) as [|c' r'] eqn:Ews; [discriminate|].
    destruct (skip_ws_found _ _ _ Ews) as (w & Hr0 & Hw & Hc').
    destruct (c' =? ch "]") eqn:E2.
    - apply N.eqb_eq in E2. subst c'. intros H; injection H as <- <-.
      exists (ch "[" :: w ++ [ch "]"]). repeat split.
      + rewrite Hr0. cbn [app]. rewrite <- app_assoc. reflexivity.
      + discriminate.
      + intros b k. count_pieces.
      + intros fuel' t Hf _. destruct fuel' as [|fuel']; [lia|].
        rewrite <- app_comm_cons, parse_value_eq, N.eqb_refl.
        rewrite <- app_assoc. cbn [app].
        rewrite skip_ws_past by (assumption || reflexivity).
        rewrite N.eqb_refl. reflexivity.
    - intros H. destruct (IHe _ _ _ _ H) as (c & Hc & Hne & Hcount & Hext).
      destruct c as [|x c]; [congruence|].
      assert (x = c') by (simpl in Hc; congruence). subst x.
      exists (ch "[" :: w ++ c' :: c). repeat split.
      + rewrite Hr0, Hc. cbn [app]. rewrite <- app_assoc. reflexivity.
      + discriminate.
      + intros b k. count_pieces.
      + intros fuel' t Hf _. destruct fuel' as [|fuel']; [lia|].
        rewrite <- app_comm_cons, parse_value_eq, N.eqb_refl.
        rewrite <- app_assoc. cbn [app].
        rewrite skip_ws_past by assumption.
        rewrite E2. apply (Hext fuel' t). lia. }
  destruct (c0 =? ch "{") eqn:E2.
  { apply N.eqb_eq in E2. subst c0.
    destruct (skip_ws r0) as [|c' r'] eqn:Ews; [discriminate|].
    destruct (skip_ws_found _ _ _ Ews) as (w & Hr0 & Hw & Hc').
    destruct (c' =? ch "}") eqn:E3.
    - apply N.eqb_eq in E3. subst c'. intros H; injection H as <- <-.
      exists (ch "{" :: w ++ [ch "}"]). repeat split.
      + rewrite Hr0. cbn [app]. rewrite <- app_assoc. reflexivity.
      + discriminate.
      + intros b k. count_pieces.
      + intros fuel' t Hf _. destruct fuel' as [|fuel']; [lia|].
        rewrite <- app_comm_cons, parse_value_eq, E1, N.eqb_refl.
        rewrite <- app_assoc. cbn [app].
        rewrite skip_ws_past by (assumption || reflexivity).
        rewrite N.eqb_refl. reflexivity.
    - intros H. destruct (IHm _ _ _ _ H) as (c & Hc & Hne & Hcount & Hext).
      destruct c as [|x c]; [congruence|].
      assert (x = c') by (simpl in Hc; congruence). subst x.
      exists (ch "{" :: w ++ c' :: c). repeat split.
      + rewrite Hr0, Hc. cbn [app]. rewrite <- app_assoc. reflexivity.
      + discriminate.
      + intros b k. count_pieces.
      + intros fuel' t Hf _. destruct fuel' as [|fuel']; [lia|].
        rewrite <- app_comm_cons, parse_value_eq, E1, N.eqb_refl.
        rewrite <- app_assoc. cbn [app].
        rewrite skip_ws_past by assumption.
        rewrite E3. apply (Hext fuel' t). lia. }
  destruct (c0 =? dquote) eqn:E3.
  { destruct (parse_string r0 []) as [[str r']|] eqn:Es; [|discriminate].
    intros H; injection H as <- <-.
    destruct (parse_string_spec _ r0 (le_n _) _ _ _ Es) as (c & Hc & Hcount & Hext).
    exists (c0 :: c). repeat split.
    + rewrite Hc. reflexivity.
    + discriminate.
    + intros b k. apply N.eqb_eq in E3. subst c0. count_pieces.
    + intros fuel' t Hf _. destruct fuel' as [|fuel']; [lia|].
      rewrite <- app_comm_cons, parse_value_eq, E1, E2, E3, Hext. reflexivity. }
  destruct (c0 =? ch "t") eqn:E4.
  { destruct (starts_with (lit "rue") r0) eqn:Es; [|discriminate].
    intros H; injection H as <- <-.
    apply N.eqb_eq in E4. subst c0.
    exists (ch "t" :: lit "rue"). repeat split.
    + rewrite (starts_with_split _ _ Es) at 1. reflexivity.
    + discriminate.
    + intros fuel' t Hf _. destruct fuel' as [|fuel']; [lia|]. reflexivity. }
  destruct (c0 =? ch "f") eqn:E5.
  { destruct (starts_with (lit "alse") r0) eqn:Es; [|discriminate].
    intros H; injection H as <- <-.
    apply N.eqb_eq in E5. subst c0.
    exists (ch "f" :: lit "alse"). repeat split.
    + rewrite (starts_with_split _ _ Es) at 1. reflexivity.
    + discriminate.
    + intros fuel' t Hf _. destruct fuel' as [|fuel']; [lia|]. reflexivity. }
  destruct (c0 =? ch "n") eqn:E6.
  { destruct (starts_with (lit "ull") r0) eqn:Es; [|discriminate].
    intros H; injection H as <- <-.
    apply N.eqb_eq in E6. subst c0.
    exists (ch "n" :: lit "ull"). repeat split.
    + rewrite (starts_with_split _ _ Es) at 1. reflexivity.
    + discriminate.
    + intros fuel' t Hf _. destruct fuel' as [|fuel']; [lia|]. reflexivity. }
  destruct (parse_number (c0 :: r0)) as [[n r']|] eqn:En; [|discriminate].
  intros H; injection H as <- <-.
  destruct (parse_number_spec _ _ _ En) as (Hs & Hne & Hplain & Hext).
  exists n. repeat split.
  - exact Hs.
  - exact Hne.
  - intros b k. apply count_from_plain; [reflexivity|exact Hplain].
  - intros fuel' t Hf Hstop. destruct fuel' as [|fuel']; [lia|].
    destruct n as [|x n]; [congruence|].
    assert (x = c0) by (simpl in Hs; congruence). subst x.
    rewrite <- app_comm_cons, parse_value_eq, E1, E2, E3, E4, E5, E6.
    rewrite app_comm_cons, (Hext t Hstop). reflexivity.
Qed.

Lemma comma_not_ws : json_ws (ch ",") = false.
Proof. reflexivity. Qed.

Lemma stops_after_ws_cons v w c t :
  forallb json_ws w = true -> number_more c = false ->
  stops_after v (w ++ c :: t).
Proof.
  intros Hw Hc. destruct v; simpl; auto.
  rewrite head_in_app. destruct w as [|x w]; [exact Hc|].
  cbn [forallb] in Hw. apply andb_prop in Hw. destruct Hw as [Hx _].
  apply ws_not_number_more; assumption.
Qed.

Lemma elements_step s acc v r :
  parse_elements (S fuel) s acc = POk v r -> elements_ok (S fuel) s acc v r.
Proof.
  rewrite parse_elements_eq.
  destruct (parse_value fuel s) as [v0 r1| |] eqn:Ev; try discriminate.
  destruct (IHv _ _ _ Ev) as (cv & Hs & Hcv & Hcountv & Hextv).
  destruct (skip_ws r1) as [|c1 r2] eqn:Ews; [discriminate|].
  destruct (skip_ws_found _ _ _ Ews) as (w & Hr1 & Hw & Hc1).
  destruct (c1 =? ch ",") eqn:E1.
  - apply N.eqb_eq in E1. subst c1. intros H.
    destruct (IHe _ _ _ _ H) as (ce & Hr2 & Hce & Hcounte & Hexte).
    destruct (skip_ws_split r2) as (w2 & Hw2s & Hw2).
    assert (Hhead : exists x ce', ce = x :: ce' /\ json_ws x = false).
    { destruct ce as [|x ce']; [congruence|]. exists x, ce'. split; [reflexivity|].
      destruct (skip_ws r2) as [|y rest] eqn:E; [discriminate|].
      assert (y = x) by (simpl in Hr2; congruence). subst y.
      eapply skip_ws_head; eauto. }
    destruct Hhead as (x & ce' & -> & Hx).
    exists (cv ++ w ++ ch "," :: w2 ++ x :: ce'). repeat split.
    + rewrite Hs, Hr1, Hw2s, Hr2. rewrite <- !app_assoc. cbn [app].
      rewrite <- !app_assoc. reflexivity.
    + destruct cv; [congruence|discriminate].
    + intros b k. count_pieces.
    + intros fuel' t Hf. destruct fuel' as [|fuel']; [lia|].
      rewrite parse_elements_eq. rewrite <- !app_assoc. cbn [app].
      rewrite <- !app_assoc. cbn [app].
      rewrite (Hextv fuel') by first [lia | apply stops_after_ws_cons; [assumption|reflexivity]].
      rewrite skip_ws_past by (assumption || reflexivity).
      rewrite N.eqb_refl.
      rewrite skip_ws_past by assumption.
      apply (Hexte fuel' t). lia.
  - destruct (c1 =? ch "]") eqn:E2; [|discriminate].
    apply N.eqb_eq in E2. subst c1. intros H; injection H as <- <-.
    exists (cv ++ w ++ [ch "]"]). repeat split.
    + rewrite Hs, Hr1. rewrite <- !app_assoc. reflexivity.
    + destruct cv; [congruence|discriminate].
    + intros b k. count_pieces.
    + intros fuel' t Hf. destruct fuel' as [|fuel']; [lia|].
      rewrite parse_elements_eq. rewrite <- !app_assoc. cbn [app].
      rewrite (Hextv fuel') by first [lia | apply stops_after_ws_cons; [assumption|reflexivity]].
      rewrite skip_ws_past by (assumption || reflexivity).
      change (ch "]" =? ch ",") with false. rewrite N.eqb_refl. reflexivity.
Qed.

(** A text read by a parser that starts where [skip_ws] stopped starts
    with a character that is not white space. *)
Lemma consumed_head (c r s : jsstring) :
  skip_ws s = c ++ r -> c <> [] ->
  exists x c', c = x :: c' /\ json_ws x = false.
Proof.
  intros Hs Hne. destruct c as [|x c']; [congruence|].
  exists x, c'. split; [reflexivity|]. eapply skip_ws_head. exact Hs.
Qed.

Lemma members_step s acc v r :
  parse_members (S fuel) s acc = POk v r -> members_ok (S fuel) s acc v r.
Proof.
  rewrite parse_members_eq.
  destruct s as [|q r0]; [discriminate|].
  destruct (q =? dquote) eqn:Eq; [|discriminate].
  destruct (parse_string r0 []) as [[key r1]|] eqn:Ek; [|discriminate].
  destruct (parse_string_spec _ r0 (le_n _) _ _ _ Ek) as (ck & Hr0 & Hcountk & Hextk).
  destruct (skip_ws r1) as [|c1 r2] eqn:Ews1; [discriminate|].
  destruct (skip_ws_found _ _ _ Ews1) as (w1 & Hr1 & Hw1 & Hc1).
  destruct (c1 =? ch ":") eqn:Ec; [|discriminate].
  apply N.eqb_eq in Ec. subst c1.
  destruct (parse_value fuel (skip_ws r2)) as [v0 r3| |] eqn:Ev; try discriminate.
  destruct (IHv _ _ _ Ev) as (cv & Hr2 & Hcv & Hcountv & Hextv).
  destruct (skip_ws_split r2) as (w2 & Hw2s & Hw2).
  destruct (consumed_head _ _ _ Hr2 Hcv) as (x & cv' & -> & Hx).
  destruct (skip_ws r3) as [|c3 r4] eqn:Ews3; [discriminate|].
  destruct (skip_ws_found _ _ _ Ews3) as (w3 & Hr3 & Hw3 & Hc3).
  apply N.eqb_eq in Eq. subst q.
  destruct (c3 =? ch ",") eqn:E1.
  - apply N.eqb_eq in E1. subst c3. intros H.
    destruct (IHm _ _ _ _ H) as (cm & Hr4 & Hcm & Hcountm & Hextm).
    destruct (skip_ws_split r4) as (w4 & Hw4s & Hw4).
    destruct (consumed_head _ _ _ Hr4 Hcm) as (y & cm' & -> & Hy).
    exists (dquote :: ck ++ w1 ++ ch ":" :: w2 ++ (x :: cv') ++ w3 ++ ch "," :: w4 ++ y :: cm').
    assert (E2 : r2 = w2 ++ (x :: cv') ++ r3)
      by (rewrite Hw2s at 1; rewrite Hr2; reflexivity).
    assert (E4 : r4 = w4 ++ (y :: cm') ++ r)
      by (rewrite Hw4s at 1; rewrite Hr4; reflexivity).
    repeat split.
    + rewrite Hr0, Hr1, E2, Hr3, E4. norm_app. reflexivity.
    + discriminate.
    + intros b k. count_pieces.
    + intros fuel' t Hf. destruct fuel' as [|fuel']; [lia|].
      rewrite <- app_comm_cons, parse_members_eq, N.eqb_refl.
      rewrite <- !app_assoc. rewrite Hextk. norm_app.
      rewrite skip_ws_past by (assumption || reflexivity).
      rewrite N.eqb_refl.
      rewrite skip_ws_past by assumption.
      rewrite app_comm_cons.
      rewrite (Hextv fuel')
        by first [lia | apply stops_after_ws_cons; [assumption|reflexivity]].
      rewrite skip_ws_past by (assumption || reflexivity).
      rewrite N.eqb_refl.
      rewrite skip_ws_past by assumption.
      rewrite app_comm_cons. apply (Hextm fuel' t). lia.
  - destruct (c3 =? ch "}") eqn:E2; [|discriminate].
    apply N.eqb_eq in E2. subst c3. intros H; injection H as <- <-.
    exists (dquote :: ck ++ w1 ++ ch ":" :: w2 ++ (x :: cv') ++ w3 ++ [ch "}"]).
    assert (E2 : r2 = w2 ++ (x :: cv') ++ r3)
      by (rewrite Hw2s at 1; rewrite Hr2; reflexivity).
    repeat split.
    + rewrite Hr0, Hr1, E2, Hr3. norm_app. reflexivity.
    + discriminate.
    + intros b k. count_pieces.
    + intros fuel' t Hf. destruct fuel' as [|fuel']; [lia|].
      rewrite <- app_comm_cons, parse_members_eq, N.eqb_refl.
      rewrite <- !app_assoc. rewrite Hextk. norm_app.
      rewrite skip_ws_past by (assumption || reflexivity).
      rewrite N.eqb_refl.
      rewrite skip_ws_past by assumption.
      rewrite app_comm_cons.
      rewrite (Hextv fuel')
        by first [lia | apply stops_after_ws_cons; [assumption|reflexivity]].
      rewrite skip_ws_past by (assumption || reflexivity).
      change (ch "}" =? ch ",") with false. rewrite N.eqb_refl. reflexivity.
Qed.

End ParserSteps.

(** Every successful run of the parser has the three properties. *)
Lemma parser_ok : forall fuel,
  (forall s v r, parse_value fuel s = POk v r -> value_ok fuel s v r) /\
  (forall s acc v r, parse_elements fuel s acc = POk v r -> elements_ok fuel s acc v r) /\
  (forall s acc v r, parse_members fuel s acc = POk v r -> members_ok fuel s acc v r).
Proof.
  induction fuel as [|fuel (IHv & IHe & IHm)].
  - repeat split; intros.
    + rewrite parse_value_O in H. discriminate.
    + rewrite parse_elements_O in H. discriminate.
    + rewrite parse_members_O in H. discriminate.
  - repeat split; intros.
    + apply value_step; assumption.
    + apply elements_step; assumption.
    + apply members_step; assumption.
Qed.

Lemma parse_value_ok fuel s v r :
  parse_value fuel s = POk v r -> value_ok fuel s v r.
Proof. apply parser_ok. Qed.

(** *** The recursion budget of [JSON_parse] is never exhausted *)

Lemma skip_ws_length s : (length (skip_ws s) <= length s)%nat.
Proof.
  induction s as [|c s IH]; simpl; [lia|].
  destruct (json_ws c); simpl; lia.
Qed.

Lemma value_ok_shorter fuel s v r :
  parse_value fuel s = POk v r -> (length r < length s)%nat.
Proof.
  intros H. destruct (parse_value_ok _ _ _ _ H) as (c & -> & Hne & _).
  rewrite length_app. destruct c; [congruence|simpl; lia].
Qed.

Lemma parse_string_shorter s acc str r :
  parse_string s acc = Some (str, r) -> (length r <= length s)%nat.
Proof.
  intros H. destruct (parse_string_spec _ s (le_n _) _ _ _ H) as (c & -> & _).
  rewrite length_app. lia.
Qed.

Lemma parser_fuel : forall fuel,
  (forall s, (2 * length s + 1 <= fuel)%nat -> parse_value fuel s <> PFuel) /\
  (forall s acc, (2 * length s + 2 <= fuel)%nat -> parse_elements fuel s acc <> PFuel) /\
  (forall s acc, (2 * length s + 2 <= fuel)%nat -> parse_members fuel s acc <> PFuel).
Proof.
  induction fuel as [|fuel (IHv & IHe & IHm)].
  - repeat split; intros; lia.
  - repeat split.
    + intros s Hf. destruct s as [|c0 r0]; [rewrite parse_value_nil; discriminate|].
      rewrite parse_value_eq. simpl in Hf.
      pose proof (skip_ws_length r0) as Hl.
      destruct (c0 =? ch "[").
      { destruct (skip_ws r0) as [|c' r']; [discriminate|].
        destruct (c' =? ch "]"); [discriminate|]. apply IHe. simpl in *. lia. }
      destruct (c0 =? ch "{").
      { destruct (skip_ws r0) as [|c' r']; [discriminate|].
        destruct (c' =? ch "}"); [discriminate|]. apply IHm. simpl in *. lia. }
      destruct (c0 =? dquote).
      { destruct (parse_string r0 []) as [[? ?]|]; discriminate. }
      destruct (c0 =? ch "t").
      { destruct (starts_with _ r0); discriminate. }
      destruct (c0 =? ch "f").
      { destruct (starts_with _ r0); discriminate. }
      destruct (c0 =? ch "n").
      { destruct (starts_with _ r0); discriminate. }
      destruct (parse_number _) as [[? ?]|]; discriminate.
    + intros s acc Hf. rewrite parse_elements_eq.
      destruct (parse_value fuel s) as [v0 r1| |] eqn:Ev; try discriminate.
      * pose proof (value_ok_shorter _ _ _ _ Ev) as Hl.
        pose proof (skip_ws_length r1) as Hl1.
        destruct (skip_ws r1) as [|c1 r2]; [discriminate|].
        pose proof (skip_ws_length r2) as Hl2.
        destruct (c1 =? ch ","); [|destruct (c1 =? ch "]"); discriminate].
        apply IHe. simpl in *. lia.
      * exfalso. apply (IHv s); [lia|assumption].
    + intros s acc Hf. rewrite parse_members_eq.
      destruct s as [|q r0]; [discriminate|].
      destruct (q =? dquote); [|discriminate].
      destruct (parse_string r0 []) as [[key r1]|] eqn:Ek; [|discriminate].
      pose proof (parse_string_shorter _ _ _ _ Ek) as Hl0.
      pose proof (skip_ws_length r1) as Hl1.
      destruct (skip_ws r1) as [|c1 r2]; [discriminate|].
      destruct (c1 =? ch ":"); [|discriminate].
      pose proof (skip_ws_length r2) as Hl2.
      destruct (parse_value fuel (skip_ws r2)) as [v0 r3| |] eqn:Ev; try discriminate.
      * pose proof (value_ok_shorter _ _ _ _ Ev) as Hl3.
        pose proof (skip_ws_length r3) as Hl4.
        destruct (skip_ws r3) as [|c3 r4]; [discriminate|].
        pose proof (skip_ws_length r4) as Hl5.
        destruct (c3 =? ch ","); [|destruct (c3 =? ch "}"); discriminate].
        apply IHm. simpl in *. lia.
      * exfalso. apply (IHv (skip_ws r2)); [simpl in *; lia|assumption].
Qed.

(** [JSON_parse] reports a syntax error only for a syntax error: the budget
    it gives the parser is enough for every text. *)
Lemma parse_value_fuel text :
  parse_value (parse_fuel text) (skip_ws text) <> PFuel.
Proof.
  apply parser_fuel. unfold parse_fuel.
  pose proof (skip_ws_length text). lia.
Qed.

(** *** An array text put together from element texts *)








(** *** The cut array *)












(* ================================================================== *)
(** * Properties of the column detection *)
(* ================================================================== *)

(** The loop treats the four roles independently of each other. *)
Lemma detect_step_fold headers : forall detected,
  fold_left detect_step headers detected =
  mkColumns
    (fold_left (fun c h => detect_role patterns_metabolite h c) headers
               (metabolite detected))
    (fold_left (fun c h => detect_role patterns_foldChange h c) headers
               (foldChange detected))
    (fold_left (fun c h => detect_role patterns_pValue h c) headers
               (pValue detected))
    (fold_left (fun c h => detect_role patterns_pathway h c) headers
               (pathway detected)).
Proof.
  induction headers as [|h headers IH]; intros detected.
  - destruct detected; reflexivity.
  - cbn [fold_left]. rewrite IH. reflexivity.
Qed.

(** A pattern that does not match the empty string keeps the first header
    it matches: the guard [!detected[key]] fails exactly on a role that has
    been given a header. *)
Lemma detect_role_find re :
  regexp_test re [] = false ->
  forall headers current,
  fold_left (fun c h => detect_role re h c) headers current =
  if not_detected current then
    match find (regexp_test re) headers with
    | Some h => Some h
    | None => current
    end
  else current.
Proof.
  intros Hre. induction headers as [|h headers IH]; intros current.
  - cbn. destruct (not_detected current); reflexivity.
  - cbn [fold_left find]. rewrite IH. unfold detect_role.
    destruct (regexp_test re h) eqn:Et; cbn [andb].
    + destruct (not_detected current) eqn:Ec.
      * destruct h as [|x h]; [congruence|]. reflexivity.
      * rewrite Ec. reflexivity.
    + destruct (not_detected current); reflexivity.
Qed.

Lemma detectColumns_find headers :
  detectColumns headers =
  mkColumns (find (regexp_test patterns_metabolite) headers)
            (find (regexp_test patterns_foldChange) headers)
            (find (regexp_test patterns_pValue) headers)
            (find (regexp_test patterns_pathway) headers).
Proof.
  unfold detectColumns. rewrite detect_step_fold.
  rewrite !detect_role_find by reflexivity.
  cbn [metabolite foldChange pValue pathway not_detected].
  f_equal; destruct (find _ headers); reflexivity.
Qed.

(** X1: [detectColumns] gives each of the four roles the first header, in
    the order of the table, that matches the pattern of the role, and
    leaves a role without column when no header matches. *)
Theorem detectColumns_takes_the_first_matching_header :
  forall headers : list jsstring,
  detectColumns headers =
  mkColumns (find (regexp_test patterns_metabolite) headers)
            (find (regexp_test patterns_foldChange) headers)
            (find (regexp_test patterns_pValue) headers)
            (find (regexp_test patterns_pathway) headers).
Proof. exact detectColumns_find. Qed.

Ltac decide_atoms :=
  repeat (first
    [ discriminate
    | reflexivity
    | progress (rewrite ?andb_false_r, ?orb_false_r in * )
    | match goal with
      | H : context [N.eqb ?k ?n] |- _ =>
          is_var k; destruct (N.eqb_spec k n); [subst k; simpl in H|];
          cbn [andb orb negb] in *
      | |- context [N.eqb ?k ?n] =>
          is_var k; destruct (N.eqb_spec k n); [subst k; simpl|];
          cbn [andb orb negb] in *
      end ]).

Ltac unfold_patterns :=
  cbv [regexp_test existsb patterns_metabolite patterns_foldChange
       patterns_pValue patterns_pathway word list_ascii_of_string map app
       match_alt];
  change (canonicalize (ch ?a))
    with ltac:(let v := eval vm_compute in (canonicalize (ch a)) in exact v).

(** No header matches the patterns of two roles: the alternatives of
    different roles differ within their first three characters. *)
Lemma patterns_exclusive h :
  (regexp_test patterns_metabolite h = true ->
     regexp_test patterns_foldChange h = false /\
     regexp_test patterns_pValue h = false /\
     regexp_test patterns_pathway h = false) /\
  (regexp_test patterns_foldChange h = true ->
     regexp_test patterns_pValue h = false /\
     regexp_test patterns_pathway h = false) /\
  (regexp_test patterns_pValue h = true ->
     regexp_test patterns_pathway h = false).
Proof.
  destruct h as [|c1 [|c2 [|c3 t]]].
  - repeat split; discriminate.
  - unfold_patterns. repeat split; intros; decide_atoms.
  - unfold_patterns.
    remember (canonicalize c1) as k1. remember (canonicalize c2) as k2.
    clear Heqk1 Heqk2.
    repeat split; intros; decide_atoms.
  - unfold_patterns.
    remember (canonicalize c1) as k1. remember (canonicalize c2) as k2.
    remember (canonicalize c3) as k3. clear Heqk1 Heqk2 Heqk3.
    repeat split; intros; decide_atoms.
Qed.

(** X2: no two roles are given the same header.  Whatever the headers,
    the columns [detectColumns] assigns to the metabolite, fold change,
    p-value and pathway roles are pairwise different names. *)
Theorem detectColumns_roles_never_share_a_header :
  forall (headers : list jsstring) (h : jsstring),
  (metabolite (detectColumns headers) = Some h ->
     foldChange (detectColumns headers) <> Some h /\
     pValue (detectColumns headers) <> Some h /\
     pathway (detectColumns headers) <> Some h) /\
  (foldChange (detectColumns headers) = Some h ->
     pValue (detectColumns headers) <> Some h /\
     pathway (detectColumns headers) <> Some h) /\
  (pValue (detectColumns headers) = Some h ->
     pathway (detectColumns headers) <> Some h).
Proof.
  intros headers h. rewrite detectColumns_find.
  cbn [metabolite foldChange pValue pathway].
  destruct (patterns_exclusive h) as (Hm & Hf & Hp).
  repeat split; unfold not; intros;
    repeat match goal with
    | H : find _ _ = Some _ |- _ => apply find_some in H; destruct H as [_ H]
    end;
    intuition congruence.
Qed.

(** A witness of X2: the headers of the expected format. *)
Lemma detectColumns_roles_never_share_a_header_witness :
  foldChange (detectColumns [lit "metabolite"; lit "log2FC"; lit "pvalue"; lit "pathway"])
    <> Some (lit "metabolite") /\
  pValue (detectColumns [lit "metabolite"; lit "log2FC"; lit "pvalue"; lit "pathway"])
    <> Some (lit "metabolite") /\
  pathway (detectColumns [lit "metabolite"; lit "log2FC"; lit "pvalue"; lit "pathway"])
    <> Some (lit "metabolite").
Proof.
  apply (detectColumns_roles_never_share_a_header
           [lit "metabolite"; lit "log2FC"; lit "pvalue"; lit "pathway"]
           (lit "metabolite")).
  reflexivity.
Defined.

(** *** The [i] flag *)

Lemma canonicalize_idem c : canonicalize (canonicalize c) = canonicalize c.
Proof.
  unfold canonicalize.
  destruct ((97 <=? c) && (c <=? 122)) eqn:E; [|rewrite E; reflexivity].
  apply andb_prop in E. destruct E as [E1 E2].
  apply N.leb_le in E1. apply N.leb_le in E2.
  replace ((97 <=? c - 32) && (c - 32 <=? 122)) with false; [reflexivity|].
  symmetry. apply andb_false_iff. left. apply N.leb_gt. lia.
Qed.

Lemma line_terminator_canonicalize c :
  line_terminator (canonicalize c) = line_terminator c.
Proof.
  unfold canonicalize.
  destruct ((97 <=? c) && (c <=? 122)) eqn:E; [|reflexivity].
  apply andb_prop in E. destruct E as [E1 E2].
  apply N.leb_le in E1. apply N.leb_le in E2.
  unfold line_terminator.
  repeat match goal with
  | |- context [N.eqb ?a ?b] => destruct (N.eqb_spec a b); try lia
  end;
  try reflexivity.
Qed.

Lemma match_alt_canonicalize p : forall s,
  match_alt p (map canonicalize s) = match_alt p s.
Proof.
  induction p as [|[a| |] p IH]; intros s.
  - reflexivity.
  - destruct s as [|c s]; [reflexivity|]. cbn [map match_alt].
    rewrite canonicalize_idem, IH. reflexivity.
  - destruct s as [|c s]; cbn [map match_alt].
    + apply (IH []).
    + rewrite line_terminator_canonicalize, IH.
      rewrite <- (IH (c :: s)). reflexivity.
  - destruct s as [|c s]; [|reflexivity]. cbn [map match_alt]. reflexivity.
Qed.

Lemma regexp_test_canonicalize re h :
  regexp_test re (map canonicalize h) = regexp_test re h.
Proof.
  unfold regexp_test. induction re as [|a re IH]; [reflexivity|].
  cbn [existsb]. rewrite match_alt_canonicalize, IH. reflexivity.
Qed.

Lemma find_map {A B} (f : B -> bool) (g : A -> B) l :
  find f (map g l) = option_map g (find (fun x => f (g x)) l).
Proof.
  induction l as [|x l IH]; [reflexivity|].
  cbn [map find]. destruct (f (g x)); [reflexivity|exact IH].
Qed.

Lemma find_canonicalize re headers :
  find (regexp_test re) (map (map canonicalize) headers) =
  option_map (map canonicalize) (find (regexp_test re) headers).
Proof.
  rewrite find_map. f_equal.
  induction headers as [|h headers IH]; [reflexivity|].
  cbn [find]. rewrite regexp_test_canonicalize, IH. reflexivity.
Qed.

(** X3: the detection does not depend on the case of the letters [a] to
    [z].  Writing every header in upper case changes no decision: the same
    columns are detected, in upper case. *)
Theorem detectColumns_ignores_case :
  forall headers : list jsstring,
  detectColumns (map (map canonicalize) headers) =
  map_columns (map canonicalize) (detectColumns headers).
Proof.
  intros headers. rewrite !detectColumns_find. unfold map_columns.
  cbn [metabolite foldChange pValue pathway].
  rewrite !find_canonicalize. reflexivity.
Qed.

(* ================================================================== *)
(** * Properties of the parsed rows *)
(* ================================================================== *)

Lemma str_eqb_eq a : forall b, str_eqb a b = true <-> a = b.
Proof.
  induction a as [|x a IH]; intros [|y b]; simpl; split; intros H;
    try discriminate; try reflexivity.
  - apply andb_prop in H. destruct H as [H1 H2].
    apply N.eqb_eq in H1. apply IH in H2. subst. reflexivity.
  - injection H as -> ->. rewrite N.eqb_refl. cbn [andb]. apply IH. reflexivity.
Qed.

Lemma str_eqb_refl a : str_eqb a a = true.
Proof. apply str_eqb_eq. reflexivity. Qed.

Lemma str_eqb_sym a b : str_eqb a b = str_eqb b a.
Proof.
  destruct (str_eqb a b) eqn:E1, (str_eqb b a) eqn:E2; try reflexivity.
  - apply str_eqb_eq in E1. subst. rewrite str_eqb_refl in E2. discriminate.
  - apply str_eqb_eq in E2. subst. rewrite str_eqb_refl in E1. discriminate.
Qed.

Lemma existsb_str_eqb_In k l : existsb (str_eqb k) l = true <-> In k l.
Proof.
  rewrite existsb_exists. split.
  - intros (x & Hx & E). apply str_eqb_eq in E. subst. exact Hx.
  - intros H. exists k. split; [exact H|apply str_eqb_refl].
Qed.


(** Writing a property adds its key at the end, once. *)
Lemma set_prop_keys r k v :
  map fst (set_prop r k v) =
  if existsb (str_eqb k) (map fst r) then map fst r else map fst r ++ [k].
Proof.
  induction r as [|[k' v'] r IH]; cbn [set_prop map existsb fst].
  - reflexivity.
  - rewrite (str_eqb_sym k k').
    destruct (str_eqb k' k) eqn:E; cbn [map fst orb].
    + reflexivity.
    + rewrite IH. destruct (existsb (str_eqb k) (map fst r)); reflexivity.
Qed.

Section TableProperties.

Variable StringToNumber : jsstring -> number.
Variable parseFloat : jsstring -> number.

Local Abbreviation coerce := (coerce StringToNumber parseFloat).
Local Abbreviation fill := (fill_row StringToNumber parseFloat).
Local Abbreviation parseCSV := (parseCSV StringToNumber parseFloat).
Local Abbreviation typed_cell := (typed_cell StringToNumber).
Local Abbreviation typed_row := (typed_row StringToNumber).



Lemma typed_coerce cell : typed_cell (coerce cell) = true.
Proof.
  destruct cell as [s|]; [|reflexivity]. unfold coerce, isNaN, ToNumber.
  destruct (is_nan (StringToNumber s)) eqn:E; [exact E|reflexivity].
Qed.

Lemma set_prop_typed r k v :
  typed_row r -> typed_cell v = true -> typed_row (set_prop r k v).
Proof.
  unfold typed_row.
  intros Hr Hv. induction r as [|[k' v'] r IH]; cbn [set_prop].
  - constructor; [exact Hv|constructor].
  - inversion Hr as [|? ? H1 H2]; subst.
    destruct (str_eqb k' k); constructor; auto.
Qed.

Lemma fill_row_typed : forall headers values i r,
  typed_row r -> typed_row (fill headers values i r).
Proof.
  induction headers as [|h headers IH]; intros values i r Hr; cbn [fill_row].
  - exact Hr.
  - apply IH. apply set_prop_typed; [exact Hr|apply typed_coerce].
Qed.

Lemma typed_row_get r k : typed_row r -> typed_cell (get_prop r k) = true.
Proof.
  unfold typed_row. induction r as [|[k' v'] r IH]; intros H; cbn [get_prop].
  - reflexivity.
  - inversion H as [|? ? H1 H2]; subst.
    destruct (str_eqb k' k); [exact H1|auto].
Qed.

Lemma fill_row_keys : forall headers values i r,
  NoDup (map fst r) ->
  NoDup (map fst (fill headers values i r)) /\
  (forall k, In k (map fst (fill headers values i r)) <->
             In k (map fst r) \/ In k headers).
Proof.
  induction headers as [|h headers IH]; intros values i r Hr; cbn [fill_row].
  - split; [exact Hr|]. intros k. cbn [In]. tauto.
  - set (r' := set_prop r h (coerce (nth_error values i))).
    assert (Hk : map fst r' =
                 if existsb (str_eqb h) (map fst r) then map fst r
                 else map fst r ++ [h]) by apply set_prop_keys.
    assert (Hr' : NoDup (map fst r')).
    { rewrite Hk. destruct (existsb (str_eqb h) (map fst r)) eqn:E; [exact Hr|].
      apply NoDup_app; [exact Hr|constructor; [intros []|constructor]|].
      intros x Hx [<-|[]].
      apply existsb_str_eqb_In in Hx. congruence. }
    destruct (IH values (S i) r' Hr') as [H1 H2]. split; [exact H1|].
    intros k. rewrite H2, Hk. cbn [In].
    destruct (existsb (str_eqb h) (map fst r)) eqn:E.
    + apply existsb_str_eqb_In in E. split; [tauto|].
      intros [H|[<-|H]]; auto.
    + rewrite in_app_iff. cbn [In]. tauto.
Qed.



Lemma parseCSV_row_keys text :
  exists headers data,
    parseCSV text = Normal (headers, data) /\
    Forall (fun r => NoDup (map fst r) /\
                     forall k, In k (map fst r) <-> In k headers) data.
Proof.
  unfold parseCSV.
  destruct (split 10 (trim text)) as [|line0 rest] eqn:E.
  - exfalso. exact (split_not_nil _ _ E).
  - do 2 eexists. split; [reflexivity|].
    apply Forall_forall. intros r Hr. apply in_map_iff in Hr.
    destruct Hr as (line & <- & _).
    destruct (fill_row_keys (parse_cells line0) (parse_cells line) 0%nat []
                (NoDup_nil _)) as [H1 H2].
    split; [exact H1|]. intros k. rewrite H2. cbn [map In]. tauto.
Qed.


Lemma parseCSV_typed text :
  exists headers data,
    parseCSV text = Normal (headers, data) /\ Forall typed_row data.
Proof.
  unfold parseCSV.
  destruct (split 10 (trim text)) as [|line0 rest] eqn:E.
  - exfalso. exact (split_not_nil _ _ E).
  - do 2 eexists. split; [reflexivity|].
    apply Forall_forall. intros r Hr. apply in_map_iff in Hr.
    destruct Hr as (line & <- & _).
    apply fill_row_typed. constructor.
Qed.

(** X6: numeric text never stays text.  Every cell of every parsed row is
    [undefined], a number, or a text that the host does not read as a
    number ([isNaN] holds of it). *)
Theorem parseCSV_keeps_no_numeric_text :
  forall text : jsstring,
  exists headers data,
    parseCSV text = Normal (headers, data) /\
    Forall (fun r => forall k, typed_cell (get_prop r k) = true) data.
Proof.
  intros text. destruct (parseCSV_typed text) as (headers & data & Hp & Ht).
  exists headers, data. split; [exact Hp|].
  apply Forall_forall. intros r Hr k. rewrite Forall_forall in Ht.
  apply typed_row_get. auto.
Qed.

End TableProperties.


(* ================================================================== *)
(** * Properties of the ranking *)
(* ================================================================== *)

Lemma insert_sorted_perm {A} (f : A -> A -> number) x : forall l,
  Permutation (insert_sorted f x l) (x :: l).
Proof.
  induction l as [|y l IH]; cbn [insert_sorted].
  - apply Permutation_refl.
  - destruct (num_gtb (f x y) num_0).
    + eapply Permutation_trans; [apply perm_skip, IH|apply perm_swap].
    + apply Permutation_refl.
Qed.

(** Sorting rearranges. *)
Lemma sort_perm {A} (f : A -> A -> number) : forall l,
  Permutation (sort f l) l.
Proof.
  induction l as [|x l IH]; cbn.
  - apply Permutation_refl.
  - eapply Permutation_trans; [apply insert_sorted_perm|apply perm_skip, IH].
Qed.

Lemma sorted_app_order {A} (ord : A -> A -> Prop) : forall l1 l2 a b,
  StronglySorted ord (l1 ++ l2) -> In a l1 -> In b l2 -> ord a b.
Proof.
  induction l1 as [|x l1 IH]; intros l2 a b Hs Ha Hb; [destruct Ha|].
  cbn [app] in Hs. inversion Hs as [|? ? Hs' Hx]; subst.
  destruct Ha as [<-|Ha].
  - rewrite Forall_forall in Hx. apply Hx. apply in_or_app. right; exact Hb.
  - eapply IH; eauto.
Qed.

Section RankingProperties.

Variable StringToNumber : jsstring -> number.

Local Abbreviation is_significant := (is_significant StringToNumber).
Local Abbreviation summarizeData := (summarizeData StringToNumber).
Local Abbreviation context_rows := (context_rows StringToNumber).
Local Abbreviation gt := (gt StringToNumber).
Local Abbreviation lt := (lt StringToNumber).
Local Abbreviation rank_key := (rank_key StringToNumber).

(** The fields of a summary, as computed. *)
Lemma summarizeData_fields data cols s :
  summarizeData data cols = Some s ->
  total s = length data /\
  significant s = length (filter (is_significant cols) data) /\
  increased s =
    length (filter (fun r => gt (fc_of cols r) (VNumber num_0))
                   (filter (is_significant cols) data)) /\
  decreased s =
    length (filter (fun r => lt (fc_of cols r) (VNumber num_0))
                   (filter (is_significant cols) data)) /\
  topIncreased s =
    firstn 10 (sort (descending StringToNumber cols)
                 (filter (fun r => gt (fc_of cols r) (VNumber num_0))
                         (filter (is_significant cols) data))) /\
  topDecreased s =
    firstn 10 (sort (ascending StringToNumber cols)
                 (filter (fun r => lt (fc_of cols r) (VNumber num_0))
                         (filter (is_significant cols) data))).
Proof.
  unfold summarizeData. destruct data as [|r0 data]; [discriminate|].
  intros H. injection H as <-. repeat split.
Qed.

(** X7: the top lists hold the extreme rows.  [topIncreased], together
    with some rest, is a rearrangement of the significant rows with a
    positive fold change (no row is lost, repeated or invented), no row of
    the rest has a larger fold change than a row of the list, and the list
    has 10 rows or, when fewer rows increased, all of them; likewise
    [topDecreased] with the negative fold changes, smallest first. *)
Theorem top_lists_hold_the_extreme_rows :
  forall (data : list row) (cols : columns) (s : summary),
  summarizeData data cols = Some s ->
  exists restI restD,
    Permutation (topIncreased s ++ restI)
      (filter (fun r => gt (fc_of cols r) (VNumber num_0))
              (filter (is_significant cols) data)) /\
    Permutation (topDecreased s ++ restD)
      (filter (fun r => lt (fc_of cols r) (VNumber num_0))
              (filter (is_significant cols) data)) /\
    (forall a b, In a (topIncreased s) -> In b restI ->
       num_leb (rank_key cols b) (rank_key cols a) = true) /\
    (forall a b, In a (topDecreased s) -> In b restD ->
       num_leb (rank_key cols a) (rank_key cols b) = true) /\
    length (topIncreased s) = Nat.min 10 (increased s) /\
    length (topDecreased s) = Nat.min 10 (decreased s).
Proof.
  intros data cols s H.
  destruct (summarizeData_fields _ _ _ H) as (_ & _ & Hi & Hd & Hti & Htd).
  set (incr := filter (fun r => gt (fc_of cols r) (VNumber num_0))
                      (filter (is_significant cols) data)) in *.
  set (decr := filter (fun r => lt (fc_of cols r) (VNumber num_0))
                      (filter (is_significant cols) data)) in *.
  exists (skipn 10 (sort (descending StringToNumber cols) incr)),
         (skipn 10 (sort (ascending StringToNumber cols) decr)).
  rewrite Hti, Htd, Hi, Hd, !firstn_skipn.
  assert (Si : non_increasing StringToNumber cols
                 (sort (descending StringToNumber cols) incr)).
  { apply sort_descending. apply Forall_forall. intros r Hr.
    apply filter_In in Hr. destruct Hr as [_ Hr].
    apply positive_not_nan. exact Hr. }
  assert (Sd : non_decreasing StringToNumber cols
                 (sort (ascending StringToNumber cols) decr)).
  { apply sort_ascending. apply Forall_forall. intros r Hr.
    apply filter_In in Hr. destruct Hr as [_ Hr].
    apply negative_not_nan. exact Hr. }
  repeat split.
  - apply sort_perm.
  - apply sort_perm.
  - intros a b Ha Hb. unfold non_increasing in Si.
    rewrite <- (firstn_skipn 10 (sort _ incr)) in Si.
    exact (sorted_app_order _ _ _ _ _ Si Ha Hb).
  - intros a b Ha Hb. unfold non_decreasing in Sd.
    rewrite <- (firstn_skipn 10 (sort _ decr)) in Sd.
    exact (sorted_app_order _ _ _ _ _ Sd Ha Hb).
  - rewrite length_firstn, (Permutation_length (sort_perm _ incr)). reflexivity.
  - rewrite length_firstn, (Permutation_length (sort_perm _ decr)). reflexivity.
Qed.

(** X8: the prompt lists what the summary counts.  The filter of
    [buildContext] and the filter of [summarizeData] select the same rows:
    the list under FULL SIGNIFICANT METABOLITES DATA has
    [min(50, summary.significant)] rows, and when at most 50 rows are
    significant it is exactly the significant rows, in the order of the
    table. *)
Theorem context_lists_the_first_fifty_significant_rows :
  forall (data : list row) (cols : columns) (s : summary),
  summarizeData data cols = Some s ->
  length (context_rows data cols) = Nat.min 50 (significant s) /\
  ((significant s <= 50)%nat ->
   context_rows data cols = filter (is_significant cols) data).
Proof.
  intros data cols s H.
  destruct (summarizeData_fields _ _ _ H) as (_ & Hs & _).
  unfold context_rows, slice0. rewrite Hs. split.
  - apply length_firstn.
  - intros Hle. apply firstn_all2. exact Hle.
Qed.

End RankingProperties.

(** A witness of X7: the rows of Scenario A. *)
Lemma top_lists_hold_the_extreme_rows_witness :
  exists s,
    summarizeData text_is_not_a_number example_data example_columns = Some s /\
    exists restI restD,
      Permutation (topIncreased s ++ restI)
        (filter (fun r => gt text_is_not_a_number (fc_of example_columns r)
                             (VNumber num_0))
                (filter (is_significant text_is_not_a_number example_columns)
                        example_data)) /\
      Permutation (topDecreased s ++ restD)
        (filter (fun r => lt text_is_not_a_number (fc_of example_columns r)
                             (VNumber num_0))
                (filter (is_significant text_is_not_a_number example_columns)
                        example_data)) /\
      (forall a b, In a (topIncreased s) -> In b restI ->
         num_leb (rank_key text_is_not_a_number example_columns b)
                 (rank_key text_is_not_a_number example_columns a) = true) /\
      (forall a b, In a (topDecreased s) -> In b restD ->
         num_leb (rank_key text_is_not_a_number example_columns a)
                 (rank_key text_is_not_a_number example_columns b) = true) /\
      length (topIncreased s) = Nat.min 10 (increased s) /\
      length (topDecreased s) = Nat.min 10 (decreased s).
Proof.
  eexists. split; [reflexivity|].
  apply (top_lists_hold_the_extreme_rows text_is_not_a_number
           example_data example_columns).
  reflexivity.
Defined.

(** A witness of X8: the rows of Scenario A. *)
Lemma context_lists_the_first_fifty_significant_rows_witness :
  exists s,
    summarizeData text_is_not_a_number example_data example_columns = Some s /\
    length (context_rows text_is_not_a_number example_data example_columns)
    = Nat.min 50 (significant s) /\
    ((significant s <= 50)%nat ->
     context_rows text_is_not_a_number example_data example_columns
     = filter (is_significant text_is_not_a_number example_columns) example_data).
Proof.
  eexists. split; [reflexivity|].
  apply (context_lists_the_first_fifty_significant_rows text_is_not_a_number
           example_data example_columns).
  reflexivity.
Defined.

(* ================================================================== *)
(** * Properties of the upload and of the prompt context *)
(* ================================================================== *)

Lemma map_throwing_normal {A B} (f : A -> completion B) : forall l,
  (forall x, In x l -> exists y, f x = Normal y) ->
  exists ys, map_throwing f l = Normal ys.
Proof.
  induction l as [|x l IH]; intros H; cbn [map_throwing].
  - eexists; reflexivity.
  - destruct (H x (or_introl eq_refl)) as [y ->].
    destruct IH as [ys ->]; [intros z Hz; apply H; right; exact Hz|].
    eexists; reflexivity.
Qed.

Section UploadProperties.

Variable StringToNumber : jsstring -> number.
Variable parseFloat : jsstring -> number.
Variable NumberToString : number -> jsstring.
Variable toFixed : nat -> number -> jsstring.
Variable toExponential : nat -> number -> jsstring.
Variable engine_message : error -> jsstring.

Local Abbreviation is_significant := (is_significant StringToNumber).
Local Abbreviation summarizeData := (summarizeData StringToNumber).
Local Abbreviation context_rows := (context_rows StringToNumber).
Local Abbreviation typed_row := (typed_row StringToNumber).
Local Abbreviation parseCSV := (parseCSV StringToNumber parseFloat).
Local Abbreviation processFile :=
  (processFile StringToNumber parseFloat engine_message).
Local Abbreviation buildContext :=
  (buildContext StringToNumber NumberToString toFixed toExponential).
Local Abbreviation top_line := (top_line NumberToString toFixed toExponential).
Local Abbreviation full_line := (full_line NumberToString toFixed toExponential).

(** In a significant row of a parsed table both tested cells hold
    numbers: a missing cell gets a default that fails the test, and a text
    cell is one the host does not read as a number. *)
Lemma significant_cells_are_numbers cols r :
  typed_row r -> is_significant cols r = true ->
  (exists n, get_prop r (key_of (foldChange cols)) = VNumber n) /\
  (exists p, get_prop r (key_of (pValue cols)) = VNumber p).
Proof.
  intros Ht Hs.
  pose proof (typed_row_get StringToNumber r (key_of (foldChange cols)) Ht) as Hf.
  pose proof (typed_row_get StringToNumber r (key_of (pValue cols)) Ht) as Hp.
  unfold is_significant in Hs. apply andb_prop in Hs. destruct Hs as [H1 H2].
  split.
  - destruct (get_prop r (key_of (foldChange cols))) as [|n|s]; [|eauto|].
    + vm_compute in H1. discriminate.
    + exfalso. unfold typed_cell in Hf.
      unfold or_else, truthy in H1. destruct s as [|c s].
      * vm_compute in H1. discriminate.
      * unfold Math_abs, ToNumber in H1.
        destruct (StringToNumber (c :: s)); try discriminate.
  - destruct (get_prop r (key_of (pValue cols))) as [|p|s]; [|eauto|].
    + vm_compute in H2. discriminate.
    + exfalso. unfold typed_cell in Hp.
      unfold or_else, truthy in H2. destruct s as [|c s].
      * vm_compute in H2. discriminate.
      * unfold lt, ToNumber in H2.
        destruct (StringToNumber (c :: s)); try discriminate.
Qed.

Lemma top_line_normal cols r :
  typed_row r -> is_significant cols r = true ->
  exists line, top_line cols r = Normal line.
Proof.
  intros Ht Hs.
  destruct (significant_cells_are_numbers cols r Ht Hs) as [[n Hn] [p Hp]].
  unfold top_line. rewrite Hn, Hp. cbn [optional_call bind]. eexists; reflexivity.
Qed.

Lemma full_line_normal cols r :
  typed_row r -> is_significant cols r = true ->
  exists line, full_line cols r = Normal line.
Proof.
  intros Ht Hs.
  destruct (significant_cells_are_numbers cols r Ht Hs) as [[n Hn] [p Hp]].
  unfold full_line. rewrite Hn, Hp. cbn [optional_call bind]. eexists; reflexivity.
Qed.

(** The rows of the two top lists are significant rows of the data. *)
Lemma top_rows_significant data cols s r :
  summarizeData data cols = Some s ->
  In r (topIncreased s) \/ In r (topDecreased s) ->
  In r data /\ is_significant cols r = true.
Proof.
  intros H Hr.
  destruct (summarizeData_fields _ _ _ _ H) as (_ & _ & _ & _ & Hti & Htd).
  rewrite Hti, Htd in Hr.
  destruct Hr as [Hr|Hr]; apply firstn_In in Hr;
    apply (Permutation_in _ (sort_perm _ _)) in Hr;
    apply filter_In in Hr; destruct Hr as [Hr _];
    apply filter_In in Hr; exact Hr.
Qed.

(** On the rows of a parsed table, with the summary made from them,
    [buildContext] throws nothing. *)
Lemma buildContext_normal w data :
  state_data w = Some data ->
  Forall typed_row data ->
  state_summary w = summarizeData data (state_columns w) ->
  exists context, buildContext w = Normal context.
Proof.
  intros Hd Ht Hs. unfold buildContext. rewrite Hd, Hs.
  destruct (summarizeData data (state_columns w)) as [s|] eqn:E;
    [|eexists; reflexivity].
  rewrite Forall_forall in Ht.
  destruct (map_throwing_normal (top_line (state_columns w)) (topIncreased s))
    as [tops ->].
  { intros r Hr.
    destruct (top_rows_significant _ _ _ r E (or_introl Hr)) as [Hin Hsig].
    apply top_line_normal; auto. }
  destruct (map_throwing_normal (top_line (state_columns w)) (topDecreased s))
    as [downs ->].
  { intros r Hr.
    destruct (top_rows_significant _ _ _ r E (or_intror Hr)) as [Hin Hsig].
    apply top_line_normal; auto. }
  destruct (map_throwing_normal (full_line (state_columns w))
              (context_rows data (state_columns w))) as [full ->].
  { intros r Hr. unfold context_rows, slice0 in Hr.
    apply firstn_In in Hr. apply filter_In in Hr. destruct Hr as [Hin Hsig].
    apply full_line_normal; auto. }
  cbn [bind]. eexists; reflexivity.
Qed.

(** What [processFile] leaves, given what [parseCSV] returns. *)
Lemma processFile_parsed text w headers rows :
  parseCSV text = Normal (headers, rows) ->
  processFile (Some text) w
  = mkWorkspace (setActiveTab TabAnalyze (setError None (ui w)))
                (Some rows) (detectColumns headers)
                (summarizeData rows (detectColumns headers)).
Proof. intros H. unfold processFile, onload. rewrite H. reflexivity. Qed.

Lemma buildContext_after_processFile text w :
  exists context, buildContext (processFile (Some text) w) = Normal context.
Proof.
  destruct (parseCSV_typed StringToNumber parseFloat text)
    as (headers & rows & Hp & Ht).
  rewrite (processFile_parsed _ _ _ _ Hp).
  apply (buildContext_normal _ rows); [reflexivity|exact Ht|reflexivity].
Qed.

(** X9: an upload cannot fail.  For every text of a file, [processFile]
    takes the path without exception: the rows, the detected columns and
    the summary made from them are stored together, the error is cleared
    and the tab is the analysis tab; the [catch] branch with its message
    is never entered.  The results of the workflows, the key and the
    selected type are left as they were. *)
Theorem upload_never_fails :
  forall (text : jsstring) (w : workspace),
  exists headers rows,
    parseCSV text = Normal (headers, rows) /\
    state_data (processFile (Some text) w) = Some rows /\
    state_columns (processFile (Some text) w) = detectColumns headers /\
    state_summary (processFile (Some text) w)
    = summarizeData rows (detectColumns headers) /\
    error_message (ui (processFile (Some text) w)) = None /\
    activeTab (ui (processFile (Some text) w)) = TabAnalyze /\
    slots (ui (processFile (Some text) w)) = slots (ui w) /\
    apiKey (ui (processFile (Some text) w)) = apiKey (ui w) /\
    selectedType (ui (processFile (Some text) w)) = selectedType (ui w).
Proof.
  intros text w.
  destruct (parseCSV_typed StringToNumber parseFloat text)
    as (headers & rows & Hp & _).
  exists headers, rows. split; [exact Hp|].
  rewrite (processFile_parsed _ _ _ _ Hp). repeat split.
Qed.

(** X10: after an upload the prompt context can always be built.  The
    calls [row[fcCol]?.toFixed(..)] and [row[pCol]?.toExponential(..)]
    would throw on a text cell, but [buildContext] only formats rows that
    passed the significance test, and in a parsed table such rows hold
    numbers in both columns: for every text of a file, whatever columns
    are detected, [buildContext] returns a string. *)
Theorem context_is_built_after_every_upload :
  forall (text : jsstring) (w : workspace),
  exists context, buildContext (processFile (Some text) w) = Normal context.
Proof. exact buildContext_after_processFile. Qed.

(** X11: from the upload to the stored hypotheses.  After any upload,
    with a key entered and a hypothesis type selected, a response from
    which [parseJSONSafely] extracts a non-empty array is stored as the
    hypotheses: nothing on the way (building the context, the request
    guard, the extraction) fails, the tab becomes the results tab, no error
    is shown and the loading flag is down. *)
Theorem hypotheses_are_stored_after_upload :
  forall (text response : jsstring) (w : workspace) (v : json) (vs : list json),
  apiKey (ui w) <> [] ->
  selectedType (ui w) <> None ->
  parseJSONSafely response true = Normal (JArray (v :: vs)) ->
  hypotheses (generateHypotheses (buildContext (processFile (Some text) w))
                                 (Normal response)
                                 (ui (processFile (Some text) w)))
  = JArray (v :: vs) /\
  activeTab (generateHypotheses (buildContext (processFile (Some text) w))
                                (Normal response)
                                (ui (processFile (Some text) w)))
  = TabResults /\
  error_message (generateHypotheses (buildContext (processFile (Some text) w))
                                    (Normal response)
                                    (ui (processFile (Some text) w)))
  = None /\
  loading_hypotheses
    (loading (generateHypotheses (buildContext (processFile (Some text) w))
                                 (Normal response)
                                 (ui (processFile (Some text) w))))
  = false.
Proof.
  intros text response w v vs Hkey Htype Hparsed.
  destruct (buildContext_after_processFile text w) as [context ->].
  destruct (parseCSV_typed StringToNumber parseFloat text)
    as (headers & rows & Hp & _).
  rewrite (processFile_parsed _ _ _ _ Hp). cbn [ui].
  unfold generateHypotheses. cbn [selectedType setActiveTab setError].
  destruct (selectedType (ui w)) as [t|]; [|congruence].
  unfold hypotheses_try, hypotheses_begin, callClaudeAPI. cbn [bind].
  cbn [apiKey setHypotheses setError setLoading setActiveTab].
  destruct (apiKey (ui w)) as [|c key]; [congruence|].
  cbn [bind]. rewrite Hparsed. cbn. repeat split.
Qed.

End UploadProperties.

(** A witness of X11: the table of the expected format, then an answer
    with one hypothesis. *)
Lemma hypotheses_are_stored_after_upload_witness :
  hypotheses
    (generateHypotheses
       (buildContext text_is_not_a_number (fun _ => []) (fun _ _ => [])
          (fun _ _ => [])
          (processFile text_is_not_a_number text_is_not_a_number (fun _ => [])
             (Some (lit "metabolite,log2FC,pvalue")) example_workspace))
       (Normal (js "[{'rank':1}]"))
       (ui (processFile text_is_not_a_number text_is_not_a_number (fun _ => [])
              (Some (lit "metabolite,log2FC,pvalue")) example_workspace)))
  = JArray [JObject [(lit "rank", JNumber (lit "1"))]].
Proof.
  apply (hypotheses_are_stored_after_upload
           text_is_not_a_number text_is_not_a_number (fun _ => [])
           (fun _ _ => []) (fun _ _ => []) (fun _ => [])
           (lit "metabolite,log2FC,pvalue") (js "[{'rank':1}]")
           example_workspace
           (JObject [(lit "rank", JNumber (lit "1"))]) []).
  - discriminate.
  - discriminate.
  - vm_compute. reflexivity.
Defined.

(* ================================================================== *)
(** * Further properties of the extractor *)
(* ================================================================== *)

(** X12: [parseJSONSafely] returns [null] or a value of the requested
    shape, never anything else: an array (possibly empty) when an array is
    asked for, an object otherwise. *)
Theorem parseJSONSafely_returns_null_or_the_shape :
  forall (text : jsstring) (isArray : bool),
  exists v, parseJSONSafely text isArray = Normal v /\
            (v = JNull \/ has_shape isArray v).
Proof.
  intros text isArray.
  destruct (parseJSONSafely text isArray) as [v|e] eqn:E.
  - exists v. split; [reflexivity|]. exact (parseJSONSafely_shape _ _ _ E).
  - rewrite parseJSONSafely_cascade in E. discriminate.
Qed.

Lemma exec_one_none f p : forall s,
  forallb (non f) s = true -> exec (One f :: p) s = None.
Proof.
  induction s as [|x s IH]; intros H.
  - reflexivity.
  - cbn [forallb] in H. apply andb_prop in H. destruct H as [Hx Hs].
    unfold non in Hx. apply negb_true_iff in Hx.
    rewrite exec_cons. cbn [match_here]. rewrite Hx, (IH Hs). reflexivity.
Qed.

(** X13: a text without the opening bracket of the requested shape
    yields [null]: no strategy is tried on it. *)
Theorem text_without_opening_bracket_yields_null :
  forall (text : jsstring) (isArray : bool),
  forallb (non (only (opener isArray))) text = true ->
  parseJSONSafely text isArray = Normal JNull.
Proof.
  intros text isArray H. rewrite parseJSONSafely_cascade.
  assert (D : direct_match text isArray = None).
  { unfold direct_match, str_match.
    destruct isArray; unfold re_array, re_object;
      rewrite (exec_one_none _ _ _ H); reflexivity. }
  assert (R : repaired text isArray = None).
  { unfold repaired, str_match.
    destruct isArray; unfold re_array_open, re_object_open;
      rewrite (exec_one_none _ _ _ H); reflexivity. }
  unfold truncation_repair, last_complete_element, per_element_salvage.
  rewrite D, R. reflexivity.
Qed.

(** A witness of X13: an answer in prose, and an object where an array is
    asked for. *)
Lemma text_without_opening_bracket_yields_null_witness :
  parseJSONSafely (js "I cannot answer that.") true = Normal JNull /\
  parseJSONSafely (js "{'rank':1}") true = Normal JNull.
Proof.
  split.
  - apply (text_without_opening_bracket_yields_null (js "I cannot answer that.") true).
    reflexivity.
  - apply (text_without_opening_bracket_yields_null (js "{'rank':1}") true).
    reflexivity.
Defined.

(** *** The trims *)

(** A pattern that ends with the end anchor consumes the rest of the
    text. *)
Lemma many_loop_all c (k : jsstring -> option jsstring) :
  (forall s r, k s = Some r -> r = []) ->
  forall s r, many_loop c k s = Some r -> r = [].
Proof.
  intros Hk. induction s as [|x s IH]; intros r H; cbn [many_loop] in H.
  - eapply Hk; eauto.
  - destruct (c x); [|eapply Hk; eauto].
    destruct (many_loop c k s) as [r'|] eqn:E; [|eapply Hk; eauto].
    injection H as <-. eapply IH; reflexivity.
Qed.

Lemma match_here_anchored p : forall s r,
  match_here (p ++ [Eos]) s = Some r -> r = [].
Proof.
  induction p as [|a p IH]; intros s r H.
  - cbn in H. destruct s; [|discriminate]. injection H as <-. reflexivity.
  - cbn [app match_here] in H. destruct a as [c|c|].
    + destruct s as [|x s]; [discriminate|].
      destruct (c x); [|discriminate]. eapply IH; eauto.
    + eapply many_loop_all; [|exact H]. exact IH.
    + destruct s; [|discriminate]. eapply IH; eauto.
Qed.

Lemma exec_anchored p : forall s b m a,
  exec (p ++ [Eos]) s = Some (b, m, a) -> a = [].
Proof.
  induction s as [|x s IH]; intros b m a H.
  - rewrite exec_nil in H.
    destruct (match_here (p ++ [Eos]) []) as [r|] eqn:E; [|discriminate].
    injection H as <- <- <-. eapply match_here_anchored; eauto.
  - rewrite exec_cons in H.
    destruct (match_here (p ++ [Eos]) (x :: s)) as [r|] eqn:E.
    + injection H as <- <- <-. eapply match_here_anchored; eauto.
    + destruct (exec (p ++ [Eos]) s) as [[[b' m'] a']|] eqn:E'; [|discriminate].
      injection H as <- <- <-. eapply IH; eauto.
Qed.

Lemma replace_empty_prefix p s :
  p = removelast p ++ [Eos] ->
  exists dropped, s = replace_empty s p ++ dropped.
Proof.
  intros Hp. unfold replace_empty.
  destruct (exec p s) as [[[b m] a]|] eqn:E.
  - rewrite Hp in E. pose proof (exec_anchored _ _ _ _ _ E) as ->.
    apply exec_split in E. exists m. rewrite E, !app_nil_r. reflexivity.
  - exists []. rewrite app_nil_r. reflexivity.
Qed.

Lemma fold_replace_empty_prefix ps :
  Forall (fun p => p = removelast p ++ [Eos]) ps ->
  forall s, exists dropped, s = fold_left replace_empty ps s ++ dropped.
Proof.
  induction 1 as [|p ps Hp _ IH]; intros s; cbn [fold_left].
  - exists []. rewrite app_nil_r. reflexivity.
  - destruct (replace_empty_prefix p s Hp) as [d1 H1].
    destruct (IH (replace_empty s p)) as [d2 H2].
    exists (d2 ++ d1). rewrite app_assoc, <- H2. exact H1.
Qed.

(** X14: the six replacements only cut the end off.  Each of the
    patterns ends with the end anchor, so whatever they remove is a tail:
    the trimmed text is a prefix of the text. *)
Theorem trim_tail_only_removes_a_tail :
  forall jsonStr : jsstring,
  exists dropped, jsonStr = trim_tail jsonStr ++ dropped.
Proof.
  intros jsonStr. apply fold_replace_empty_prefix.
  unfold trim_patterns. repeat constructor.
Qed.

(** *** Closing the open structures *)





(** *** The per element salvage *)

Lemma substring_head (s : jsstring) (a b : nat) x :
  nth_error s a = Some x -> (a < b)%nat ->
  exists t, substring s a b = x :: t.
Proof.
  intros Hn Hab. unfold substring.
  destruct (nth_error_split s a Hn) as (l1 & l2 & -> & Hl).
  rewrite skipn_app, <- Hl, Nat.sub_diag, skipn_all. cbn [skipn app].
  destruct (b - length l1)%nat eqn:E; [lia|]. cbn [firstn]. eauto.
Qed.

Lemma collect_step_ok jsonStr i st c :
  nth_error jsonStr i = Some c ->
  collector_ok jsonStr i st ->
  collector_ok jsonStr (S i) (collect_step jsonStr st i c).
Proof.
  intros Hc [Ho Hst]. unfold collect_step.
  destruct (c =? ch "{") eqn:Eo.
  - apply N.eqb_eq in Eo. subst c.
    change (ch "{" =? ch "}") with false. cbn [andb].
    split; [exact Ho|]. cbn [start].
    destruct (depth st =? 0)%Z.
    + right. split; [lia|]. rewrite Nat2Z.id. exact Hc.
    + destruct Hst as [H|[H1 H2]]; [left; exact H|right; split; [lia|exact H2]].
  - cbn [andb].
    destruct (c =? ch "}") eqn:Ec; cbn [andb].
    + destruct ((depth st - 1 =? 0)%Z && negb (start st =? -1)%Z) eqn:E.
      * split; [|left; reflexivity]. cbn [objects].
        apply andb_prop in E. destruct E as [_ E].
        apply negb_true_iff, Z.eqb_neq in E.
        destruct Hst as [H|[H1 H2]]; [congruence|].
        destruct (substring_head jsonStr (Z.to_nat (start st)) (i + 1) _ H2)
          as [t ->]; [lia|].
        destruct (JSON_parse (ch "{" :: t)) as [v|e] eqn:Ev; [|exact Ho].
        apply Forall_app. split; [exact Ho|].
        constructor; [|constructor].
        exact (JSON_parse_brace_shape _ _ Ev).
      * split; [exact Ho|]. cbn [start].
        destruct Hst as [H|[H1 H2]]; [left; exact H|right; split; [lia|exact H2]].
    + split; [exact Ho|]. cbn [start].
      destruct Hst as [H|[H1 H2]]; [left; exact H|right; split; [lia|exact H2]].
Qed.

Lemma skipn_cons_nth (s : jsstring) i c rest :
  skipn i s = c :: rest -> nth_error s i = Some c /\ skipn (S i) s = rest.
Proof.
  revert i. induction s as [|x s IH]; intros i H.
  - destruct i; discriminate.
  - destruct i as [|i].
    + cbn in H. injection H as -> ->. split; reflexivity.
    + cbn [skipn] in H. destruct (IH i H) as [H1 H2]. split; assumption.
Qed.

Lemma collect_loop_ok jsonStr : forall rest i st,
  skipn i jsonStr = rest ->
  collector_ok jsonStr i st ->
  collector_ok jsonStr (i + length rest) (collect_loop jsonStr rest i st).
Proof.
  induction rest as [|c rest IH]; intros i st Hr Hok; cbn [collect_loop length].
  - rewrite Nat.add_0_r. exact Hok.
  - replace (i + S (length rest))%nat with (S i + length rest)%nat by lia.
    destruct (skipn_cons_nth _ _ _ _ Hr) as [Hc Hr'].
    apply IH; [exact Hr'|]. apply collect_step_ok; assumption.
Qed.

Lemma collect_objects_are_objects jsonStr :
  Forall (has_shape false) (collect_objects jsonStr).
Proof.
  unfold collect_objects.
  apply (collect_loop_ok jsonStr jsonStr 0%nat (mkCollector 0 (-1) [])).
  - reflexivity.
  - split; [constructor|left; reflexivity].
Qed.

(** X16: what the per element salvage yields is a non-empty array of
    objects: every piece it collects starts at an opening brace, ends at a
    closing brace and parses, so no element is a number, a string, an array
    or [null]. *)
Theorem salvage_yields_objects_only :
  forall (text : jsstring) (isArray : bool) (v : json),
  per_element_salvage text isArray = Some v ->
  exists obj objs,
    v = JArray (obj :: objs) /\ Forall (has_shape false) (obj :: objs).
Proof.
  intros text isArray v. unfold per_element_salvage.
  destruct (repaired text isArray) as [jsonStr|]; [|discriminate].
  destruct isArray; [|discriminate].
  pose proof (collect_objects_are_objects jsonStr) as Ho.
  destruct (collect_objects jsonStr) as [|obj objs]; [discriminate|].
  intros H. injection H as <-. eauto.
Qed.

(** A witness of X16: two objects with the comma between them missing;
    only the salvage recovers them. *)
Lemma salvage_yields_objects_only_witness :
  exists obj objs,
    JArray [JObject [(lit "a", JNumber (lit "1"))];
            JObject [(lit "b", JNumber (lit "2"))]]
    = JArray (obj :: objs) /\
    Forall (has_shape false) (obj :: objs).
Proof.
  apply (salvage_yields_objects_only (js "[{'a':1} {'b':2}") true).
  vm_compute. reflexivity.
Defined.

(* ================================================================== *)
(** * Further properties of the workflows *)
(* ================================================================== *)

(** The paths through a [try] block: the prompt, the key, the request,
    the extraction and the test of its result, one after the other. *)
Ltac try_paths :=
  unfold hypotheses_try, experimental_try, literature_try, callClaudeAPI, bind;
  cbn [apiKey hypotheses_begin experimental_begin literature_begin
       setHypotheses setError setLoading];
  repeat match goal with
  | |- context [match ?c with Normal _ => _ | Throw _ => _ end] =>
      is_var c; destruct c; cbn
  | |- context [match apiKey ?s with [] => _ | _ :: _ => _ end] =>
      is_var s; destruct (apiKey s) eqn:?; cbn
  | |- context [match parseJSONSafely ?r ?b with Normal _ => _ | Throw _ => _ end] =>
      destruct (parseJSONSafely r b) eqn:?; cbn
  | |- context [if json_truthy ?j && has_elements ?j then _ else _] =>
      destruct (json_truthy j && has_elements j) eqn:?; cbn
  | |- context [if json_truthy ?j then _ else _] =>
      destruct (json_truthy j) eqn:?; cbn
  end.

(** X17: a workflow always lowers its own loading flag and touches no
    other.  On every path, failure included, the flag of the invoked
    workflow is false afterwards and the other two flags are as before;
    the key and the selected type are never written; experimental design
    and literature analysis never change the tab.  Hypothesis generation
    without a selected type changes nothing at all (so it does not lower
    its flag either). *)
Theorem workflows_lower_their_flag_and_keep_the_rest :
  forall (s : app_state) (built http : completion jsstring) (title : option json),
  (loading (generateExperimentalDesign built http title s)
   = mkLoading (loading_hypotheses (loading s)) false
               (loading_literature (loading s)) /\
   apiKey (generateExperimentalDesign built http title s) = apiKey s /\
   selectedType (generateExperimentalDesign built http title s) = selectedType s /\
   activeTab (generateExperimentalDesign built http title s) = activeTab s)
  /\
  (loading (generateLiteratureAnalysis built http s)
   = mkLoading (loading_hypotheses (loading s))
               (loading_experimental (loading s)) false /\
   apiKey (generateLiteratureAnalysis built http s) = apiKey s /\
   selectedType (generateLiteratureAnalysis built http s) = selectedType s /\
   activeTab (generateLiteratureAnalysis built http s) = activeTab s)
  /\
  (selectedType s <> None ->
   loading (generateHypotheses built http s)
   = mkLoading false (loading_experimental (loading s))
               (loading_literature (loading s)) /\
   apiKey (generateHypotheses built http s) = apiKey s /\
   selectedType (generateHypotheses built http s) = selectedType s)
  /\
  (selectedType s = None -> generateHypotheses built http s = s).
Proof.
  intros s built http title. split; [|split; [|split]].
  - unfold generateExperimentalDesign. try_paths; repeat split; assumption.
  - unfold generateLiteratureAnalysis. try_paths; repeat split; assumption.
  - intros Hsel. unfold generateHypotheses.
    destruct (selectedType s) eqn:T; [|congruence].
    try_paths; repeat split; assumption.
  - intros Hsel. unfold generateHypotheses. rewrite Hsel. reflexivity.
Qed.

(** A witness of X17: hypothesis generation started without a key. *)
Lemma workflows_lower_their_flag_and_keep_the_rest_witness :
  loading (generateHypotheses (Normal []) (Normal []) state_with_results)
  = mkLoading false false false /\
  apiKey (generateHypotheses (Normal []) (Normal []) state_with_results) = [] /\
  selectedType (generateHypotheses (Normal []) (Normal []) state_with_results)
  = Some Mechanisms.
Proof.
  apply (workflows_lower_their_flag_and_keep_the_rest
           state_with_results (Normal []) (Normal []) None).
  discriminate.
Defined.

(** X18: hypothesis generation ends in one of two states.  With a type
    selected, either a non-empty array is stored, no error is shown and the
    tab is the results tab; or the hypotheses slot is empty ([null]), an
    error is shown and the tab is as before.  The slot never holds an empty
    array or a value that is not an array. *)
Theorem generateHypotheses_stores_elements_or_reports :
  forall (s : app_state) (built http : completion jsstring),
  selectedType s <> None ->
  (exists v vs,
     hypotheses (generateHypotheses built http s) = JArray (v :: vs) /\
     error_message (generateHypotheses built http s) = None /\
     activeTab (generateHypotheses built http s) = TabResults)
  \/
  (hypotheses (generateHypotheses built http s) = JNull /\
   (exists e, error_message (generateHypotheses built http s) = Some e) /\
   activeTab (generateHypotheses built http s) = activeTab s).
Proof.
  intros s built http Hsel. unfold generateHypotheses.
  destruct (selectedType s) eqn:T; [|congruence].
  try_paths; try (right; repeat split; eexists; reflexivity).
  left.
  match goal with H : json_truthy ?j && has_elements ?j = true |- _ =>
    apply andb_prop in H; destruct H as [_ H];
    destruct j as [| | | |[|v vs]|]; try discriminate
  end.
  exists v, vs. repeat split.
Qed.

(** A witness of X18: an answer with one hypothesis. *)
Lemma generateHypotheses_stores_elements_or_reports_witness :
  (exists v vs,
     hypotheses (generateHypotheses (Normal []) (Normal (js "[{'rank':1}]"))
                                    (ui example_workspace))
     = JArray (v :: vs) /\
     error_message (generateHypotheses (Normal []) (Normal (js "[{'rank':1}]"))
                                       (ui example_workspace)) = None /\
     activeTab (generateHypotheses (Normal []) (Normal (js "[{'rank':1}]"))
                                   (ui example_workspace)) = TabResults)
  \/
  (hypotheses (generateHypotheses (Normal []) (Normal (js "[{'rank':1}]"))
                                  (ui example_workspace)) = JNull /\
   (exists e,
      error_message (generateHypotheses (Normal []) (Normal (js "[{'rank':1}]"))
                                        (ui example_workspace)) = Some e) /\
   activeTab (generateHypotheses (Normal []) (Normal (js "[{'rank':1}]"))
                                 (ui example_workspace))
   = activeTab (ui example_workspace)).
Proof.
  apply (generateHypotheses_stores_elements_or_reports
           (ui example_workspace) (Normal []) (Normal (js "[{'rank':1}]"))).
  discriminate.
Defined.

(** X19: without a key no request is made.  When the key is empty and
    the prompt has been built, each workflow reports the message that asks
    for the key, whatever the request would have answered, and stores no
    result. *)
Theorem missing_key_is_reported_without_a_request :
  forall (s : app_state) (prompt : jsstring) (http : completion jsstring)
         (title : option json),
  apiKey s = [] ->
  (error_message (generateExperimentalDesign (Normal prompt) http title s)
   = Some (Error (lit "Please enter your Anthropic API key")) /\
   slots (generateExperimentalDesign (Normal prompt) http title s) = slots s)
  /\
  (error_message (generateLiteratureAnalysis (Normal prompt) http s)
   = Some (Error (lit "Please enter your Anthropic API key")) /\
   slots (generateLiteratureAnalysis (Normal prompt) http s) = slots s)
  /\
  (selectedType s <> None ->
   error_message (generateHypotheses (Normal prompt) http s)
   = Some (Error (lit "Please enter your Anthropic API key")) /\
   slots (generateHypotheses (Normal prompt) http s)
   = (JNull, experimentalDesign s, literatureAnalysis s)).
Proof.
  intros s prompt http title Hkey. split; [|split].
  - unfold generateExperimentalDesign, experimental_try, callClaudeAPI.
    cbn. rewrite Hkey. split; reflexivity.
  - unfold generateLiteratureAnalysis, literature_try, callClaudeAPI.
    cbn. rewrite Hkey. split; reflexivity.
  - intros Hsel. unfold generateHypotheses.
    destruct (selectedType s); [|congruence].
    unfold hypotheses_try, callClaudeAPI. cbn. rewrite Hkey. split; reflexivity.
Qed.

(** A witness of X19: a state without key, and a request that would have
    been answered. *)
Lemma missing_key_is_reported_without_a_request_witness :
  error_message
    (generateLiteratureAnalysis (Normal []) (Normal (js "{'a':1}"))
                                state_with_results)
  = Some (Error (lit "Please enter your Anthropic API key")) /\
  slots (generateLiteratureAnalysis (Normal []) (Normal (js "{'a':1}"))
                                    state_with_results)
  = slots state_with_results.
Proof.
  apply (missing_key_is_reported_without_a_request
           state_with_results [] (Normal (js "{'a':1}")) None).
  reflexivity.
Defined.

(** X20: the object workflows end in one of two states.  After
    experimental design either the design slot holds the title with an
    object and no error is shown, or the slot is as before and an error is
    shown; likewise the analysis slot after literature analysis.  A number,
    a string, an array or [null] is never stored, and an earlier error
    never stays beside a new result. *)
Theorem object_workflows_store_objects_or_report :
  forall (s : app_state) (built http : completion jsstring) (title : option json),
  ((exists members,
      experimentalDesign (generateExperimentalDesign built http title s)
      = Some (title, JObject members) /\
      error_message (generateExperimentalDesign built http title s) = None)
   \/
   (experimentalDesign (generateExperimentalDesign built http title s)
    = experimentalDesign s /\
    exists e,
      error_message (generateExperimentalDesign built http title s) = Some e))
  /\
  ((exists members,
      literatureAnalysis (generateLiteratureAnalysis built http s)
      = JObject members /\
      error_message (generateLiteratureAnalysis built http s) = None)
   \/
   (literatureAnalysis (generateLiteratureAnalysis built http s)
    = literatureAnalysis s /\
    exists e,
      error_message (generateLiteratureAnalysis built http s) = Some e)).
Proof.
  intros s built http title. split.
  - unfold generateExperimentalDesign.
    try_paths; try (right; split; [reflexivity|eexists; reflexivity]).
    left.
    match goal with
    | H : parseJSONSafely _ false = Normal ?j, T : json_truthy ?j = true |- _ =>
        destruct (parseJSONSafely_shape _ _ _ H) as [->|[members ->]];
        [discriminate|]
    end.
    exists members. split; reflexivity.
  - unfold generateLiteratureAnalysis.
    try_paths; try (right; split; [reflexivity|eexists; reflexivity]).
    left.
    match goal with
    | H : parseJSONSafely _ false = Normal ?j, T : json_truthy ?j = true |- _ =>
        destruct (parseJSONSafely_shape _ _ _ H) as [->|[members ->]];
        [discriminate|]
    end.
    exists members. split; reflexivity.
Qed.

(* ================================================================== *)
(** * Properties of the cells and of the missing columns *)
(* ================================================================== *)

Lemma split_length sep : forall s,
  length (split sep s) = S (length (filter (fun c => c =? sep) s)).
Proof.
  induction s as [|c s IH]; [reflexivity|].
  cbn [split filter]. destruct (c =? sep); cbn [length].
  - rewrite IH. reflexivity.
  - destruct (split sep s) as [|piece pieces] eqn:E.
    + exfalso. exact (split_not_nil _ _ E).
    + cbn [length] in *. exact IH.
Qed.

(** X21: every comma separates cells, quoted or not.  A line with [n]
    commas is read as [n + 1] cells, and no cell holds a double quote: the
    quotes are deleted after the line has been split, so they do not
    protect a comma. *)
Theorem every_comma_separates_cells :
  forall line : jsstring,
  length (parse_cells line)
  = S (length (filter (fun c => c =? ch ",") line)) /\
  Forall (fun cell => forallb (non only_dquote) cell = true) (parse_cells line).
Proof.
  intros line. unfold parse_cells. split.
  - rewrite length_map. apply split_length.
  - apply Forall_forall. intros cell Hc. apply in_map_iff in Hc.
    destruct Hc as (v & <- & _). unfold remove_quotes.
    apply forallb_forall. intros c Hin. apply filter_In in Hin. apply Hin.
Qed.

Lemma get_prop_absent r k : ~ In k (map fst r) -> get_prop r k = VUndefined.
Proof.
  induction r as [|[k' v] r IH]; intros H; cbn [get_prop]; [reflexivity|].
  cbn [map fst In] in H.
  destruct (str_eqb k' k) eqn:E.
  - apply str_eqb_eq in E. subst. tauto.
  - apply IH. tauto.
Qed.

Section MissingColumns.

Variable StringToNumber : jsstring -> number.
Variable parseFloat : jsstring -> number.

Local Abbreviation is_significant := (is_significant StringToNumber).
Local Abbreviation summarizeData := (summarizeData StringToNumber).
Local Abbreviation parseCSV := (parseCSV StringToNumber parseFloat).

(** A row without a property named [undefined] is not significant when a
    tested column is not assigned. *)
Lemma unassigned_column_not_significant cols r :
  foldChange cols = None \/ pValue cols = None ->
  get_prop r (lit "undefined") = VUndefined ->
  is_significant cols r = false.
Proof.
  intros [H|H] Hu; unfold is_significant; rewrite H; cbn [key_of]; rewrite Hu.
  - reflexivity.
  - apply andb_false_iff. right. reflexivity.
Qed.

(** X22: without both columns nothing is significant.  When no fold
    change column or no p-value column is assigned, the rows of a parsed
    table are all insignificant, the counts of the summary are 0 and its top
    lists are empty, provided no header is the text [undefined] (the
    property that [row[undefined]] reads). *)
Theorem nothing_is_significant_without_both_columns :
  forall (text : jsstring) (cols : columns),
  foldChange cols = None \/ pValue cols = None ->
  exists headers rows,
    parseCSV text = Normal (headers, rows) /\
    (~ In (lit "undefined") headers ->
     filter (is_significant cols) rows = [] /\
     forall s, summarizeData rows cols = Some s ->
       significant s = 0%nat /\ increased s = 0%nat /\ decreased s = 0%nat /\
       topIncreased s = [] /\ topDecreased s = []).
Proof.
  intros text cols Hc.
  destruct (parseCSV_row_keys StringToNumber parseFloat text)
    as (headers & rows & Hp & Hk).
  exists headers, rows. split; [exact Hp|]. intros Hu.
  assert (F : filter (is_significant cols) rows = []).
  { rewrite Forall_forall in Hk.
    assert (G : forall l, (forall r, In r l -> In r rows) ->
                filter (is_significant cols) l = []).
    { induction l as [|r l IH]; intros Hl; [reflexivity|].
      cbn [filter]. rewrite (unassigned_column_not_significant cols r Hc).
      - apply IH. intros r' Hr'. apply Hl. right. exact Hr'.
      - apply get_prop_absent. intros Hin.
        apply (Hk r (Hl r (or_introl eq_refl))) in Hin. exact (Hu Hin). }
    apply G. auto. }
  split; [exact F|]. intros s Hs.
  destruct (summarizeData_fields _ _ _ _ Hs) as (_ & H1 & H2 & H3 & H4 & H5).
  rewrite H1, H2, H3, H4, H5, F. repeat split.
Qed.

End MissingColumns.

(** A witness of X22: a table whose headers name no p-value column. *)
Lemma nothing_is_significant_without_both_columns_witness :
  exists headers rows,
    parseCSV text_is_not_a_number text_is_not_a_number
      (lit "metabolite,log2FC
Lactate,2.3")
    = Normal (headers, rows) /\
    (~ In (lit "undefined") headers ->
     filter (is_significant text_is_not_a_number
               (detectColumns [lit "metabolite"; lit "log2FC"])) rows = [] /\
     forall s,
       summarizeData text_is_not_a_number rows
         (detectColumns [lit "metabolite"; lit "log2FC"]) = Some s ->
       significant s = 0%nat /\ increased s = 0%nat /\ decreased s = 0%nat /\
       topIncreased s = [] /\ topDecreased s = []).
Proof.
  apply (nothing_is_significant_without_both_columns
           text_is_not_a_number text_is_not_a_number
           (lit "metabolite,log2FC
Lactate,2.3")
           (detectColumns [lit "metabolite"; lit "log2FC"])).
  right. reflexivity.
Defined.

(** *** The trims on a text without comma *)

Lemma replace_empty_no_comma p s :
  forallb (non (only ",")) s = true ->
  replace_empty s (One (only ",") :: p) = s.
Proof.
  intros H. unfold replace_empty. rewrite (exec_one_none _ _ _ H). reflexivity.
Qed.

(** X23: the trims need a comma.  Each of the six patterns starts at a
    comma, so a text without comma is left as it is: the repair of such a
    text only appends closing brackets. *)
Theorem trim_tail_keeps_a_text_without_comma :
  forall jsonStr : jsstring,
  forallb (non (only ",")) jsonStr = true ->
  trim_tail jsonStr = jsonStr /\
  exists closing,
    close_open (trim_tail jsonStr) = jsonStr ++ closing /\
    forallb (fun c => (c =? ch "}") || (c =? ch "]")) closing = true.
Proof.
  intros jsonStr H.
  assert (T : trim_tail jsonStr = jsonStr).
  { unfold trim_tail, trim_patterns, re_trim_string, re_trim_pair_string,
      re_trim_pair_array, re_trim_key, re_trim_comma, re_trim_object.
    cbn [fold_left]. rewrite !(replace_empty_no_comma _ _ H). reflexivity. }
  split; [exact T|]. rewrite T. unfold close_open.
  eexists. split; [reflexivity|].
  rewrite forallb_app. apply andb_true_iff. split.
  - induction (Z.to_nat (braces (count_open jsonStr))) as [|n IH];
      [reflexivity|exact IH].
  - induction (Z.to_nat (brackets (count_open jsonStr))) as [|n IH];
      [reflexivity|exact IH].
Qed.

(** A witness of X23: an array cut inside its only object. *)
Lemma trim_tail_keeps_a_text_without_comma_witness :
  trim_tail (js "[{'rank':1") = js "[{'rank':1" /\
  exists closing,
    close_open (trim_tail (js "[{'rank':1")) = js "[{'rank':1" ++ closing /\
    forallb (fun c => (c =? ch "}") || (c =? ch "]")) closing = true.
Proof.
  apply (trim_tail_keeps_a_text_without_comma (js "[{'rank':1")).
  reflexivity.
Defined.

(* ================================================================== *)
(** * Properties of the layout of the file *)
(* ================================================================== *)

(** *** Trimming *)

Lemma trim_start_ws pre s :
  forallb re_space pre = true -> trim_start (pre ++ s) = trim_start s.
Proof.
  induction pre as [|c pre IH]; intros H; [reflexivity|].
  cbn [forallb] in H. apply andb_prop in H. destruct H as [Hc H].
  cbn [app trim_start]. rewrite Hc. exact (IH H).
Qed.

Lemma trim_start_app s post :
  trim_start s <> [] -> trim_start (s ++ post) = trim_start s ++ post.
Proof.
  induction s as [|c s IH]; intros H; [exfalso; apply H; reflexivity|].
  cbn [app trim_start] in *. destruct (re_space c); [exact (IH H)|reflexivity].
Qed.

Lemma trim_start_all_ws s : trim_start s = [] -> forallb re_space s = true.
Proof.
  induction s as [|c s IH]; intros H; [reflexivity|].
  cbn [trim_start] in H. cbn [forallb].
  destruct (re_space c); [exact (IH H)|discriminate].
Qed.

Lemma forallb_rev {A} (f : A -> bool) l : forallb f (rev l) = forallb f l.
Proof.
  induction l as [|x l IH]; [reflexivity|].
  cbn [rev forallb]. rewrite forallb_app, IH. cbn [forallb].
  rewrite andb_true_r. apply andb_comm.
Qed.

(** White space around a text is trimmed away. *)
Lemma trim_ws pre s post :
  forallb re_space pre = true -> forallb re_space post = true ->
  trim (pre ++ s ++ post) = trim s.
Proof.
  intros Hpre Hpost. unfold trim.
  rewrite (trim_start_ws pre _ Hpre).
  destruct (trim_start s) as [|x t] eqn:E.
  - assert (Hs : forallb re_space s = true) by (apply trim_start_all_ws; exact E).
    rewrite (trim_start_ws s post Hs).
    replace (trim_start post) with (@nil char); [reflexivity|].
    symmetry. rewrite <- (app_nil_r post). rewrite (trim_start_ws post [] Hpost).
    reflexivity.
  - rewrite trim_start_app by (rewrite E; discriminate).
    rewrite E, rev_app_distr.
    rewrite trim_start_ws by (rewrite forallb_rev; exact Hpost). reflexivity.
Qed.

(** Trimming commutes with a rewriting of the characters that keeps
    white space white and the other characters as they are. *)
Lemma trim_start_expand (f : char -> jsstring) :
  (forall c, re_space c = true -> forallb re_space (f c) = true) ->
  (forall c, re_space c = false -> f c = [c]) ->
  forall s, trim_start (flat_map f s) = flat_map f (trim_start s).
Proof.
  intros Hws Hid. induction s as [|c s IH]; [reflexivity|].
  cbn [flat_map trim_start]. destruct (re_space c) eqn:E.
  - rewrite trim_start_ws by (apply Hws; exact E). exact IH.
  - rewrite (Hid c E). cbn [app trim_start]. rewrite E.
    cbn [flat_map]. rewrite (Hid c E). reflexivity.
Qed.

Lemma rev_flat_map (f : char -> jsstring) s :
  rev (flat_map f s) = flat_map (fun c => rev (f c)) (rev s).
Proof.
  induction s as [|c s IH]; [reflexivity|].
  cbn [flat_map rev]. rewrite rev_app_distr, IH, flat_map_app.
  cbn [flat_map]. rewrite app_nil_r. reflexivity.
Qed.

Lemma trim_crlf s : trim (crlf s) = crlf (trim s).
Proof.
  unfold trim, crlf.
  assert (W1 : forall c, re_space c = true ->
                forallb re_space (if c =? 10 then [13; 10] else [c]) = true).
  { intros c Hc. destruct (c =? 10); [reflexivity|].
    cbn [forallb]. rewrite Hc. reflexivity. }
  assert (I1 : forall c, re_space c = false ->
                (if c =? 10 then [13; 10] else [c]) = [c]).
  { intros c Hc. destruct (N.eqb_spec c 10); [subst; discriminate|reflexivity]. }
  assert (W2 : forall c, re_space c = true ->
                forallb re_space (rev (if c =? 10 then [13; 10] else [c])) = true).
  { intros c Hc. rewrite forallb_rev. apply W1. exact Hc. }
  assert (I2 : forall c, re_space c = false ->
                rev (if c =? 10 then [13; 10] else [c]) = [c]).
  { intros c Hc. rewrite (I1 c Hc). reflexivity. }
  rewrite (trim_start_expand _ W1 I1), rev_flat_map.
  rewrite (trim_start_expand _ W2 I2), rev_flat_map.
  apply flat_map_ext. intros c. apply rev_involutive.
Qed.

(** *** Lines and cells *)

Lemma add_cr_cons l p ps : add_cr (l :: p :: ps) = (l ++ [13]) :: add_cr (p :: ps).
Proof. reflexivity. Qed.

(** The lines of a text with CR LF line ends end with a carriage return,
    all but the last. *)
Lemma split_crlf : forall u, split 10 (crlf u) = add_cr (split 10 u).
Proof.
  induction u as [|c u IH]; [reflexivity|].
  unfold crlf in *. cbn [flat_map].
  destruct (split 10 u) as [|p ps] eqn:E; [exfalso; exact (split_not_nil _ _ E)|].
  destruct (N.eqb_spec c 10) as [->|Hc].
  - cbn [app]. change (split 10 (13 :: 10 :: ?x)) with
      (match split 10 (10 :: x) with
       | piece :: pieces => (13 :: piece) :: pieces
       | [] => [[13]]
       end).
    change (split 10 (10 :: ?x)) with ([] :: split 10 x).
    rewrite IH, E. reflexivity.
  - cbn [app split]. apply N.eqb_neq in Hc. rewrite Hc, IH, E.
    destruct ps as [|q ps]; reflexivity.
Qed.

Lemma split_app_last sep x : (x =? sep) = false -> forall l,
  split sep (l ++ [x]) =
  removelast (split sep l) ++ [last (split sep l) [] ++ [x]].
Proof.
  intros Hx. induction l as [|c l IH].
  - cbn. rewrite Hx. reflexivity.
  - cbn [app split]. rewrite IH.
    destruct (split sep l) as [|p ps] eqn:E; [exfalso; exact (split_not_nil _ _ E)|].
    destruct (c =? sep).
    + reflexivity.
    + destruct ps as [|q ps]; reflexivity.
Qed.

(** A carriage return at the end of a line is trimmed off its last cell. *)
Lemma parse_cells_cr l : parse_cells (l ++ [13]) = parse_cells l.
Proof.
  unfold parse_cells. rewrite (split_app_last (ch ",") 13 eq_refl).
  rewrite map_app. cbn [map].
  pose proof (trim_ws [] (last (split (ch ",") l) []) [13] eq_refl eq_refl) as T.
  cbn [app] in T. rewrite T.
  rewrite (app_removelast_last [] (split_not_nil (ch ",") l)) at 3.
  rewrite map_app. reflexivity.
Qed.

Lemma map_add_cr {B} (F : list jsstring -> B) : forall ls,
  map (fun line => F (parse_cells line)) (add_cr ls)
  = map (fun line => F (parse_cells line)) ls.
Proof.
  induction ls as [|l [|p ps] IH]; [reflexivity|reflexivity|].
  rewrite add_cr_cons. cbn [map] in *. rewrite parse_cells_cr, IH. reflexivity.
Qed.

Section LayoutProperties.

Variable StringToNumber : jsstring -> number.
Variable parseFloat : jsstring -> number.

Local Abbreviation parseCSV := (parseCSV StringToNumber parseFloat).
Local Abbreviation coerce := (coerce StringToNumber parseFloat).
Local Abbreviation is_significant := (is_significant StringToNumber).

(** X24: white space around the table does not count.  Blank lines,
    spaces or a final line break before or after the text change neither
    the headers nor the rows; in particular the line break that ends the
    last line makes no extra row. *)
Theorem parseCSV_ignores_surrounding_white_space :
  forall pre text post : jsstring,
  forallb re_space pre = true -> forallb re_space post = true ->
  parseCSV (pre ++ text ++ post) = parseCSV text.
Proof.
  intros pre text post Hpre Hpost. unfold parseCSV.
  rewrite (trim_ws pre text post Hpre Hpost). reflexivity.
Qed.

(** X25: CR LF line ends are read like LF line ends.  The carriage
    return that the split on line feeds leaves at the end of each line is
    trimmed off the last cell, so a file with Windows line ends gives the
    same headers and the same rows. *)
Theorem parseCSV_reads_CR_LF_like_LF :
  forall text : jsstring, parseCSV (crlf text) = parseCSV text.
Proof.
  intros text. unfold parseCSV. rewrite trim_crlf, split_crlf.
  destruct (split 10 (trim text)) as [|l0 [|l1 rest]] eqn:E;
    [reflexivity|reflexivity|].
  rewrite add_cr_cons. rewrite parse_cells_cr.
  rewrite (map_add_cr (fun cells =>
             fill_row StringToNumber parseFloat (parse_cells l0) cells 0 [])).
  reflexivity.
Qed.

(** X26: an empty cell is stored as [NaN].  Of the empty text [isNaN]
    does not hold (ToNumber reads it as 0), so it is handed to
    [parseFloat], which returns [NaN]: the cell is neither the empty text
    nor [undefined] nor 0.  [NaN] being falsy, a row whose fold change or
    p-value cell is empty gets the default and is not significant. *)
Theorem empty_cell_is_stored_as_NaN :
  StringToNumber [] = num_0 ->
  parseFloat [] = NaN ->
  coerce (Some []) = VNumber NaN /\
  forall (cols : columns) (r : row),
    get_prop r (key_of (foldChange cols)) = coerce (Some []) \/
    get_prop r (key_of (pValue cols)) = coerce (Some []) ->
    is_significant cols r = false.
Proof.
  intros H0 HN.
  assert (C : coerce (Some []) = VNumber NaN).
  { unfold coerce, isNaN, ToNumber. rewrite H0, HN. reflexivity. }
  split; [exact C|]. intros cols r [H|H]; unfold is_significant;
    rewrite H, C.
  - reflexivity.
  - apply andb_false_iff. right. reflexivity.
Qed.

End LayoutProperties.

(** A witness of X24: the expected table between blank lines. *)
Lemma parseCSV_ignores_surrounding_white_space_witness :
  parseCSV text_is_not_a_number text_is_not_a_number
    ([10; 32] ++ lit "metabolite,log2FC" ++ [13; 10; 10])
  = parseCSV text_is_not_a_number text_is_not_a_number (lit "metabolite,log2FC").
Proof.
  apply (parseCSV_ignores_surrounding_white_space
           text_is_not_a_number text_is_not_a_number
           [10; 32] (lit "metabolite,log2FC") [13; 10; 10]);
    reflexivity.
Defined.

(** A witness of X26: a row whose p-value cell is empty. *)
Lemma empty_cell_is_stored_as_NaN_witness :
  coerce empty_text_is_zero text_is_not_a_number (Some []) = VNumber NaN /\
  is_significant empty_text_is_zero example_columns
    [(lit "metabolite", VString (lit "Citrate"));
     (lit "log2FC", VNumber (Fin 2)); (lit "pvalue", VNumber NaN)]
  = false.
Proof.
  destruct (empty_cell_is_stored_as_NaN empty_text_is_zero text_is_not_a_number
              eq_refl eq_refl) as [H1 H2].
  split; [exact H1|]. apply H2. right. reflexivity.
Defined.
